(** * CW keyer application (main.c): command and mode control layer

    A shallow embedding of [src/main.c] of the ATTiny85 CW keyer and the
    properties of its linear feedback shift register, callsign trainer,
    beacon scheduler, adjustment loops and command dispatcher.

    The keyer library (yack.c / yack.h) is an external collaborator: every
    call into it is recorded as an [Event] in a trace, and the values it
    returns come from an explicit engine state and from scripted inputs. *)

From Stdlib Require Import String Ascii ZArith Bool Lia List.
Import ListNotations.
Local Open Scope Z_scope.

(** ** Machine integers *)

(** [word] is a 16-bit and [byte] an 8-bit unsigned integer; both are
    carried by [Z] with the wrap-around written out. *)
Definition wrap16 (x : Z) : Z := x mod 65536.
Definition wrap8 (x : Z) : Z := x mod 256.

(** Character constants are their ASCII codes. *)
Definition ch (a : ascii) : Z := Z.of_N (N_of_ascii a).

(** ** The random number generator: [lfsr], main.c lines 147-173 *)

(** The fixed seed of [static word lfsr]. *)
Definition LFSR_SEED : Z := 0xACE1.

(** [lfsr = (lfsr >> 1) ^ (-(lfsr & 1u) & 0xB400u);] on 16-bit unsigned
    operands. *)
Definition lfsr_next (s : Z) : Z :=
  wrap16 (Z.lxor (Z.shiftr s 1) (Z.land (wrap16 (- Z.land s 1)) 0xB400)).

(** [while (random >= n) random -= n;] The loop does not return when
    [n = 0]; the fuel bounds the number of subtractions. *)
Fixpoint cheap_modulo (fuel : nat) (random n : Z) : option Z :=
  if random >=? n then
    match fuel with
    | O => None
    | S fuel' => cheap_modulo fuel' (wrap8 (random - n)) n
    end
  else Some random.

(** [word lfsr(byte n)] with the static register passed explicitly: the
    result is the returned number and the new register.  [random] is a
    byte, so 256 subtractions are enough whenever the loop ends at all. *)
Definition lfsr (n : Z) (s : Z) : option (Z * Z) :=
  let s' := lfsr_next s in
  let random := wrap8 (Z.shiftr s' 8) in
  match cheap_modulo 256 random n with
  | Some r => Some (r, s')
  | None => None
  end.

(** Successive calls [lfsr(n1); lfsr(n2); ...] from a given register. *)
Fixpoint lfsr_calls (ns : list Z) (s : Z) : option (list Z * Z) :=
  match ns with
  | [] => Some ([], s)
  | n :: ns' =>
      match lfsr n s with
      | Some (r, s') =>
          match lfsr_calls ns' s' with
          | Some (rs, s'') => Some (r :: rs, s'')
          | None => None
          end
      | None => None
      end
  end.

(** The outputs the claim describes: the k-th output is the high byte of
    the k-th successor of the seed, reduced modulo the k-th bound. *)
Fixpoint lfsr_outputs (ns : list Z) (s : Z) : list Z :=
  match ns with
  | [] => []
  | n :: ns' => (Z.shiftr (lfsr_next s) 8 mod n) :: lfsr_outputs ns' (lfsr_next s)
  end.

(** ** The callsign synthesizer: [rndcall], main.c lines 179-200 *)

(** [call[i] = v] on the caller's buffer. *)
Fixpoint store (call : list Z) (i : nat) (v : Z) : list Z :=
  match call, i with
  | [], _ => []
  | _ :: t, O => v :: t
  | h :: t, S i' => h :: store t i' v
  end.

(** The body of [for (i=0;i<5;i++)], iterated [k] times from index [i]. *)
Fixpoint rndcall_from (k : nat) (i : Z) (call : list Z) (s : Z)
  : option (list Z * Z) :=
  match k with
  | O => Some (call, s)
  | S k' =>
      if i <? 5 then
        match (if i =? 2 then lfsr 10 s else lfsr 26 s) with
        | Some (r, s') =>
            let c := if i =? 2 then wrap8 (r + ch "0") else wrap8 (r + ch "A") in
            rndcall_from k' (wrap8 (i + 1)) (store call (Z.to_nat i) c) s'
        | None => None
        end
      else Some (call, s)
  end.

(** [void rndcall(char* call)]: the loop runs from [i = 0] and needs at
    most six tests of [i < 5]. *)
Definition rndcall (call : list Z) (s : Z) : option (list Z * Z) :=
  rndcall_from 6 0 call s.

(** The callsign [rndcall] writes from register [s], and the register it
    leaves behind. *)
Definition callsign_of (s : Z) : list Z :=
  let s1 := lfsr_next s in
  let s2 := lfsr_next s1 in
  let s3 := lfsr_next s2 in
  let s4 := lfsr_next s3 in
  let s5 := lfsr_next s4 in
  [Z.shiftr s1 8 mod 26 + ch "A"; Z.shiftr s2 8 mod 26 + ch "A";
   Z.shiftr s3 8 mod 10 + ch "0";
   Z.shiftr s4 8 mod 26 + ch "A"; Z.shiftr s5 8 mod 26 + ch "A"].

(** ** The generator run backwards and around *)

(** The register that [lfsr_next] takes to [s]: the feedback leaves bit 15
    set exactly when the bit shifted out was set. *)
Definition lfsr_prev (s : Z) : Z :=
  if Z.testbit s 15 then 2 * Z.lxor s 0xB400 + 1 else 2 * s.

(** None of the next [n] registers after [s] is [target]. *)
Fixpoint orbit_avoids (n : nat) (s target : Z) : bool :=
  match n with
  | O => true
  | S n' =>
      negb (lfsr_next s =? target) && orbit_avoids n' (lfsr_next s) target
  end.

(** ** The interface of the keyer library (yack.h) *)

(** Modelled from the spec: yack.h is not among the sources.  The truth
    values and switch positions are the customary ones; the handled flag of
    the dispatcher is the character whose code is [TRUE]. *)
Definition TRUE : Z := 1.
Definition FALSE : Z := 0.
Definition ON : Z := 1.
Definition OFF : Z := 0.

Inductive Direction := UP | DOWN.
Inductive Func := RECORD | PLAY.
Inductive Access := READ | WRITE.
Inductive KeyerMode := IAMBICA | IAMBICB | ULTIMATIC | DAHPRIO.
Inductive Flag := CONFLOCK | PDLSWAP | SIDETONE | TXKEY | TXINV.
Inductive Element := DIT | DAH.
Inductive Axis := WPMSPEED | FARNSWORTH.

Definition Flag_eqb (a b : Flag) : bool :=
  match a, b with
  | CONFLOCK, CONFLOCK | PDLSWAP, PDLSWAP | SIDETONE, SIDETONE
  | TXKEY, TXKEY | TXINV, TXINV => true
  | _, _ => false
  end.

(** The texts main.c keeps in flash. *)
Definition txok : string := "R".
Definition vers : string := "V0.87".
Definition prgx : string := "#".
Definition imok : string := "73".

Definition TRAINTIMEOUT : Z := 10.
Definition PITCHREPEAT : Z := 10.
Definition FARNSREPEAT : Z := 10.

(** One event per call into the keyer library, with its arguments. *)
Inductive Event :=
| EvInhibit (mode : Z)
| EvChar (c : Z)
| EvString (s : string)
| EvNumber (n : Z)
| EvError
| EvDelay (n : Z)
| EvFarns
| EvPlay (e : Element)
| EvPitch (d : Direction)
| EvSpeed (d : Direction) (a : Axis)
| EvMode (m : KeyerMode)
| EvToggle (f : Flag)
| EvFlag (f : Flag)
| EvReset
| EvSave
| EvTune
| EvMessage (f : Func) (n : Z)
| EvUser (f : Access) (nr : Z) (content : Z)
| EvPower (mode : Z)
| EvWpm
| EvBeat
| EvIambic (ctrl : Z)
| EvCtrlKey (mode : Z).

(** ** The state of the program and of its surroundings *)

(** The statics of main.c ([lfsr_reg], [beacon_interval], [beacon_timer]),
    the part of the engine state main.c can observe ([flags], [user],
    [wpm], [cklatch]), the scripted inputs (what successive calls of
    [yackiambic] decode, whether the command button is found pressed at
    successive calls of [yackctrlkey], what successive reads of the
    [KEYINP] register give) and the trace of library calls so far. *)
Record World := mkWorld {
  lfsr_reg : Z;
  beacon_interval : Z;
  beacon_timer : Z;
  flags : Flag -> bool;
  user : Z -> Z;
  wpm : Z;
  cklatch : bool;
  script_iambic : list Z;
  script_button : list bool;
  script_keyinp : list Z;
  trace : list Event
}.

(** The updates of single fields. *)
Definition set_lfsr_reg (v : Z) (w : World) : World :=
  match w with
  | mkWorld _ bi bt fl us sp ck si sb sk tr =>
      mkWorld v bi bt fl us sp ck si sb sk tr
  end.

Definition set_beacon_interval (v : Z) (w : World) : World :=
  match w with
  | mkWorld r _ bt fl us sp ck si sb sk tr =>
      mkWorld r v bt fl us sp ck si sb sk tr
  end.

Definition set_beacon_timer (v : Z) (w : World) : World :=
  match w with
  | mkWorld r bi _ fl us sp ck si sb sk tr =>
      mkWorld r bi v fl us sp ck si sb sk tr
  end.

Definition set_flags (v : Flag -> bool) (w : World) : World :=
  match w with
  | mkWorld r bi bt _ us sp ck si sb sk tr =>
      mkWorld r bi bt v us sp ck si sb sk tr
  end.

Definition set_user (v : Z -> Z) (w : World) : World :=
  match w with
  | mkWorld r bi bt fl _ sp ck si sb sk tr =>
      mkWorld r bi bt fl v sp ck si sb sk tr
  end.

Definition set_wpm (v : Z) (w : World) : World :=
  match w with
  | mkWorld r bi bt fl us _ ck si sb sk tr =>
      mkWorld r bi bt fl us v ck si sb sk tr
  end.

Definition set_cklatch (v : bool) (w : World) : World :=
  match w with
  | mkWorld r bi bt fl us sp _ si sb sk tr =>
      mkWorld r bi bt fl us sp v si sb sk tr
  end.

Definition set_script_iambic (v : list Z) (w : World) : World :=
  match w with
  | mkWorld r bi bt fl us sp ck _ sb sk tr =>
      mkWorld r bi bt fl us sp ck v sb sk tr
  end.

Definition set_script_button (v : list bool) (w : World) : World :=
  match w with
  | mkWorld r bi bt fl us sp ck si _ sk tr =>
      mkWorld r bi bt fl us sp ck si v sk tr
  end.

Definition set_script_keyinp (v : list Z) (w : World) : World :=
  match w with
  | mkWorld r bi bt fl us sp ck si sb _ tr =>
      mkWorld r bi bt fl us sp ck si sb v tr
  end.

Definition set_trace (v : list Event) (w : World) : World :=
  match w with
  | mkWorld r bi bt fl us sp ck si sb sk _ =>
      mkWorld r bi bt fl us sp ck si sb sk v
  end.

(** The program at power-on: [static word lfsr = 0xACE1],
    [static word interval = 65000], [static word timer] zeroed. *)
Definition power_on (fl : Flag -> bool) (us : Z -> Z) (speed : Z)
    (iambic : list Z) (button : list bool) (keyinp : list Z) : World :=
  mkWorld LFSR_SEED 65000 0 fl us speed false iambic button keyinp [].

(** ** A state monad with divergence *)

(** A computation transforms the world and yields a value, or yields
    nothing when a loop has used up its fuel. *)
Definition M (A : Type) : Type := World -> option (A * World).

Definition ret {A : Type} (a : A) : M A := fun w => Some (a, w).

Definition bind {A B : Type} (m : M A) (f : A -> M B) : M B :=
  fun w => match m w with
           | Some (a, w') => f a w'
           | None => None
           end.

Definition out_of_fuel {A : Type} : M A := fun _ => None.

Notation "x <- m ;; k" := (bind m (fun x => k))
  (at level 61, m at next level, right associativity).
Notation "m ;; k" := (bind m (fun _ => k))
  (at level 61, right associativity).
Notation "' pat <- m ;; k" := (bind m (fun x => match x with pat => k end))
  (at level 61, pat pattern, m at next level, right associativity).

Definition emit (e : Event) : M unit :=
  fun w => Some (tt, set_trace (trace w ++ [e]) w).

(** ** The calls into the keyer library *)

(** Modelled from the spec: yack.c is not among the sources.  What these
    calls do inside the engine (sound, keying, timing, storage of
    messages and settings) is represented by their event alone. *)
Definition yackinhibit (mode : Z) : M unit := emit (EvInhibit mode).
Definition yackchar (c : Z) : M unit := emit (EvChar c).
Definition yackstring (s : string) : M unit := emit (EvString s).
Definition yacknumber (n : Z) : M unit := emit (EvNumber n).
Definition yackerror : M unit := emit EvError.
Definition yackdelay (n : Z) : M unit := emit (EvDelay n).
Definition yackfarns : M unit := emit EvFarns.
Definition yackplay (e : Element) : M unit := emit (EvPlay e).
Definition yackpitch (d : Direction) : M unit := emit (EvPitch d).
Definition yackspeed (d : Direction) (a : Axis) : M unit := emit (EvSpeed d a).
Definition yackmode (m : KeyerMode) : M unit := emit (EvMode m).
Definition yacksave : M unit := emit EvSave.
Definition yacktune : M unit := emit EvTune.
Definition yackmessage (f : Func) (n : Z) : M unit := emit (EvMessage f n).
Definition yackpower (mode : Z) : M unit := emit (EvPower mode).
Definition yackbeat : M unit := emit EvBeat.

(** Modelled from the spec: "toggle a named boolean configuration
    field". *)
Definition yacktoggle (f : Flag) : M unit :=
  emit (EvToggle f);;
  fun w => Some (tt, set_flags (fun g => if Flag_eqb g f then negb (flags w g)
                                         else flags w g) w).

(** Modelled from the spec: the current value of a named flag. *)
Definition yackflag (f : Flag) : M bool :=
  emit (EvFlag f);;
  fun w => Some (flags w f, w).

(** Modelled from the spec: "read/write a single named non-volatile
    scalar"; a read yields the stored word, a write stores [content]. *)
Definition yackuser (f : Access) (nr content : Z) : M Z :=
  emit (EvUser f nr content);;
  match f with
  | READ => fun w => Some (user w nr, w)
  | WRITE => fun w =>
      Some (content, set_user (fun k => if k =? nr then content else user w k) w)
  end.

(** Modelled from the spec: "query current speed (words-per-minute)". *)
Definition yackwpm : M Z :=
  emit EvWpm;;
  fun w => Some (wpm w, w).

(** Modelled from the spec: "decode one pending character (non-blocking,
    empty if none)".  The decoded characters are scripted; an exhausted
    script decodes nothing. *)
Definition yackiambic (ctrl : Z) : M Z :=
  emit (EvIambic ctrl);;
  fun w => Some (hd 0 (script_iambic w), set_script_iambic (tl (script_iambic w)) w).

(** Modelled from the spec: "query/consume a control-key-pressed signal
    (two variants: peek vs. consume)".  A press found at the call sets the
    latch; the latch is returned and, when [mode] is [TRUE], cleared. *)
Definition yackctrlkey (mode : Z) : M bool :=
  emit (EvCtrlKey mode);;
  fun w =>
    let latch := cklatch w || hd false (script_button w) in
    Some (latch,
          set_cklatch (if mode =? TRUE then false else latch)
            (set_script_button (tl (script_button w)) w)).

(** Modelled from the spec: "perform a full factory reset".  All that the
    library stores goes back to its factory value: the flags, the user
    words and the speed.  The factory values are constants of the library
    and are taken as parameters; the statics of main.c are not the
    library's and stay. *)
Definition yackreset (FLAGDEFAULT : Flag -> bool) (USERDEFAULT : Z -> Z)
    (WPMDEFAULT : Z) : M unit :=
  emit EvReset;;
  fun w => Some (tt, set_wpm WPMDEFAULT
                       (set_user USERDEFAULT (set_flags FLAGDEFAULT w))).

(** One read of the paddle input register [KEYINP]; idle lines read high. *)
Definition KEYINP : M Z :=
  fun w => Some (hd 255 (script_keyinp w), set_script_keyinp (tl (script_keyinp w)) w).

(** [!(KEYINP & (1<<PIN))]: the contact on line [PIN] is closed. *)
Definition keyed (keys pin : Z) : bool := Z.land keys (Z.shiftl 1 pin) =? 0.

(** [lfsr(n)] on the static register of the world. *)
Definition call_lfsr (n : Z) : M Z :=
  fun w => match lfsr n (lfsr_reg w) with
           | Some (r, s') => Some (r, set_lfsr_reg s' w)
           | None => None
           end.

(** [rndcall(call)] on the static register of the world. *)
Definition call_rndcall (call : list Z) : M (list Z) :=
  fun w => match rndcall call (lfsr_reg w) with
           | Some (call', s') => Some (call', set_lfsr_reg s' w)
           | None => None
           end.

(** ** The vocabulary of the properties *)

(** A cycle of an adjustment loop is described by the two values the
    [KEYINP] register would give to its two reads. *)
Definition Cycle : Type := (Z * Z)%type.

(** A burst: contact-free cycles followed by a cycle with a contact. *)
Definition Burst : Type := (list Cycle * Cycle)%type.

(** The cycles of a sequence of bursts, in order. *)
Definition burst_cycles (bursts : list Burst) : list Cycle :=
  flat_map (fun b => fst b ++ [snd b]) bursts.

(** Fewer than ten contact-free cycles, then a contact. *)
Definition good_burst (quiet : Cycle -> bool) (b : Burst) : Prop :=
  Forall (fun c => quiet c = true) (fst b)
  /\ (List.length (fst b) < 10)%nat
  /\ quiet (snd b) = false.

(** The command button is not found pressed at the next [n] calls of
    [yackctrlkey]. *)
Definition calm (n : nat) (button : list bool) : Prop :=
  forall i, (i < n)%nat -> nth i button false = false.

(** The command button is found pressed at call number [n]. *)
Definition pressed_at (n : nat) (button : list bool) : Prop :=
  nth n button false = true.

(** The reads of [KEYINP] that [pitch] makes in these cycles: two in each. *)
Definition pitch_reads (cycles : list Cycle) : list Z :=
  flat_map (fun c => [fst c; snd c]) cycles.

(** The interval [beacon] works with once it has passed lines 293-294:
    the stored one when the static still holds the dummy value. *)
Definition loaded_interval (w : World) : Z :=
  if beacon_interval w =? 65000 then wrap16 (user w 1) else beacon_interval w.

(** A call [beacon(PLAY)] on this world finds the one-second counter
    expired: it takes the [else] of line 342. *)
Definition tick_expires (w : World) : bool :=
  negb (loaded_interval w =? 0) && (beacon_timer w =? 0).

(** The read of the stored interval that the first call makes. *)
Definition load_events (w : World) : list Event :=
  if beacon_interval w =? 65000 then [EvUser READ 1 0] else [].

(** The world after calls [beacon(PLAY)]: interval, timer and trace
    change. *)
Definition beacon_world (interval timer : Z) (evs : list Event) (w : World)
  : World :=
  mkWorld (lfsr_reg w) interval timer (flags w) (user w) (wpm w) (cklatch w)
    (script_iambic w) (script_button w) (script_keyinp w) (trace w ++ evs).

(** The world after one pass of the command loop that decoded a character
    and changed nothing but the generator, the input script and the
    trace. *)
Definition polled (rest : list Z) (evs : list Event) (w : World) : World :=
  mkWorld (lfsr_next (lfsr_reg w)) (beacon_interval w) (beacon_timer w)
    (flags w) (user w) (wpm w) (cklatch w) rest (script_button w)
    (script_keyinp w) (trace w ++ evs).

(** The characters of the lockable table, lines 398-472. *)
Definition lockable_chars : list Z :=
  [ch "R"; ch "A"; ch "B"; ch "L"; ch "D"; ch "X"; ch "S"; ch "K"; ch "Z";
   ch "F"; ch "1"; ch "2"; ch "3"; ch "4"; ch "N"].

(** The playback characters and their message slots, lines 512-542. *)
Definition playback_chars : list (Z * Z) :=
  [(ch "E", 1); (ch "I", 2); (ch "T", 3); (ch "M", 4)].

(** The world of a trainer session in which the command button is never
    pressed: the generator register, the characters still to be decoded
    and the trace change, the rest stays. *)
Definition trained (reg : Z) (rest : list Z) (evs : list Event) (w : World)
  : World :=
  mkWorld reg (beacon_interval w) (beacon_timer w) (flags w) (user w) (wpm w)
    false rest [] (script_keyinp w) (trace w ++ evs).

(** The command button is not latched and is never pressed. *)
Definition unpressed (w : World) : Prop :=
  cklatch w = false /\ script_button w = [].

(** One pass of the decoding loop, lines 246-247. *)
Definition decode_events : list Event := [EvIambic OFF; EvBeat].

(** The passes of the decoding loop when nothing is keyed until the timer
    runs out: [m] passes that go on to ask for the command button, and the
    last one. *)
Definition idle_events (m : nat) : list Event :=
  concat (repeat [EvIambic OFF; EvBeat; EvCtrlKey FALSE] m)
  ++ [EvIambic OFF; EvBeat].

(** The value the 16-bit accumulator of the beacon record mode holds
    after the digit characters [ds]. *)
Definition accumulate (ds : list Z) : Z :=
  fold_left (fun acc d => wrap16 (wrap16 (acc * 10) + (d - ch "0"))) ds 0.

(** [c>='0' && c<='9'] *)
Definition is_digit (c : Z) : bool := (c >=? ch "0") && (c <=? ch "9").

(** The world of the beacon record mode: interval, timer, the characters
    still to be decoded and the trace change. *)
Definition recorded (interval timer : Z) (rest : list Z) (evs : list Event)
    (w : World) : World :=
  mkWorld (lfsr_reg w) interval timer (flags w) (user w) (wpm w) (cklatch w)
    rest (script_button w) (script_keyinp w) (trace w ++ evs).

(** [n] passes of the loop of the beacon record mode. *)
Definition record_polls (n : nat) : list Event :=
  concat (repeat [EvIambic FALSE; EvBeat] n).

(** The number of error indications in a trace. *)
Definition error_count (evs : list Event) : nat :=
  List.length (filter (fun e => match e with EvError => true | _ => false end)
                 evs).

(** The calls of a trace other than the polling of the decoder. *)
Definition besides_polling (evs : list Event) : list Event :=
  filter (fun e => match e with
                   | EvIambic _ | EvBeat => false
                   | _ => true
                   end) evs.

(** [m] relates the world it starts in to every world it can end in by
    [R]. *)
Definition keeps {A : Type} (R : World -> World -> Prop) (m : M A) : Prop :=
  forall w a w', m w = Some (a, w') -> R w w'.

(** The generator register stays a non-zero 16-bit value. *)
Definition reg_kept (w w' : World) : Prop :=
  0 < lfsr_reg w < 65536 -> 0 < lfsr_reg w' < 65536.

(** The library calls that leave the lockable settings alone: all but
    reset, mode selection, the toggles, the speed and Farnsworth change,
    the recording of a message and the write of a user word. *)
Definition harmless (e : Event) : bool :=
  match e with
  | EvReset | EvMode _ | EvToggle _ | EvSpeed _ _ | EvMessage RECORD _
  | EvUser WRITE _ _ => false
  | _ => true
  end.

(** The flags and the user words stay, and the calls made in between are
    all [harmless]. *)
Definition config_kept (w w' : World) : Prop :=
  flags w' = flags w /\ user w' = user w
  /\ exists evs, trace w' = trace w ++ evs
                 /\ Forall (fun e => harmless e = true) evs.

(** The characters still to be decoded are among those that were. *)
Definition keys_kept (w w' : World) : Prop :=
  exists gone, script_iambic w = gone ++ script_iambic w'.

(** With the configuration locked and the character '0' never keyed, the
    configuration is kept, and so is the premise. *)
Definition lock_kept (w w' : World) : Prop :=
  flags w CONFLOCK = true ->
  Forall (fun c => c <> ch "0") (script_iambic w) ->
  config_kept w w' /\ Forall (fun c => c <> ch "0") (script_iambic w').

(** The library calls of a pass through the loop of [commandmode] in
    which nothing is decoded: the test of the command button, the decoding,
    the heartbeat and the query of the lock. *)
Definition idle_pass : list Event :=
  [EvCtrlKey TRUE; EvIambic OFF; EvBeat; EvFlag CONFLOCK].

(** The world after [n] such passes: the generator has advanced [n]
    times and [n] tests of the command button have found it released. *)
Definition idled (n : nat) (evs : list Event) (w : World) : World :=
  mkWorld (Nat.iter n lfsr_next (lfsr_reg w)) (beacon_interval w)
    (beacon_timer w) (flags w) (user w) (wpm w) false [] (skipn n (script_button w))
    (script_keyinp w) (trace w ++ evs).

(** The characters of the always-available table, lines 481-550. *)
Definition anytime_chars : list Z :=
  [ch "V"; ch "P"; ch "U"; ch "C"; ch "0"; ch "E"; ch "I"; ch "T"; ch "M";
   ch "W"].

(** The lockable commands that run no loop of their own, with the library
    calls each makes, lines 398-467. *)
Definition lockable_calls : list (Z * list Event) :=
  [(ch "R", [EvReset]);
   (ch "A", [EvMode IAMBICA]); (ch "B", [EvMode IAMBICB]);
   (ch "L", [EvMode ULTIMATIC]); (ch "D", [EvMode DAHPRIO]);
   (ch "X", [EvToggle PDLSWAP]); (ch "S", [EvToggle SIDETONE]);
   (ch "K", [EvToggle TXKEY]); (ch "F", [EvToggle TXINV]);
   (ch "1", [EvChar (ch "1"); EvMessage RECORD 1]);
   (ch "2", [EvChar (ch "2"); EvMessage RECORD 2]);
   (ch "3", [EvChar (ch "3"); EvMessage RECORD 3]);
   (ch "4", [EvChar (ch "4"); EvMessage RECORD 4])].

(** The always-available commands that are acknowledged and run no loop
    of their own, with the library calls each makes when the speed is
    [speed], lines 484-487, 494-498, 507-510 and 544-547. *)
Definition anytime_calls (speed : Z) : list (Z * list Event) :=
  [(ch "V", [EvString vers]);
   (ch "U", [EvInhibit OFF; EvTune; EvInhibit ON]);
   (ch "0", [EvToggle CONFLOCK]);
   (ch "W", [EvWpm; EvNumber speed])].

(** The flags after a library call other than the reset: a toggle flips
    its flag, the other calls leave the flags. *)
Definition flags_after (fl : Flag -> bool) (e : Event) (f : Flag) : bool :=
  match e with
  | EvToggle g => if Flag_eqb f g then negb (fl f) else fl f
  | _ => fl f
  end.

(** The number that the digit characters [ds] spell in decimal. *)
Definition decimal (ds : list Z) : Z :=
  fold_left (fun acc d => acc * 10 + (d - ch "0")) ds 0.

(** The calls a beacon tick can make while it waits: the read of the
    stored interval and the inhibition of the sleep mode. *)
Definition waiting_call (e : Event) : bool :=
  match e with
  | EvUser READ 1 0 | EvPower 0 => true
  | _ => false
  end.

(** The callsigns of [k] successive rounds of the trainer, from the
    generator register [s]: each takes five numbers. *)
Fixpoint callsigns (k : nat) (s : Z) : list (list Z) :=
  match k with
  | O => []
  | S k' => callsign_of s :: callsigns k' (Nat.iter 5 lfsr_next s)
  end.

(** [m] returns on [w]. *)
Definition returns {A : Type} (m : M A) (w : World) : Prop :=
  exists r, m w = Some r.

(** Every value [m] can yield satisfies [P]. *)
Definition yields {A : Type} (P : A -> Prop) (m : M A) : Prop :=
  forall w a w', m w = Some (a, w') -> P a.

(** Neither script of pending input grows. *)
Definition inputs_kept (w w' : World) : Prop :=
  (List.length (script_iambic w') <= List.length (script_iambic w))%nat
  /\ (List.length (script_keyinp w') <= List.length (script_keyinp w))%nat.

(** Fuel that lets every loop of the program run to its end on the input
    pending in [w]: a timer of at most 65535 passes is restarted at most
    once for every pending character or register value. *)
Definition enough_fuel (w : World) : nat :=
  (2 * List.length (script_iambic w) + List.length (script_keyinp w) + 4)
  * Z.to_nat 65536.

(** ** A sample configuration *)

(** Values for the parameters of yack.h, used to run the program on
    concrete inputs: a heartbeat of 10 ms, an idle timeout of ten
    seconds, the paddle on port bits 3 and 4. *)
Definition demo_YACKSECS (n : Z) : Z := n * 100.
Definition demo_DEFTIMEOUT : Z := 10.
Definition demo_MACTIMEOUT : Z := 5.
Definition demo_IWGLEN : Z := 7.
Definition demo_IEGLEN : Z := 1.
Definition demo_ICGLEN : Z := 3.
Definition demo_DAHLEN : Z := 3.
Definition demo_DITPIN : Z := 3.
Definition demo_DAHPIN : Z := 4.
Definition demo_POWERSAVE : bool := true.

(** The factory speed, for the reset; the factory flags are the unlocked
    sample flags and the factory user words the sample words with no
    beacon interval. *)
Definition demo_wpm : Z := 20.

Definition demo_flags (locked : bool) (f : Flag) : bool :=
  match f with
  | CONFLOCK => locked
  | SIDETONE | TXKEY => true
  | PDLSWAP | TXINV => false
  end.

(** Non-volatile storage holding [interval] as user word 1. *)
Definition demo_user (interval : Z) (nr : Z) : Z :=
  if nr =? 1 then interval else 0.

(** The keyer just switched on, with the given lock state, stored beacon
    interval and scripted inputs. *)
Definition demo_world (locked : bool) (interval : Z) (iambic : list Z)
    (button : list bool) (keyinp : list Z) : World :=
  power_on (demo_flags locked) (demo_user interval) 20 iambic button keyinp.

(** One burst (a contact-free cycle, then a DIT contact), followed by ten
    contact-free cycles, or by three and a press of the command button. *)
Definition demo_bursts : list Burst := [([(255, 255)], (247, 255))].
Definition demo_quiet : list Cycle := repeat (255, 255) 10.
Definition demo_short : list Cycle := repeat (255, 255) 3.
Definition demo_press : list bool := [false; false; false; false; false; true].

(** ** The program *)

Section Keyer.

(** The constants and macros of yack.h that main.c uses. *)
Variable YACKSECS : Z -> Z.
Variables DEFTIMEOUT MACTIMEOUT : Z.
Variables IWGLEN IEGLEN ICGLEN DAHLEN : Z.
Variables DITPIN DAHPIN : Z.

(** What [yackreset] puts back into the library's storage: the factory
    flags, user words and speed.  main.c names none of them. *)
Variable FLAGDEFAULT : Flag -> bool.
Variable USERDEFAULT : Z -> Z.
Variable WPMDEFAULT : Z.

(** Whether [POWERSAVE] is defined. *)
Variable POWERSAVE : bool.

(** *** [pitch], main.c lines 67-101 *)

(** [while (timer) { ... }] *)
Fixpoint pitch_loop (fuel : nat) (timer : Z) : M unit :=
  if timer =? 0 then ret tt
  else
    match fuel with
    | O => out_of_fuel
    | S fuel' =>
        let timer := wrap16 (timer - 1) in
        yackchar (ch "E");;
        k <- yackctrlkey TRUE;;
        if k : bool then ret tt
        else
          keys <- KEYINP;;
          timer <- (if keyed keys DITPIN
                    then yackpitch DOWN;; ret PITCHREPEAT
                    else ret timer);;
          keys <- KEYINP;;
          timer <- (if keyed keys DAHPIN
                    then yackpitch UP;; ret PITCHREPEAT
                    else ret timer);;
          pitch_loop fuel' timer
    end.

Definition pitch (fuel : nat) : M unit := pitch_loop fuel PITCHREPEAT.

(** *** [setfarns], main.c lines 105-142 *)

(** [while (timer++ != FARNSREPEAT) { ... }] on a byte. *)
Fixpoint setfarns_loop (fuel : nat) (timer : Z) : M unit :=
  let again := negb (timer =? FARNSREPEAT) in
  let timer := wrap8 (timer + 1) in
  if again then
    match fuel with
    | O => out_of_fuel
    | S fuel' =>
        k <- yackctrlkey TRUE;;
        if k : bool then ret tt
        else
          yackplay DIT;;
          yackdelay IEGLEN;;
          yackplay DAH;;
          yackdelay ICGLEN;;
          yackfarns;;
          keys <- KEYINP;;
          timer <- (if keyed keys DITPIN
                    then yackspeed DOWN FARNSWORTH;; ret 0
                    else
                      keys <- KEYINP;;
                      if keyed keys DAHPIN
                      then yackspeed UP FARNSWORTH;; ret 0
                      else ret timer);;
          setfarns_loop fuel' timer
    end
  else ret tt.

Definition setfarns (fuel : nat) : M unit := setfarns_loop fuel 0.

(** *** [cstrain], main.c lines 205-268 *)

(** [for (n=0;n<5;n++) { yackchar(call[n]); yackfarns();
    if (yackctrlkey(TRUE)) return; }]; the result tells whether the
    function returned from inside the loop. *)
Fixpoint play_call (k : nat) (n : Z) (call : list Z) : M bool :=
  match k with
  | O => ret false
  | S k' =>
      if n <? 5 then
        yackchar (nth (Z.to_nat n) call 0);;
        yackfarns;;
        stop <- yackctrlkey TRUE;;
        if stop : bool then ret true
        else play_call k' (wrap8 (n + 1)) call
      else ret false
  end.

(** [do { c=yackiambic(OFF); yackbeat(); timer--; }
    while ((!c) && timer && !(yackctrlkey(FALSE)));]
    yielding [c] and [timer]. *)
Fixpoint await_char (fuel : nat) (timer : Z) : M (Z * Z) :=
  match fuel with
  | O => out_of_fuel
  | S fuel' =>
      c <- yackiambic OFF;;
      yackbeat;;
      let timer := wrap16 (timer - 1) in
      if (c =? 0) && negb (timer =? 0) then
        k <- yackctrlkey FALSE;;
        if k : bool then ret (c, timer) else await_char fuel' timer
      else ret (c, timer)
  end.

(** [if (call[i] == c) i++; else { yackerror(); i=0; }] yielding [i]. *)
Definition check_char (call : list Z) (i c : Z) : M Z :=
  if nth (Z.to_nat i) call 0 =? c then ret (wrap8 (i + 1))
  else yackerror;; ret 0.

(** [while (i<5) { ... }]; the result is [true] when the loop is left
    with all five characters matched and [false] when the function
    returns from inside it. *)
Fixpoint train_round (fuel : nat) (call : list Z) (i : Z) : M bool :=
  if i <? 5 then
    match fuel with
    | O => out_of_fuel
    | S fuel' =>
        stop <- (if i =? 0
                 then yackdelay (2 * IWGLEN);; play_call 6 0 call
                 else ret false);;
        if stop : bool then ret false
        else
          '(c, timer) <- await_char fuel' (wrap16 (YACKSECS TRAINTIMEOUT));;
          if timer =? 0 then ret false
          else
            k <- yackctrlkey TRUE;;
            if k : bool then ret false
            else
              i <- check_char call i c;;
              train_round fuel' call i
    end
  else ret true.

(** [while (1) { rndcall(call); i=0; while (i<5) {...} yackchar('R'); }] *)
Fixpoint cstrain_loop (fuel : nat) (call : list Z) : M unit :=
  match fuel with
  | O => out_of_fuel
  | S fuel' =>
      call <- call_rndcall call;;
      matched <- train_round fuel' call 0;;
      if matched : bool then yackchar (ch "R");; cstrain_loop fuel' call
      else ret tt
  end.

(** [void cstrain(void)]; the local buffer [char call[5]] is overwritten
    by [rndcall] before it is read. *)
Definition cstrain (fuel : nat) : M unit := cstrain_loop fuel [0; 0; 0; 0; 0].

(** *** [beacon], main.c lines 272-359 *)

Definition get_interval : M Z := fun w => Some (beacon_interval w, w).
Definition put_interval (v : Z) : M unit :=
  fun w => Some (tt, set_beacon_interval v w).
Definition get_timer : M Z := fun w => Some (beacon_timer w, w).
Definition put_timer (v : Z) : M unit :=
  fun w => Some (tt, set_beacon_timer v w).

(** [while (--timer) { c=yackiambic(FALSE); yackbeat();
    if (c>='0' && c<='9') {...} }] on the static [timer] and [interval]. *)
Fixpoint beacon_record_loop (fuel : nat) : M unit :=
  timer <- get_timer;;
  let timer := wrap16 (timer - 1) in
  put_timer timer;;
  if timer =? 0 then ret tt
  else
    match fuel with
    | O => out_of_fuel
    | S fuel' =>
        c <- yackiambic FALSE;;
        yackbeat;;
        (if (c >=? ch "0") && (c <=? ch "9") then
           interval <- get_interval;;
           let interval := wrap16 (interval * 10) in
           let interval := wrap16 (interval + (c - ch "0")) in
           put_interval interval;;
           put_timer (wrap16 (YACKSECS DEFTIMEOUT))
         else ret tt);;
        beacon_record_loop fuel'
    end.

Definition beacon (fuel : nat) (mode : Func) : M unit :=
  interval <- get_interval;;
  (if interval =? 65000 then
     v <- yackuser READ 1 0;;
     put_interval (wrap16 v)
   else ret tt);;
  (match mode with
   | RECORD =>
       put_interval 0;;
       put_timer (wrap16 (YACKSECS DEFTIMEOUT));;
       yackchar (ch "N");;
       beacon_record_loop fuel;;
       interval <- get_interval;;
       if (interval >=? 0) && (interval <=? 9999) then
         yackuser WRITE 1 interval;;
         yacknumber interval
       else yackerror
   | PLAY => ret tt
   end);;
  interval <- get_interval;;
  match mode with
  | PLAY =>
      if negb (interval =? 0) then
        (if POWERSAVE then yackpower FALSE else ret tt);;
        timer <- get_timer;;
        if negb (timer =? 0) then put_timer (wrap16 (timer - 1))
        else
          put_timer (wrap16 (YACKSECS 1));;
          let interval := wrap16 (interval - 1) in
          put_interval interval;;
          if interval =? 0 then
            v <- yackuser READ 1 0;;
            put_interval (wrap16 v);;
            yackmessage PLAY 4
          else ret tt
      else ret tt
  | RECORD => ret tt
  end.

(** *** [commandmode], main.c lines 364-568 *)

(** [switch (c)] over the lockable configuration commands, lines 395-477,
    yielding [c]. *)
Definition lockable_commands (fuel : nat) (c : Z) : M Z :=
  if c =? ch "R" then yackreset FLAGDEFAULT USERDEFAULT WPMDEFAULT;; ret TRUE
  else if c =? ch "A" then yackmode IAMBICA;; ret TRUE
  else if c =? ch "B" then yackmode IAMBICB;; ret TRUE
  else if c =? ch "L" then yackmode ULTIMATIC;; ret TRUE
  else if c =? ch "D" then yackmode DAHPRIO;; ret TRUE
  else if c =? ch "X" then yacktoggle PDLSWAP;; ret TRUE
  else if c =? ch "S" then yacktoggle SIDETONE;; ret TRUE
  else if c =? ch "K" then yacktoggle TXKEY;; ret TRUE
  else if c =? ch "Z" then setfarns fuel;; ret TRUE
  else if c =? ch "F" then yacktoggle TXINV;; ret TRUE
  else if c =? ch "1" then yackchar (ch "1");; yackmessage RECORD 1;; ret TRUE
  else if c =? ch "2" then yackchar (ch "2");; yackmessage RECORD 2;; ret TRUE
  else if c =? ch "3" then yackchar (ch "3");; yackmessage RECORD 3;; ret TRUE
  else if c =? ch "4" then yackchar (ch "4");; yackmessage RECORD 4;; ret TRUE
  else if c =? ch "N" then beacon fuel RECORD;; ret TRUE
  else ret c.

(** [switch (c)] over the commands that can be used anytime, lines
    481-550, yielding [c] and [timer]. *)
Definition anytime_commands (fuel : nat) (c timer : Z) : M (Z * Z) :=
  if c =? ch "V" then yackstring vers;; ret (TRUE, timer)
  else if c =? ch "P" then pitch fuel;; ret (TRUE, timer)
  else if c =? ch "U" then
    yackinhibit OFF;; yacktune;; yackinhibit ON;; ret (TRUE, timer)
  else if c =? ch "C" then cstrain fuel;; ret (TRUE, timer)
  else if c =? ch "0" then yacktoggle CONFLOCK;; ret (TRUE, timer)
  else if c =? ch "E" then
    yackinhibit OFF;; yackmessage PLAY 1;; yackinhibit ON;;
    ret (FALSE, wrap16 (YACKSECS MACTIMEOUT))
  else if c =? ch "I" then
    yackinhibit OFF;; yackmessage PLAY 2;; yackinhibit ON;;
    ret (FALSE, wrap16 (YACKSECS MACTIMEOUT))
  else if c =? ch "T" then
    yackinhibit OFF;; yackmessage PLAY 3;; yackinhibit ON;;
    ret (FALSE, wrap16 (YACKSECS MACTIMEOUT))
  else if c =? ch "M" then
    yackinhibit OFF;; yackmessage PLAY 4;; yackinhibit ON;;
    ret (FALSE, wrap16 (YACKSECS MACTIMEOUT))
  else if c =? ch "W" then
    speed <- yackwpm;; yacknumber speed;; ret (TRUE, timer)
  else ret (c, timer).

(** The body of the [while] loop, lines 384-561, yielding [timer]. *)
Definition command_body (fuel : nat) (timer : Z) : M Z :=
  c <- yackiambic OFF;;
  let timer := if negb (c =? 0) then wrap16 (YACKSECS DEFTIMEOUT) else timer in
  yackbeat;;
  call_lfsr 255;;
  locked <- yackflag CONFLOCK;;
  c <- (if negb locked then lockable_commands fuel c else ret c);;
  '(c, timer) <- anytime_commands fuel c timer;;
  (if c =? TRUE then
     yacksave;;
     yackdelay (DAHLEN * 3);;
     yackstring txok
   else if negb (c =? 0) then yackerror
   else ret tt);;
  ret timer.

(** [while ((yackctrlkey(TRUE)==0) && (timer-- > 0)) { ... }] *)
Fixpoint command_loop (fuel : nat) (timer : Z) : M unit :=
  match fuel with
  | O => out_of_fuel
  | S fuel' =>
      k <- yackctrlkey TRUE;;
      if k : bool then ret tt
      else
        let again := timer >? 0 in
        let timer := wrap16 (timer - 1) in
        if again then
          timer <- command_body fuel' timer;;
          command_loop fuel' timer
        else ret tt
  end.

Definition commandmode (fuel : nat) : M unit :=
  yackinhibit ON;;
  yackchar (ch "?");;
  command_loop fuel (wrap16 (YACKSECS DEFTIMEOUT));;
  yackstring prgx;;
  yackinhibit OFF.

(** *** [main], main.c lines 572-602 *)

(** One pass of [while(1) { if (yackctrlkey(TRUE)) commandmode();
    yackbeat(); beacon(PLAY); yackiambic(OFF); }], lines 589-599.  The
    calls that [main] makes once before the loop are not part of it. *)
Definition main_pass (fuel : nat) : M unit :=
  k <- yackctrlkey TRUE;;
  (if k : bool then commandmode fuel else ret tt);;
  yackbeat;;
  beacon fuel PLAY;;
  yackiambic OFF;;
  ret tt.

(** [n] passes of the endless loop of [main]. *)
Fixpoint main_loop (fuel : nat) (n : nat) : M unit :=
  match n with
  | O => ret tt
  | S n' => main_pass fuel;; main_loop fuel n'
  end.

(** *** The calls and worlds of the loops *)

(** Neither the DIT test nor the DAH test of the cycle finds a contact. *)
Definition contact_free (c : Cycle) : bool :=
  negb (keyed (fst c) DITPIN) && negb (keyed (snd c) DAHPIN).

(** The library calls of one cycle of [pitch]. *)
Definition pitch_cycle_events (c : Cycle) : list Event :=
  [EvChar (ch "E"); EvCtrlKey TRUE]
  ++ (if keyed (fst c) DITPIN then [EvPitch DOWN] else [])
  ++ (if keyed (snd c) DAHPIN then [EvPitch UP] else []).

(** The world after one cycle of [pitch], and after several. *)
Definition pitch_cycle_world (c : Cycle) (w : World) : World :=
  mkWorld (lfsr_reg w) (beacon_interval w) (beacon_timer w) (flags w) (user w)
    (wpm w) false (script_iambic w) (tl (script_button w))
    (tl (tl (script_keyinp w))) (trace w ++ pitch_cycle_events c).

Definition pitch_cycles_world (cycles : list Cycle) (w : World) : World :=
  fold_left (fun w c => pitch_cycle_world c w) cycles w.

(** The Farnsworth loop reads [KEYINP] a second time only when the first
    read shows no DIT contact. *)
Definition farns_cycle_reads (c : Cycle) : list Z :=
  if keyed (fst c) DITPIN then [fst c] else [fst c; snd c].

(** The reads of [KEYINP] that [setfarns] makes in these cycles. *)
Definition farns_reads (cycles : list Cycle) : list Z :=
  flat_map farns_cycle_reads cycles.

(** The library calls of one cycle of [setfarns]. *)
Definition farns_cycle_events (c : Cycle) : list Event :=
  [EvCtrlKey TRUE; EvPlay DIT; EvDelay IEGLEN; EvPlay DAH; EvDelay ICGLEN;
   EvFarns]
  ++ (if keyed (fst c) DITPIN then [EvSpeed DOWN FARNSWORTH]
      else if keyed (snd c) DAHPIN then [EvSpeed UP FARNSWORTH]
      else []).

(** The world after one cycle of [setfarns], and after several. *)
Definition farns_cycle_world (c : Cycle) (w : World) : World :=
  mkWorld (lfsr_reg w) (beacon_interval w) (beacon_timer w) (flags w) (user w)
    (wpm w) false (script_iambic w) (tl (script_button w))
    (skipn (List.length (farns_cycle_reads c)) (script_keyinp w))
    (trace w ++ farns_cycle_events c).

Definition farns_cycles_world (cycles : list Cycle) (w : World) : World :=
  fold_left (fun w c => farns_cycle_world c w) cycles w.

(** Successive calls [beacon(PLAY)], as the main loop makes them; the
    result counts the calls that found the one-second counter expired. *)
Fixpoint beacon_ticks (n : nat) : M nat :=
  match n with
  | O => ret 0%nat
  | S n' =>
      e <- (fun w => Some (tick_expires w, w));;
      beacon 0 PLAY;;
      k <- beacon_ticks n';;
      ret (if e : bool then S k else k)
  end.

(** The call [yackpower(FALSE)] that a waiting beacon makes when
    [POWERSAVE] is defined. *)
Definition power_events : list Event :=
  if POWERSAVE then [EvPower FALSE] else [].

(** The library calls that present a callsign, lines 231-238. *)
Definition present_events (call : list Z) : list Event :=
  EvDelay (2 * IWGLEN)
  :: flat_map (fun c => [EvChar c; EvFarns; EvCtrlKey TRUE]) call.

(** The library calls of a round of the trainer in which the callsign is
    keyed back without a mistake: the presentation, five characters
    decoded, the acknowledgement. *)
Definition perfect_round (call : list Z) : list Event :=
  present_events call
  ++ concat (repeat (decode_events ++ [EvCtrlKey TRUE]) 5)
  ++ [EvChar (ch "R")].

(** The always-available commands that run a loop of their own, with the
    library calls the loop begins with: the pitch loop of 'P', lines
    489-492, sounds a dit and looks for the command button; the trainer of
    'C', lines 500-503, starts with its delay. *)
Definition anytime_loops : list (Z * list Event) :=
  [(ch "P", [EvChar (ch "E"); EvCtrlKey TRUE]);
   (ch "C", [EvDelay (2 * IWGLEN)])].

(** * Properties *)

(** ** Properties of the generator *)

Lemma wrap16_range x : 0 <= wrap16 x < 65536.
Proof. unfold wrap16. apply Z.mod_pos_bound. lia. Qed.

Lemma wrap8_range x : 0 <= wrap8 x < 256.
Proof. unfold wrap8. apply Z.mod_pos_bound. lia. Qed.

Lemma wrap16_small x : 0 <= x < 65536 -> wrap16 x = x.
Proof. intros H. unfold wrap16. apply Z.mod_small. exact H. Qed.

Lemma wrap8_small x : 0 <= x < 256 -> wrap8 x = x.
Proof. intros H. unfold wrap8. apply Z.mod_small. exact H. Qed.

Lemma land_1 s : Z.land s 1 = s mod 2.
Proof. change 1 with (Z.ones 1). rewrite Z.land_ones by lia. reflexivity. Qed.

Lemma shiftr_1 s : Z.shiftr s 1 = s / 2.
Proof. rewrite Z.shiftr_div_pow2 by lia. reflexivity. Qed.

Lemma shiftr_8 s : Z.shiftr s 8 = s / 256.
Proof. rewrite Z.shiftr_div_pow2 by lia. reflexivity. Qed.

(** The feedback mask selected by the low bit. *)
Lemma feedback_mask s :
  Z.land (wrap16 (- Z.land s 1)) 0xB400 = if Z.odd s then 0xB400 else 0.
Proof.
  rewrite land_1. rewrite Zmod_odd.
  destruct (Z.odd s); reflexivity.
Qed.

Lemma lxor_lt_65536 a b :
  0 <= a < 65536 -> 0 <= b < 65536 -> 0 <= Z.lxor a b < 65536.
Proof.
  intros Ha Hb. split.
  - apply Z.lxor_nonneg. lia.
  - destruct (Z.eq_dec (Z.lxor a b) 0) as [->|Hne]; [lia|].
    assert (Hnn : 0 <= Z.lxor a b) by (apply Z.lxor_nonneg; lia).
    change 65536 with (2 ^ 16).
    apply Z.log2_lt_pow2; [lia|].
    assert (Hl : Z.log2 (Z.lxor a b) <= Z.max (Z.log2 a) (Z.log2 b))
      by (apply Z.log2_lxor; lia).
    assert (Z.log2 a < 16).
    { destruct (Z.eq_dec a 0) as [->|]; [simpl; lia|].
      apply Z.log2_lt_pow2; lia. }
    assert (Z.log2 b < 16).
    { destruct (Z.eq_dec b 0) as [->|]; [simpl; lia|].
      apply Z.log2_lt_pow2; lia. }
    lia.
Qed.

(** The update in the form the specification gives it. *)
Lemma lfsr_next_galois s :
  0 <= s < 65536 ->
  lfsr_next s = Z.lxor (Z.shiftr s 1) (if Z.odd s then 0xB400 else 0).
Proof.
  intros Hs. unfold lfsr_next. rewrite feedback_mask.
  apply wrap16_small. apply lxor_lt_65536.
  - rewrite shiftr_1. split; [apply Z.div_pos; lia|].
    apply Z.div_lt_upper_bound; lia.
  - destruct (Z.odd s); lia.
Qed.

Lemma lfsr_next_range s : 0 <= lfsr_next s < 65536.
Proof. unfold lfsr_next. apply wrap16_range. Qed.

Lemma lfsr_next_nonzero s : 0 < s < 65536 -> lfsr_next s <> 0.
Proof.
  intros Hs Hz. rewrite lfsr_next_galois in Hz by lia.
  rewrite shiftr_1 in Hz.
  assert (Hhalf : 0 <= s / 2 < 32768).
  { split; [apply Z.div_pos; lia|]. apply Z.div_lt_upper_bound; lia. }
  destruct (Z.odd s) eqn:Hodd.
  - apply Z.lxor_eq in Hz. lia.
  - rewrite Z.lxor_0_r in Hz.
    pose proof (Z.div_mod s 2 ltac:(lia)) as Hdm.
    rewrite Zmod_odd, Hodd in Hdm. lia.
Qed.

Lemma iter_next_range k s :
  0 <= s < 65536 -> 0 <= Nat.iter k lfsr_next s < 65536.
Proof.
  intros Hs. destruct k; simpl; [exact Hs | apply lfsr_next_range].
Qed.

Lemma iter_next_nonzero k s :
  0 < s < 65536 -> 0 < Nat.iter k lfsr_next s < 65536.
Proof.
  intros Hs. induction k as [|k IH]; simpl; [exact Hs|].
  pose proof (lfsr_next_range (Nat.iter k lfsr_next s)).
  pose proof (lfsr_next_nonzero _ IH). lia.
Qed.

(** Repeated subtraction computes the remainder. *)
Lemma cheap_modulo_mod fuel random n :
  0 < n -> 0 <= random < 256 -> random < Z.of_nat fuel * n + n ->
  cheap_modulo fuel random n = Some (random mod n).
Proof.
  revert random. induction fuel as [|fuel IH]; intros random Hn Hr Hf.
  - simpl. destruct (Z.geb_spec random n) as [Hge|Hlt]; [lia|].
    rewrite Z.mod_small by lia. reflexivity.
  - simpl. destruct (Z.geb_spec random n) as [Hge|Hlt].
    + rewrite wrap8_small by lia.
      rewrite IH by lia.
      f_equal. replace random with ((random - n) + 1 * n) at 2 by lia.
      rewrite Z.mod_add by lia. reflexivity.
    + rewrite Z.mod_small by lia. reflexivity.
Qed.

Lemma lfsr_result n s :
  1 <= n ->
  lfsr n s = Some (Z.shiftr (lfsr_next s) 8 mod n, lfsr_next s).
Proof.
  intros Hn. unfold lfsr.
  pose proof (lfsr_next_range s) as Hr.
  assert (Hb : 0 <= Z.shiftr (lfsr_next s) 8 < 256).
  { rewrite shiftr_8. split; [apply Z.div_pos; lia|].
    apply Z.div_lt_upper_bound; lia. }
  rewrite (wrap8_small _ Hb).
  rewrite cheap_modulo_mod; [reflexivity | lia | exact Hb | lia].
Qed.

Lemma lfsr_calls_result ns s :
  Forall (fun n => 2 <= n <= 255) ns ->
  lfsr_calls ns s
  = Some (lfsr_outputs ns s, Nat.iter (length ns) lfsr_next s).
Proof.
  revert s. induction ns as [|n ns IH]; intros s Hall; [reflexivity|].
  inversion Hall as [|? ? Hn Hrest]; subst.
  simpl lfsr_calls. rewrite lfsr_result by lia.
  rewrite IH by assumption. simpl lfsr_outputs.
  change (length (n :: ns)) with (S (length ns)).
  rewrite Nat.iter_succ_r. reflexivity.
Qed.

(** ** Properties of the callsign synthesizer *)

Lemma lfsr_output_range n s :
  1 <= n -> 0 <= Z.shiftr (lfsr_next s) 8 mod n < n.
Proof. intros Hn. apply Z.mod_pos_bound. lia. Qed.

Lemma rndcall_from_letter k i call s :
  i < 5 -> i <> 2 ->
  rndcall_from (S k) i call s
  = rndcall_from k (wrap8 (i + 1))
      (store call (Z.to_nat i)
         (wrap8 (Z.shiftr (lfsr_next s) 8 mod 26 + ch "A")))
      (lfsr_next s).
Proof.
  intros Hi Hne. cbn [rndcall_from].
  destruct (Z.ltb_spec i 5) as [_|]; [|lia].
  destruct (Z.eqb_spec i 2) as [|_]; [lia|].
  rewrite lfsr_result by lia. reflexivity.
Qed.

Lemma rndcall_from_digit k call s :
  rndcall_from (S k) 2 call s
  = rndcall_from k (wrap8 (2 + 1))
      (store call (Z.to_nat 2)
         (wrap8 (Z.shiftr (lfsr_next s) 8 mod 10 + ch "0")))
      (lfsr_next s).
Proof.
  cbn [rndcall_from].
  change (2 <? 5) with true. change (2 =? 2) with true. cbv iota.
  rewrite lfsr_result by lia. reflexivity.
Qed.

Lemma rndcall_result call s :
  List.length call = 5%nat ->
  rndcall call s = Some (callsign_of s, Nat.iter 5 lfsr_next s).
Proof.
  intros Hlen.
  destruct call as [|c0 [|c1 [|c2 [|c3 [|c4 [|c5 rest]]]]]]; try discriminate.
  unfold rndcall.
  rewrite rndcall_from_letter by lia. change (wrap8 (0 + 1)) with 1.
  rewrite rndcall_from_letter by lia. change (wrap8 (1 + 1)) with 2.
  rewrite rndcall_from_digit. change (wrap8 (2 + 1)) with 3.
  rewrite rndcall_from_letter by lia. change (wrap8 (3 + 1)) with 4.
  rewrite rndcall_from_letter by lia. change (wrap8 (4 + 1)) with 5.
  cbn [rndcall_from]. change (5 <? 5) with false. cbv iota.
  change (Z.to_nat 0) with 0%nat. change (Z.to_nat 1) with 1%nat.
  change (Z.to_nat 2) with 2%nat. change (Z.to_nat 3) with 3%nat.
  change (Z.to_nat 4) with 4%nat. cbn [store].
  unfold callsign_of.
  change (Nat.iter 5 lfsr_next s)
    with (lfsr_next (lfsr_next (lfsr_next (lfsr_next (lfsr_next s))))).
  set (s1 := lfsr_next s). set (s2 := lfsr_next s1).
  set (s3 := lfsr_next s2). set (s4 := lfsr_next s3).
  set (s5 := lfsr_next s4).
  pose proof (lfsr_output_range 26 s ltac:(lia)).
  pose proof (lfsr_output_range 26 s1 ltac:(lia)).
  pose proof (lfsr_output_range 10 s2 ltac:(lia)).
  pose proof (lfsr_output_range 26 s3 ltac:(lia)).
  pose proof (lfsr_output_range 26 s4 ltac:(lia)).
  fold s1 in H. fold s2 in H0. fold s3 in H1. fold s4 in H2. fold s5 in H3.
  change (ch "A") with 65 in *. change (ch "0") with 48 in *.
  rewrite !wrap8_small by lia.
  reflexivity.
Qed.

(** ** The claims about the generator and the synthesizer *)

(** C5: for a bound [n] in [2, 255] and a 16-bit register [s] (every
    register reachable from the seed is one), [lfsr(n)] returns a value in
    [0, n): the register becomes [(s >> 1) XOR (0xB400 if the low bit of
    [s] was set else 0)], the value is the high byte of the new register
    modulo [n], and a sequence of calls with bounds [ns] yields outputs
    and a final register that are functions of the seed and the calls
    alone, the register depending only on their number. *)
Theorem lfsr_bounded_deterministic (n s : Z) (ns : list Z) (k : nat)
    (Hn : 2 <= n <= 255) (Hs : 0 <= s < 65536)
    (Hns : Forall (fun n => 2 <= n <= 255) ns) :
  0 <= Nat.iter k lfsr_next LFSR_SEED < 65536
  /\ lfsr_next s = Z.lxor (Z.shiftr s 1) (if Z.testbit s 0 then 0xB400 else 0)
  /\ (exists r, lfsr n s = Some (r, lfsr_next s)
                /\ r = Z.shiftr (lfsr_next s) 8 mod n
                /\ 0 <= r < n)
  /\ lfsr_calls ns s
     = Some (lfsr_outputs ns s, Nat.iter (List.length ns) lfsr_next s).
Proof.
  split; [apply iter_next_range; unfold LFSR_SEED; lia|].
  split; [rewrite Z.bit0_odd; apply lfsr_next_galois; exact Hs|].
  split.
  - exists (Z.shiftr (lfsr_next s) 8 mod n).
    split; [apply lfsr_result; lia|].
    split; [reflexivity | apply lfsr_output_range; lia].
  - apply lfsr_calls_result. exact Hns.
Qed.

(** C6: from every register, [rndcall] fills the five-character buffer
    with ['A' + lfsr(26)] at positions 0, 1, 3, 4 and ['0' + lfsr(10)] at
    position 2, the calls being made in the order of the positions; so the
    callsign has the shape letter, letter, digit, letter, letter. *)
Theorem rndcall_pattern (call : list Z) (s : Z)
    (Hlen : List.length call = 5%nat) :
  exists r0 r1 r2 r3 r4 s1 s2 s3 s4 s5,
    lfsr 26 s = Some (r0, s1) /\ lfsr 26 s1 = Some (r1, s2)
    /\ lfsr 10 s2 = Some (r2, s3)
    /\ lfsr 26 s3 = Some (r3, s4) /\ lfsr 26 s4 = Some (r4, s5)
    /\ rndcall call s
       = Some ([r0 + ch "A"; r1 + ch "A"; r2 + ch "0"; r3 + ch "A"; r4 + ch "A"],
               s5)
    /\ (ch "A" <= r0 + ch "A" <= ch "Z") /\ (ch "A" <= r1 + ch "A" <= ch "Z")
    /\ (ch "0" <= r2 + ch "0" <= ch "9")
    /\ (ch "A" <= r3 + ch "A" <= ch "Z") /\ (ch "A" <= r4 + ch "A" <= ch "Z").
Proof.
  set (s1 := lfsr_next s). set (s2 := lfsr_next s1).
  set (s3 := lfsr_next s2). set (s4 := lfsr_next s3).
  set (s5 := lfsr_next s4).
  exists (Z.shiftr s1 8 mod 26), (Z.shiftr s2 8 mod 26),
         (Z.shiftr s3 8 mod 10),
         (Z.shiftr s4 8 mod 26), (Z.shiftr s5 8 mod 26),
         s1, s2, s3, s4, s5.
  pose proof (lfsr_output_range 26 s ltac:(lia)) as H0.
  pose proof (lfsr_output_range 26 s1 ltac:(lia)) as H1.
  pose proof (lfsr_output_range 10 s2 ltac:(lia)) as H2.
  pose proof (lfsr_output_range 26 s3 ltac:(lia)) as H3.
  pose proof (lfsr_output_range 26 s4 ltac:(lia)) as H4.
  fold s1 in H0. fold s2 in H1. fold s3 in H2. fold s4 in H3. fold s5 in H4.
  repeat split; try (apply lfsr_result; lia);
    try (change (ch "A") with 65; change (ch "Z") with 90;
         change (ch "0") with 48; change (ch "9") with 57; lia).
  rewrite rndcall_result by exact Hlen. reflexivity.
Qed.

(** C10: the register starts at the non-zero seed 0xACE1, the update
    maps every non-zero 16-bit register to a non-zero one, and so the
    register is non-zero after any number of calls of [lfsr], whatever
    bounds they are given. *)
Theorem lfsr_never_zero (s : Z) (ns : list Z)
    (Hs : 0 < s < 65536) (Hns : Forall (fun n => 2 <= n <= 255) ns) :
  LFSR_SEED = 0xACE1
  /\ lfsr_next s <> 0
  /\ exists rs s', lfsr_calls ns LFSR_SEED = Some (rs, s') /\ s' <> 0.
Proof.
  split; [reflexivity|].
  split; [apply lfsr_next_nonzero; exact Hs|].
  exists (lfsr_outputs ns LFSR_SEED),
         (Nat.iter (List.length ns) lfsr_next LFSR_SEED).
  split; [apply lfsr_calls_result; exact Hns|].
  pose proof (iter_next_nonzero (List.length ns) LFSR_SEED) as H.
  unfold LFSR_SEED in *. lia.
Qed.

(** ** Running the dispatcher *)

Arguments wrap16 : simpl never.
Arguments wrap8 : simpl never.
Arguments lfsr_next : simpl never.
Arguments lfsr : simpl never.

(** Flatten the record updates of a world and the appends of its trace. *)
Ltac flat_world :=
  unfold ret, set_trace, set_lfsr_reg, set_beacon_interval, set_beacon_timer,
    set_flags, set_user, set_cklatch, set_script_iambic, set_script_button,
    set_script_keyinp;
  cbn [lfsr_reg beacon_interval beacon_timer flags user wpm cklatch
       script_iambic script_button script_keyinp trace];
  rewrite <- ?app_assoc; cbn [app].

(** Run the straight-line part of a computation on a world. *)
Ltac run :=
  cbn [bind ret emit out_of_fuel
       yackinhibit yackchar yackstring yacknumber yackerror yackdelay
       yackfarns yackplay yackpitch yackspeed yackmode yacksave yacktune
       yackmessage yackpower yackbeat yacktoggle yackflag yackuser yackwpm
       yackiambic yackctrlkey yackreset KEYINP
       get_interval put_interval get_timer put_timer
       lfsr_reg beacon_interval beacon_timer flags user wpm cklatch
       script_iambic script_button script_keyinp trace
       set_trace set_lfsr_reg set_beacon_interval set_beacon_timer
       set_flags set_user set_wpm set_cklatch set_script_iambic
       set_script_button set_script_keyinp
       hd tl negb andb orb fst snd Z.eqb Pos.eqb].

(** Close a goal that equates two results up to the bracketing of the
    trace. *)
Ltac same_world :=
  run;
  unfold yackinhibit, yackchar, yackstring, yacknumber, yackerror, yackdelay,
    yackfarns, yackplay, yackpitch, yackspeed, yackmode, yacksave, yacktune,
    yackmessage, yackpower, yackbeat, emit, put_interval, put_timer, ret;
  run; cbn [app]; rewrite <- ?app_assoc; cbn [app]; rewrite ?app_nil_r;
  reflexivity.

Lemma bind_bind {A B C : Type} (m : M A) (f : A -> M B) (g : B -> M C) w :
  bind (bind m f) g w = bind m (fun x => bind (f x) g) w.
Proof. unfold bind. destruct (m w) as [[a w']|]; reflexivity. Qed.

Lemma call_lfsr_255 w :
  call_lfsr 255 w
  = Some (Z.shiftr (lfsr_next (lfsr_reg w)) 8 mod 255,
          set_lfsr_reg (lfsr_next (lfsr_reg w)) w).
Proof. unfold call_lfsr. rewrite lfsr_result by lia. reflexivity. Qed.

Lemma call_lfsr_255_bind {A : Type} (k : Z -> M A) w :
  bind (call_lfsr 255) k w
  = k (Z.shiftr (lfsr_next (lfsr_reg w)) 8 mod 255)
      (set_lfsr_reg (lfsr_next (lfsr_reg w)) w).
Proof. unfold bind. rewrite call_lfsr_255. reflexivity. Qed.

(** The start of every pass through the loop of [commandmode]: decode,
    heartbeat, advance the generator, query the lock. *)
Lemma command_body_prefix fuel timer w c rest :
  script_iambic w = c :: rest ->
  command_body fuel timer w
  = (c' <- (if negb (flags w CONFLOCK) then lockable_commands fuel c else ret c);;
     '(c'', timer') <- anytime_commands fuel c'
                         (if negb (c =? 0) then wrap16 (YACKSECS DEFTIMEOUT)
                          else timer);;
     (if c'' =? TRUE then
        yacksave;; yackdelay (DAHLEN * 3);; yackstring txok
      else if negb (c'' =? 0) then yackerror
      else ret tt);;
     ret timer')
      (polled rest [EvIambic OFF; EvBeat; EvFlag CONFLOCK] w).
Proof.
  intros Hscript. destruct w as [r bi bt fl us sp ck si sb sk tr].
  cbn in Hscript. subst si.
  unfold command_body.
  cbn [bind ret emit yackiambic yackbeat yackflag
       trace script_iambic set_trace set_script_iambic hd tl flags].
  rewrite call_lfsr_255_bind.
  cbn [bind ret emit yackiambic yackbeat yackflag
       trace script_iambic set_trace set_script_iambic hd tl flags
       lfsr_reg set_lfsr_reg].
  rewrite <- !app_assoc. reflexivity.
Qed.

(** ** The claims about the dispatcher *)


(** C9: when the decoder hands over the character with code 1, the value
    of [TRUE], neither table matches, yet the test [c == TRUE] succeeds:
    the pass saves the configuration, delays, plays the acknowledgement
    "R" and sounds no error, although no command was carried out.  This
    holds with the configuration locked or unlocked. *)
Theorem command_true_char_acknowledged (fuel : nat) (timer : Z) (w : World)
    (rest : list Z)
    (Hs : script_iambic w = 1 :: rest) :
  TRUE = 1
  /\ txok = "R"%string
  /\ command_body fuel timer w
     = Some (wrap16 (YACKSECS DEFTIMEOUT),
             polled rest [EvIambic OFF; EvBeat; EvFlag CONFLOCK;
                          EvSave; EvDelay (DAHLEN * 3); EvString txok] w).
Proof.
  split; [reflexivity|]. split; [reflexivity|].
  rewrite (command_body_prefix _ _ _ _ _ Hs).
  destruct (flags w CONFLOCK); cbn; unfold polled; flat_world; reflexivity.
Qed.

(** ** Running the adjustment loops *)

Lemma calm_tl n button : calm (S n) button -> calm n (tl button).
Proof.
  intros H i Hi. destruct button as [|b button]; [destruct i; reflexivity|].
  exact (H (S i) ltac:(lia)).
Qed.

Lemma calm_hd n button : calm (S n) button -> hd false button = false.
Proof.
  intros H. destruct button as [|b button]; [reflexivity|].
  exact (H 0%nat ltac:(lia)).
Qed.

Lemma calm_le n m button : (m <= n)%nat -> calm n button -> calm m button.
Proof. intros Hle H i Hi. apply H. lia. Qed.

Lemma calm_skipn n m button : calm (n + m) button -> calm m (skipn n button).
Proof.
  revert button. induction n as [|n IH]; intros button H; [exact H|].
  destruct button as [|b button].
  - intros i _. destruct i; reflexivity.
  - cbn [skipn]. apply IH. exact (calm_tl _ _ H).
Qed.

Lemma pressed_at_skipn n button :
  pressed_at n button -> hd false (skipn n button) = true.
Proof.
  unfold pressed_at. revert button.
  induction n as [|n IH]; intros [|b button] H; cbn in *;
    try discriminate; auto.
Qed.

Lemma pitch_cycles_world_app cs1 cs2 w :
  pitch_cycles_world (cs1 ++ cs2) w
  = pitch_cycles_world cs2 (pitch_cycles_world cs1 w).
Proof. unfold pitch_cycles_world. apply fold_left_app. Qed.

Lemma pitch_cycles_world_trace cycles w :
  trace (pitch_cycles_world cycles w)
  = trace w ++ flat_map pitch_cycle_events cycles.
Proof.
  revert w. induction cycles as [|c cycles IH]; intros w.
  - cbn. rewrite app_nil_r. reflexivity.
  - cbn [pitch_cycles_world fold_left flat_map].
    fold (pitch_cycles_world cycles (pitch_cycle_world c w)).
    rewrite IH. cbn [pitch_cycle_world trace].
    rewrite <- app_assoc. reflexivity.
Qed.

Lemma pitch_cycles_world_keyinp cycles w rest :
  script_keyinp w = pitch_reads cycles ++ rest ->
  script_keyinp (pitch_cycles_world cycles w) = rest.
Proof.
  revert w. induction cycles as [|c cycles IH]; intros w H; [exact H|].
  cbn [pitch_cycles_world fold_left].
  fold (pitch_cycles_world cycles (pitch_cycle_world c w)).
  apply IH. cbn [pitch_cycle_world script_keyinp]. rewrite H. reflexivity.
Qed.

Lemma pitch_cycles_world_button cycles w :
  script_button (pitch_cycles_world cycles w)
  = skipn (List.length cycles) (script_button w).
Proof.
  revert w. induction cycles as [|c cycles IH]; intros w; [reflexivity|].
  cbn [pitch_cycles_world fold_left].
  fold (pitch_cycles_world cycles (pitch_cycle_world c w)).
  rewrite IH. cbn [pitch_cycle_world script_button List.length].
  destruct (script_button w); [rewrite skipn_nil|]; reflexivity.
Qed.

Lemma pitch_cycles_world_latch cycles w :
  cklatch w = false -> cklatch (pitch_cycles_world cycles w) = false.
Proof.
  revert w. induction cycles as [|c cycles IH]; intros w H; [exact H|].
  cbn [pitch_cycles_world fold_left].
  fold (pitch_cycles_world cycles (pitch_cycle_world c w)).
  apply IH. reflexivity.
Qed.

(** One cycle of [pitch] in which the command button is not pressed. *)
Lemma pitch_cycle_step fuel timer w c ks :
  timer <> 0 -> cklatch w = false -> hd false (script_button w) = false ->
  script_keyinp w = fst c :: snd c :: ks ->
  pitch_loop (S fuel) timer w
  = pitch_loop fuel
      (if contact_free c then wrap16 (timer - 1) else PITCHREPEAT)
      (pitch_cycle_world c w).
Proof.
  intros Ht Hck Hb Hk. destruct c as [a b].
  destruct w as [r bi bt fl us sp ck si sb sk tr].
  cbn in Hck, Hb, Hk. subst ck sk.
  cbn [pitch_loop]. destruct (Z.eqb_spec timer 0) as [|_]; [contradiction|].
  unfold contact_free, pitch_cycle_world, pitch_cycle_events.
  run. rewrite Hb. change (TRUE =? TRUE) with true. run.
  destruct (keyed a DITPIN); run; destruct (keyed b DAHPIN); run;
    cbn [app]; rewrite <- ?app_assoc; reflexivity.
Qed.

(** One cycle of [pitch] in which the command button is found pressed, or
    was latched before: the function returns after the tone. *)
Lemma pitch_cycle_interrupt fuel timer w :
  timer <> 0 -> cklatch w || hd false (script_button w) = true ->
  pitch_loop (S fuel) timer w
  = Some (tt, mkWorld (lfsr_reg w) (beacon_interval w) (beacon_timer w)
                (flags w) (user w) (wpm w) false (script_iambic w)
                (tl (script_button w)) (script_keyinp w)
                (trace w ++ [EvChar (ch "E"); EvCtrlKey TRUE])).
Proof.
  intros Ht Hb.
  destruct w as [r bi bt fl us sp ck si sb sk tr]. cbn in Hb.
  cbn [pitch_loop]. destruct (Z.eqb_spec timer 0) as [|_]; [contradiction|].
  run. rewrite Hb. change (TRUE =? TRUE) with true.
  rewrite <- ?app_assoc. reflexivity.
Qed.

(** A run of contact-free cycles counts the timer down. *)
Lemma pitch_quiet_run cycles : forall fuel timer w rest,
  Forall (fun c => contact_free c = true) cycles ->
  Z.of_nat (List.length cycles) <= timer < 65536 ->
  cklatch w = false -> calm (List.length cycles) (script_button w) ->
  script_keyinp w = pitch_reads cycles ++ rest ->
  pitch_loop (List.length cycles + fuel) timer w
  = pitch_loop fuel (timer - Z.of_nat (List.length cycles))
      (pitch_cycles_world cycles w).
Proof.
  induction cycles as [|c cycles IH]; intros fuel timer w rest Hq Ht Hck Hb Hk.
  - cbn. rewrite Z.sub_0_r. reflexivity.
  - inversion Hq as [|? ? Hc Hq']; subst.
    cbn [List.length] in *. cbn [Nat.add].
    rewrite (pitch_cycle_step _ _ _ c (pitch_reads cycles ++ rest));
      [|lia|exact Hck|exact (calm_hd _ _ Hb)|exact Hk].
    rewrite Hc. rewrite wrap16_small by lia.
    cbn [pitch_cycles_world fold_left].
    fold (pitch_cycles_world cycles (pitch_cycle_world c w)).
    rewrite (IH fuel (timer - 1) (pitch_cycle_world c w) rest);
      [f_equal; lia|exact Hq'|lia|reflexivity| |].
    + cbn [pitch_cycle_world script_button]. exact (calm_tl _ _ Hb).
    + cbn [pitch_cycle_world script_keyinp]. rewrite Hk. reflexivity.
Qed.

Lemma pitch_reads_app cs1 cs2 :
  pitch_reads (cs1 ++ cs2) = pitch_reads cs1 ++ pitch_reads cs2.
Proof. unfold pitch_reads. apply flat_map_app. Qed.

(** Bursts of contacts keep [pitch] going: after each of them the timer
    is back at [PITCHREPEAT]. *)
Lemma pitch_bursts_run bursts : forall fuel w rest,
  Forall (good_burst contact_free) bursts ->
  cklatch w = false ->
  calm (List.length (burst_cycles bursts)) (script_button w) ->
  script_keyinp w = pitch_reads (burst_cycles bursts) ++ rest ->
  pitch_loop (List.length (burst_cycles bursts) + fuel) PITCHREPEAT w
  = pitch_loop fuel PITCHREPEAT (pitch_cycles_world (burst_cycles bursts) w).
Proof.
  induction bursts as [|[qs c] bursts IH]; intros fuel w rest Hg Hck Hb Hk;
    [reflexivity|].
  inversion Hg as [|? ? [Hq [Hlen Hc]] Hg']; subst. cbn [fst snd] in *.
  cbn [burst_cycles flat_map fst snd] in *.
  fold (burst_cycles bursts) in *.
  rewrite <- !app_assoc in *. cbn [app] in *.
  rewrite !length_app in *. cbn [List.length] in *.
  rewrite !pitch_reads_app in Hk. rewrite <- app_assoc in Hk.
  set (n := List.length (burst_cycles bursts)) in *.
  replace (List.length qs + S n + fuel)%nat
    with (List.length qs + S (n + fuel))%nat by lia.
  rewrite (pitch_quiet_run qs _ _ w
             (pitch_reads (c :: burst_cycles bursts) ++ rest) Hq);
    unfold PITCHREPEAT;
    [|lia|exact Hck|apply (calm_le _ _ _ (Nat.le_add_r _ _) Hb)|exact Hk].
  set (w1 := pitch_cycles_world qs w).
  assert (Hk1 : script_keyinp w1
                = fst c :: snd c :: pitch_reads (burst_cycles bursts) ++ rest).
  { unfold w1. erewrite pitch_cycles_world_keyinp by exact Hk.
    destruct c; reflexivity. }
  assert (Hb1 : calm (S n) (script_button w1)).
  { unfold w1. rewrite pitch_cycles_world_button. apply calm_skipn. exact Hb. }
  rewrite (pitch_cycle_step _ _ w1 c
             (pitch_reads (burst_cycles bursts) ++ rest));
    [|lia|apply pitch_cycles_world_latch; exact Hck
     |exact (calm_hd _ _ Hb1)|exact Hk1].
  rewrite Hc. fold PITCHREPEAT.
  rewrite (IH fuel (pitch_cycle_world c w1) rest Hg');
    [|reflexivity
     |cbn [pitch_cycle_world script_button]; exact (calm_tl _ _ Hb1)
     |cbn [pitch_cycle_world script_keyinp]; rewrite Hk1; reflexivity].
  rewrite !pitch_cycles_world_app. reflexivity.
Qed.

(** [pitch] runs through bursts of contacts and returns right after the
    tenth contact-free cycle in a row. *)
Lemma pitch_returns_when_quiet bursts quiet fuel w rest :
  Forall (good_burst contact_free) bursts ->
  Forall (fun c => contact_free c = true) quiet ->
  List.length quiet = 10%nat ->
  cklatch w = false ->
  calm (List.length (burst_cycles bursts ++ quiet)) (script_button w) ->
  script_keyinp w = pitch_reads (burst_cycles bursts ++ quiet) ++ rest ->
  (List.length (burst_cycles bursts ++ quiet) <= fuel)%nat ->
  pitch fuel w
  = Some (tt, pitch_cycles_world (burst_cycles bursts ++ quiet) w).
Proof.
  intros Hg Hq Hlen Hck Hb Hk Hfuel.
  rewrite length_app in *. rewrite pitch_reads_app, <- app_assoc in Hk.
  set (n := List.length (burst_cycles bursts)) in *.
  unfold pitch.
  replace fuel with (n + (List.length quiet + (fuel - n - List.length quiet)))%nat
    by lia.
  rewrite (pitch_bursts_run bursts _ w (pitch_reads quiet ++ rest) Hg Hck);
    [|apply (calm_le _ _ _ (Nat.le_add_r _ _) Hb)|exact Hk].
  set (w1 := pitch_cycles_world (burst_cycles bursts) w).
  rewrite (pitch_quiet_run quiet _ _ w1 rest Hq).
  - rewrite Hlen. change (PITCHREPEAT - Z.of_nat 10) with 0.
    rewrite pitch_cycles_world_app. fold w1.
    destruct (fuel - n - 10)%nat; reflexivity.
  - rewrite Hlen. unfold PITCHREPEAT. lia.
  - apply pitch_cycles_world_latch. exact Hck.
  - unfold w1. rewrite pitch_cycles_world_button. apply calm_skipn. exact Hb.
  - unfold w1. erewrite pitch_cycles_world_keyinp by exact Hk. reflexivity.
Qed.

(** A press of the command button ends [pitch] at once, with the calls
    made so far standing. *)
Lemma pitch_returns_when_interrupted bursts quiet fuel w rest :
  Forall (good_burst contact_free) bursts ->
  Forall (fun c => contact_free c = true) quiet ->
  (List.length quiet < 10)%nat ->
  cklatch w = false ->
  calm (List.length (burst_cycles bursts ++ quiet)) (script_button w) ->
  pressed_at (List.length (burst_cycles bursts ++ quiet)) (script_button w) ->
  script_keyinp w = pitch_reads (burst_cycles bursts ++ quiet) ++ rest ->
  (List.length (burst_cycles bursts ++ quiet) < fuel)%nat ->
  exists w',
    pitch fuel w = Some (tt, w')
    /\ trace w'
       = trace w ++ flat_map pitch_cycle_events (burst_cycles bursts ++ quiet)
         ++ [EvChar (ch "E"); EvCtrlKey TRUE]
    /\ script_keyinp w' = rest.
Proof.
  intros Hg Hq Hlen Hck Hb Hp Hk Hfuel.
  set (cycles := burst_cycles bursts ++ quiet) in *.
  assert (Hlc : List.length cycles
                = (List.length (burst_cycles bursts) + List.length quiet)%nat)
    by (unfold cycles; apply length_app).
  assert (Hk' := Hk). unfold cycles in Hk'.
  rewrite pitch_reads_app, <- app_assoc in Hk'.
  set (n := List.length (burst_cycles bursts)) in *.
  unfold pitch.
  replace fuel
    with (n + (List.length quiet + S (fuel - n - List.length quiet - 1)))%nat
    by lia.
  rewrite (pitch_bursts_run bursts _ w (pitch_reads quiet ++ rest) Hg Hck);
    [|rewrite Hlc in Hb; apply (calm_le _ _ _ (Nat.le_add_r _ _) Hb)
     |exact Hk'].
  set (w1 := pitch_cycles_world (burst_cycles bursts) w).
  rewrite (pitch_quiet_run quiet _ _ w1 rest Hq);
    [|unfold PITCHREPEAT; lia
     |apply pitch_cycles_world_latch; exact Hck
     |unfold w1; rewrite pitch_cycles_world_button; apply calm_skipn;
      rewrite Hlc in Hb; exact Hb
     |unfold w1; erewrite pitch_cycles_world_keyinp by exact Hk'; reflexivity].
  unfold w1. rewrite <- pitch_cycles_world_app. fold cycles.
  rewrite pitch_cycle_interrupt.
  - eexists. split; [reflexivity|].
    cbn [trace script_keyinp]. rewrite pitch_cycles_world_trace.
    rewrite <- app_assoc. split; [reflexivity|].
    apply pitch_cycles_world_keyinp. exact Hk.
  - unfold PITCHREPEAT. lia.
  - rewrite pitch_cycles_world_button.
    rewrite (pressed_at_skipn _ _ Hp). apply orb_true_r.
Qed.

Lemma farns_reads_app cs1 cs2 :
  farns_reads (cs1 ++ cs2) = farns_reads cs1 ++ farns_reads cs2.
Proof. unfold farns_reads. apply flat_map_app. Qed.

Lemma farns_cycles_world_app cs1 cs2 w :
  farns_cycles_world (cs1 ++ cs2) w
  = farns_cycles_world cs2 (farns_cycles_world cs1 w).
Proof. unfold farns_cycles_world. apply fold_left_app. Qed.

Lemma farns_cycles_world_trace cycles w :
  trace (farns_cycles_world cycles w)
  = trace w ++ flat_map farns_cycle_events cycles.
Proof.
  revert w. induction cycles as [|c cycles IH]; intros w.
  - cbn. rewrite app_nil_r. reflexivity.
  - cbn [farns_cycles_world fold_left flat_map].
    fold (farns_cycles_world cycles (farns_cycle_world c w)).
    rewrite IH. cbn [farns_cycle_world trace].
    rewrite <- app_assoc. reflexivity.
Qed.

Lemma skipn_length_app {A : Type} (l1 l2 : list A) :
  skipn (List.length l1) (l1 ++ l2) = l2.
Proof. induction l1 as [|x l1 IH]; [reflexivity | exact IH]. Qed.

Lemma farns_cycles_world_keyinp cycles w rest :
  script_keyinp w = farns_reads cycles ++ rest ->
  script_keyinp (farns_cycles_world cycles w) = rest.
Proof.
  revert w. induction cycles as [|c cycles IH]; intros w H; [exact H|].
  cbn [farns_cycles_world fold_left].
  fold (farns_cycles_world cycles (farns_cycle_world c w)).
  apply IH. cbn [farns_cycle_world script_keyinp]. rewrite H.
  cbn [farns_reads flat_map]. rewrite <- app_assoc.
  apply skipn_length_app.
Qed.

Lemma farns_cycles_world_button cycles w :
  script_button (farns_cycles_world cycles w)
  = skipn (List.length cycles) (script_button w).
Proof.
  revert w. induction cycles as [|c cycles IH]; intros w; [reflexivity|].
  cbn [farns_cycles_world fold_left].
  fold (farns_cycles_world cycles (farns_cycle_world c w)).
  rewrite IH. cbn [farns_cycle_world script_button List.length].
  destruct (script_button w); [rewrite skipn_nil|]; reflexivity.
Qed.

Lemma farns_cycles_world_latch cycles w :
  cklatch w = false -> cklatch (farns_cycles_world cycles w) = false.
Proof.
  revert w. induction cycles as [|c cycles IH]; intros w H; [exact H|].
  cbn [farns_cycles_world fold_left].
  fold (farns_cycles_world cycles (farns_cycle_world c w)).
  apply IH. reflexivity.
Qed.

(** One cycle of [setfarns] in which the command button is not pressed. *)
Lemma farns_cycle_step fuel timer w c ks :
  0 <= timer < 10 -> cklatch w = false -> hd false (script_button w) = false ->
  script_keyinp w = farns_cycle_reads c ++ ks ->
  setfarns_loop (S fuel) timer w
  = setfarns_loop fuel (if contact_free c then timer + 1 else 0)
      (farns_cycle_world c w).
Proof.
  intros Ht Hck Hb Hk. destruct c as [a b].
  destruct w as [r bi bt fl us sp ck si sb sk tr].
  cbn in Hck, Hb, Hk. subst ck sk.
  cbn [setfarns_loop]. unfold FARNSREPEAT.
  destruct (Z.eqb_spec timer 10) as [|_]; [lia|]. cbn [negb].
  rewrite (wrap8_small (timer + 1)) by lia.
  unfold contact_free, farns_cycle_world, farns_cycle_events, farns_cycle_reads.
  cbn [fst snd].
  run. rewrite Hb. change (TRUE =? TRUE) with true. run.
  destruct (keyed a DITPIN) eqn:Ha; cbn [app List.length skipn]; run;
    rewrite Ha; run.
  - rewrite <- ?app_assoc. reflexivity.
  - rewrite bind_bind. run.
    destruct (keyed b DAHPIN); run; cbn [app]; rewrite <- ?app_assoc;
      reflexivity.
Qed.

(** One cycle of [setfarns] in which the command button is found pressed,
    or was latched before: the function returns before the pattern. *)
Lemma farns_cycle_interrupt fuel timer w :
  timer <> 10 -> cklatch w || hd false (script_button w) = true ->
  setfarns_loop (S fuel) timer w
  = Some (tt, mkWorld (lfsr_reg w) (beacon_interval w) (beacon_timer w)
                (flags w) (user w) (wpm w) false (script_iambic w)
                (tl (script_button w)) (script_keyinp w)
                (trace w ++ [EvCtrlKey TRUE])).
Proof.
  intros Ht Hb.
  destruct w as [r bi bt fl us sp ck si sb sk tr]. cbn in Hb.
  cbn [setfarns_loop]. unfold FARNSREPEAT.
  destruct (Z.eqb_spec timer 10) as [|_]; [contradiction|]. cbn [negb].
  run. rewrite Hb. change (TRUE =? TRUE) with true. reflexivity.
Qed.

(** The loop is left when the counter is found at [FARNSREPEAT]. *)
Lemma farns_loop_done fuel w : setfarns_loop fuel FARNSREPEAT w = Some (tt, w).
Proof. destruct fuel; reflexivity. Qed.

(** A run of contact-free cycles counts up. *)
Lemma farns_quiet_run cycles : forall fuel timer w rest,
  Forall (fun c => contact_free c = true) cycles ->
  0 <= timer -> timer + Z.of_nat (List.length cycles) <= 10 ->
  cklatch w = false -> calm (List.length cycles) (script_button w) ->
  script_keyinp w = farns_reads cycles ++ rest ->
  setfarns_loop (List.length cycles + fuel) timer w
  = setfarns_loop fuel (timer + Z.of_nat (List.length cycles))
      (farns_cycles_world cycles w).
Proof.
  induction cycles as [|c cycles IH];
    intros fuel timer w rest Hq Ht0 Ht Hck Hb Hk.
  - cbn. rewrite Z.add_0_r. reflexivity.
  - inversion Hq as [|? ? Hc Hq']; subst.
    cbn [List.length] in *. cbn [Nat.add].
    cbn [farns_reads flat_map] in Hk. rewrite <- app_assoc in Hk.
    fold (farns_reads cycles) in Hk.
    rewrite (farns_cycle_step _ _ _ c (farns_reads cycles ++ rest));
      [|lia|exact Hck|exact (calm_hd _ _ Hb)|exact Hk].
    rewrite Hc.
    cbn [farns_cycles_world fold_left].
    fold (farns_cycles_world cycles (farns_cycle_world c w)).
    rewrite (IH fuel (timer + 1) (farns_cycle_world c w) rest);
      [f_equal; lia|exact Hq'|lia|lia|reflexivity| |].
    + cbn [farns_cycle_world script_button]. exact (calm_tl _ _ Hb).
    + cbn [farns_cycle_world script_keyinp]. rewrite Hk.
      apply skipn_length_app.
Qed.

(** Bursts of contacts keep [setfarns] going: after each of them the
    counter is back at zero. *)
Lemma farns_bursts_run bursts : forall fuel w rest,
  Forall (good_burst contact_free) bursts ->
  cklatch w = false ->
  calm (List.length (burst_cycles bursts)) (script_button w) ->
  script_keyinp w = farns_reads (burst_cycles bursts) ++ rest ->
  setfarns_loop (List.length (burst_cycles bursts) + fuel) 0 w
  = setfarns_loop fuel 0 (farns_cycles_world (burst_cycles bursts) w).
Proof.
  induction bursts as [|[qs c] bursts IH]; intros fuel w rest Hg Hck Hb Hk;
    [reflexivity|].
  inversion Hg as [|? ? [Hq [Hlen Hc]] Hg']; subst. cbn [fst snd] in *.
  cbn [burst_cycles flat_map fst snd] in *.
  fold (burst_cycles bursts) in *.
  rewrite <- !app_assoc in *. cbn [app] in *.
  rewrite !length_app in *. cbn [List.length] in *.
  rewrite farns_reads_app in Hk.
  change (c :: burst_cycles bursts) with ([c] ++ burst_cycles bursts) in Hk.
  rewrite farns_reads_app in Hk. rewrite <- !app_assoc in Hk.
  set (n := List.length (burst_cycles bursts)) in *.
  replace (List.length qs + S n + fuel)%nat
    with (List.length qs + S (n + fuel))%nat by lia.
  rewrite (farns_quiet_run qs _ _ w
             (farns_reads [c] ++ farns_reads (burst_cycles bursts) ++ rest) Hq);
    [|lia|lia|exact Hck|apply (calm_le _ _ _ (Nat.le_add_r _ _) Hb)|exact Hk].
  set (w1 := farns_cycles_world qs w).
  assert (Hk1 : script_keyinp w1
                = farns_cycle_reads c
                  ++ farns_reads (burst_cycles bursts) ++ rest).
  { unfold w1. erewrite farns_cycles_world_keyinp by exact Hk.
    cbn [farns_reads flat_map]. rewrite app_nil_r. reflexivity. }
  assert (Hb1 : calm (S n) (script_button w1)).
  { unfold w1. rewrite farns_cycles_world_button. apply calm_skipn. exact Hb. }
  rewrite (farns_cycle_step _ _ w1 c
             (farns_reads (burst_cycles bursts) ++ rest));
    [|lia|apply farns_cycles_world_latch; exact Hck
     |exact (calm_hd _ _ Hb1)|exact Hk1].
  rewrite Hc.
  rewrite (IH fuel (farns_cycle_world c w1) rest Hg');
    [|reflexivity
     |cbn [farns_cycle_world script_button]; exact (calm_tl _ _ Hb1)
     |cbn [farns_cycle_world script_keyinp]; rewrite Hk1;
      apply skipn_length_app].
  rewrite !farns_cycles_world_app. reflexivity.
Qed.

(** [setfarns] runs through bursts of contacts and returns right after
    the tenth contact-free cycle in a row. *)
Lemma farns_returns_when_quiet bursts quiet fuel w rest :
  Forall (good_burst contact_free) bursts ->
  Forall (fun c => contact_free c = true) quiet ->
  List.length quiet = 10%nat ->
  cklatch w = false ->
  calm (List.length (burst_cycles bursts ++ quiet)) (script_button w) ->
  script_keyinp w = farns_reads (burst_cycles bursts ++ quiet) ++ rest ->
  (List.length (burst_cycles bursts ++ quiet) <= fuel)%nat ->
  setfarns fuel w
  = Some (tt, farns_cycles_world (burst_cycles bursts ++ quiet) w).
Proof.
  intros Hg Hq Hlen Hck Hb Hk Hfuel.
  rewrite length_app in *. rewrite farns_reads_app, <- app_assoc in Hk.
  set (n := List.length (burst_cycles bursts)) in *.
  unfold setfarns.
  replace fuel with (n + (List.length quiet + (fuel - n - List.length quiet)))%nat
    by lia.
  rewrite (farns_bursts_run bursts _ w (farns_reads quiet ++ rest) Hg Hck);
    [|apply (calm_le _ _ _ (Nat.le_add_r _ _) Hb)|exact Hk].
  set (w1 := farns_cycles_world (burst_cycles bursts) w).
  rewrite (farns_quiet_run quiet _ _ w1 rest Hq).
  - rewrite Hlen. change (0 + Z.of_nat 10) with FARNSREPEAT.
    rewrite farns_cycles_world_app. fold w1. apply farns_loop_done.
  - lia.
  - lia.
  - apply farns_cycles_world_latch. exact Hck.
  - unfold w1. rewrite farns_cycles_world_button. apply calm_skipn. exact Hb.
  - unfold w1. erewrite farns_cycles_world_keyinp by exact Hk. reflexivity.
Qed.

(** A press of the command button ends [setfarns] at once, with the calls
    made so far standing. *)
Lemma farns_returns_when_interrupted bursts quiet fuel w rest :
  Forall (good_burst contact_free) bursts ->
  Forall (fun c => contact_free c = true) quiet ->
  (List.length quiet < 10)%nat ->
  cklatch w = false ->
  calm (List.length (burst_cycles bursts ++ quiet)) (script_button w) ->
  pressed_at (List.length (burst_cycles bursts ++ quiet)) (script_button w) ->
  script_keyinp w = farns_reads (burst_cycles bursts ++ quiet) ++ rest ->
  (List.length (burst_cycles bursts ++ quiet) < fuel)%nat ->
  exists w',
    setfarns fuel w = Some (tt, w')
    /\ trace w'
       = trace w ++ flat_map farns_cycle_events (burst_cycles bursts ++ quiet)
         ++ [EvCtrlKey TRUE]
    /\ script_keyinp w' = rest.
Proof.
  intros Hg Hq Hlen Hck Hb Hp Hk Hfuel.
  set (cycles := burst_cycles bursts ++ quiet) in *.
  assert (Hlc : List.length cycles
                = (List.length (burst_cycles bursts) + List.length quiet)%nat)
    by (unfold cycles; apply length_app).
  assert (Hk' := Hk). unfold cycles in Hk'.
  rewrite farns_reads_app, <- app_assoc in Hk'.
  set (n := List.length (burst_cycles bursts)) in *.
  unfold setfarns.
  replace fuel
    with (n + (List.length quiet + S (fuel - n - List.length quiet - 1)))%nat
    by lia.
  rewrite (farns_bursts_run bursts _ w (farns_reads quiet ++ rest) Hg Hck);
    [|rewrite Hlc in Hb; apply (calm_le _ _ _ (Nat.le_add_r _ _) Hb)
     |exact Hk'].
  set (w1 := farns_cycles_world (burst_cycles bursts) w).
  rewrite (farns_quiet_run quiet _ _ w1 rest Hq);
    [|lia|lia
     |apply farns_cycles_world_latch; exact Hck
     |unfold w1; rewrite farns_cycles_world_button; apply calm_skipn;
      rewrite Hlc in Hb; exact Hb
     |unfold w1; erewrite farns_cycles_world_keyinp by exact Hk'; reflexivity].
  unfold w1. rewrite <- farns_cycles_world_app. fold cycles.
  rewrite farns_cycle_interrupt.
  - eexists. split; [reflexivity|].
    cbn [trace script_keyinp]. rewrite farns_cycles_world_trace.
    rewrite <- app_assoc. split; [reflexivity|].
    apply farns_cycles_world_keyinp. exact Hk.
  - lia.
  - rewrite farns_cycles_world_button.
    rewrite (pressed_at_skipn _ _ Hp). apply orb_true_r.
Qed.

(** ** The claim about the adjustment loops *)

(** C7, as amended: in [pitch] a DIT contact calls [yackpitch(DOWN)]
    (the increase, by the comments of the source) and a DAH contact calls
    [yackpitch(UP)]; in [setfarns] a DIT contact calls
    [yackspeed(DOWN,FARNSWORTH)] and a DAH contact calls
    [yackspeed(UP,FARNSWORTH)] when the DIT test of that cycle found no
    contact.  Each contact puts the counter back, so that ten further
    contact-free cycles are needed: a loop that has gone through bursts of
    fewer than ten contact-free cycles ending in a contact returns right
    after the tenth contact-free cycle in a row, and returns at once when
    the command button is found pressed, the calls already made
    standing. *)
Theorem adjustment_loops_run (bursts : list Burst) (quiet short : list Cycle)
    (fuel : nat) (wp wf ip jf : World) (rp rf sp sf : list Z)
    (Hbursts : Forall (good_burst contact_free) bursts)
    (Hquiet : Forall (fun c => contact_free c = true) quiet)
    (Hten : List.length quiet = 10%nat)
    (Hshort : Forall (fun c => contact_free c = true) short)
    (Hless : (List.length short < 10)%nat)
    (Hfuel : (List.length (burst_cycles bursts) + 10 < fuel)%nat)
    (Hplatch : cklatch wp = false)
    (Hpcalm : calm (List.length (burst_cycles bursts ++ quiet)) (script_button wp))
    (Hpkeys : script_keyinp wp = pitch_reads (burst_cycles bursts ++ quiet) ++ rp)
    (Hflatch : cklatch wf = false)
    (Hfcalm : calm (List.length (burst_cycles bursts ++ quiet)) (script_button wf))
    (Hfkeys : script_keyinp wf = farns_reads (burst_cycles bursts ++ quiet) ++ rf)
    (Hilatch : cklatch ip = false)
    (Hicalm : calm (List.length (burst_cycles bursts ++ short)) (script_button ip))
    (Hipress : pressed_at (List.length (burst_cycles bursts ++ short))
                 (script_button ip))
    (Hikeys : script_keyinp ip = pitch_reads (burst_cycles bursts ++ short) ++ sp)
    (Hjlatch : cklatch jf = false)
    (Hjcalm : calm (List.length (burst_cycles bursts ++ short)) (script_button jf))
    (Hjpress : pressed_at (List.length (burst_cycles bursts ++ short))
                 (script_button jf))
    (Hjkeys : script_keyinp jf = farns_reads (burst_cycles bursts ++ short) ++ sf) :
  (forall c : Cycle,
      (keyed (fst c) DITPIN = true ->
       In (EvPitch DOWN) (pitch_cycle_events c)
       /\ farns_cycle_events c
          = [EvCtrlKey TRUE; EvPlay DIT; EvDelay IEGLEN; EvPlay DAH;
             EvDelay ICGLEN; EvFarns; EvSpeed DOWN FARNSWORTH])
      /\ (keyed (snd c) DAHPIN = true ->
          In (EvPitch UP) (pitch_cycle_events c)
          /\ (keyed (fst c) DITPIN = false ->
              farns_cycle_events c
              = [EvCtrlKey TRUE; EvPlay DIT; EvDelay IEGLEN; EvPlay DAH;
                 EvDelay ICGLEN; EvFarns; EvSpeed UP FARNSWORTH])))
  /\ (exists w', pitch fuel wp = Some (tt, w')
                 /\ trace w'
                    = trace wp
                      ++ flat_map pitch_cycle_events (burst_cycles bursts ++ quiet)
                 /\ script_keyinp w' = rp)
  /\ (exists w', setfarns fuel wf = Some (tt, w')
                 /\ trace w'
                    = trace wf
                      ++ flat_map farns_cycle_events (burst_cycles bursts ++ quiet)
                 /\ script_keyinp w' = rf)
  /\ (exists w', pitch fuel ip = Some (tt, w')
                 /\ trace w'
                    = trace ip
                      ++ flat_map pitch_cycle_events (burst_cycles bursts ++ short)
                      ++ [EvChar (ch "E"); EvCtrlKey TRUE]
                 /\ script_keyinp w' = sp)
  /\ (exists w', setfarns fuel jf = Some (tt, w')
                 /\ trace w'
                    = trace jf
                      ++ flat_map farns_cycle_events (burst_cycles bursts ++ short)
                      ++ [EvCtrlKey TRUE]
                 /\ script_keyinp w' = sf).
Proof.
  assert (Hlq : List.length (burst_cycles bursts ++ quiet)
                = (List.length (burst_cycles bursts) + 10)%nat)
    by (rewrite length_app, Hten; reflexivity).
  assert (Hls : (List.length (burst_cycles bursts ++ short)
                 < List.length (burst_cycles bursts) + 10)%nat)
    by (rewrite length_app; lia).
  split; [|split; [|split; [|split]]].
  - intros [a b]. unfold pitch_cycle_events, farns_cycle_events. cbn [fst snd].
    split.
    + intros Ha. rewrite Ha. split; [|reflexivity].
      cbn. right. right. left. reflexivity.
    + intros Hb. rewrite Hb. split.
      * apply in_or_app. right. apply in_or_app. right. left. reflexivity.
      * intros Ha. rewrite Ha. reflexivity.
  - exists (pitch_cycles_world (burst_cycles bursts ++ quiet) wp).
    split; [|split].
    + apply (pitch_returns_when_quiet bursts quiet fuel wp rp); auto. lia.
    + apply pitch_cycles_world_trace.
    + apply pitch_cycles_world_keyinp. exact Hpkeys.
  - exists (farns_cycles_world (burst_cycles bursts ++ quiet) wf).
    split; [|split].
    + apply (farns_returns_when_quiet bursts quiet fuel wf rf); auto. lia.
    + apply farns_cycles_world_trace.
    + apply farns_cycles_world_keyinp. exact Hfkeys.
  - apply pitch_returns_when_interrupted; auto. lia.
  - apply farns_returns_when_interrupted; auto. lia.
Qed.

(** ** Running the beacon *)

(** A call that finds the one-second counter running. *)
Lemma beacon_play_counts fuel w :
  loaded_interval w <> 0 -> beacon_timer w <> 0 ->
  beacon fuel PLAY w
  = Some (tt, beacon_world (loaded_interval w) (wrap16 (beacon_timer w - 1))
                (load_events w ++ power_events) w).
Proof.
  intros Hi Ht. unfold loaded_interval, load_events, power_events in *.
  destruct w as [r bi bt fl us sp ck si sb sk tr].
  cbn [beacon_interval beacon_timer user] in *.
  unfold beacon, beacon_world. run.
  destruct (Z.eqb_spec bi 65000) as [Hbi|Hbi]; run.
  - destruct (Z.eqb_spec (wrap16 (us 1)) 0) as [|_]; [contradiction|].
    destruct POWERSAVE; run;
      (destruct (Z.eqb_spec bt 0) as [|_]; [contradiction|]); run;
      same_world.
  - destruct (Z.eqb_spec bi 0) as [|_]; [contradiction|].
    destruct POWERSAVE; run;
      (destruct (Z.eqb_spec bt 0) as [|_]; [contradiction|]); run;
      same_world.
Qed.

(** A call that finds the one-second counter expired, the interval not
    yet run down. *)
Lemma beacon_play_expires fuel w :
  loaded_interval w <> 0 -> beacon_timer w = 0 ->
  wrap16 (loaded_interval w - 1) <> 0 ->
  beacon fuel PLAY w
  = Some (tt, beacon_world (wrap16 (loaded_interval w - 1))
                (wrap16 (YACKSECS 1))
                (load_events w ++ power_events) w).
Proof.
  intros Hi Ht Hn. unfold loaded_interval, load_events, power_events in *.
  destruct w as [r bi bt fl us sp ck si sb sk tr].
  cbn [beacon_interval beacon_timer user] in *. subst bt.
  unfold beacon, beacon_world. run.
  destruct (Z.eqb_spec bi 65000) as [Hbi|Hbi]; run.
  - destruct (Z.eqb_spec (wrap16 (us 1)) 0) as [|_]; [contradiction|].
    destruct POWERSAVE; run;
      (destruct (Z.eqb_spec (wrap16 (wrap16 (us 1) - 1)) 0) as [|_];
       [contradiction|]); run;
      same_world.
  - destruct (Z.eqb_spec bi 0) as [|_]; [contradiction|].
    destruct POWERSAVE; run;
      (destruct (Z.eqb_spec (wrap16 (bi - 1)) 0) as [|_]; [contradiction|]);
      same_world.
Qed.

(** A call that finds the one-second counter expired and brings the
    interval to zero: the interval is read back and message 4 is played. *)
Lemma beacon_play_fires fuel w :
  loaded_interval w <> 0 -> beacon_timer w = 0 ->
  wrap16 (loaded_interval w - 1) = 0 ->
  beacon fuel PLAY w
  = Some (tt, beacon_world (wrap16 (user w 1)) (wrap16 (YACKSECS 1))
                (load_events w ++ power_events
                 ++ [EvUser READ 1 0; EvMessage PLAY 4]) w).
Proof.
  intros Hi Ht Hn. unfold loaded_interval, load_events, power_events in *.
  destruct w as [r bi bt fl us sp ck si sb sk tr].
  cbn [beacon_interval beacon_timer user] in *. subst bt.
  unfold beacon, beacon_world. run.
  destruct (Z.eqb_spec bi 65000) as [Hbi|Hbi]; run.
  - destruct (Z.eqb_spec (wrap16 (us 1)) 0) as [|_]; [contradiction|].
    destruct POWERSAVE; run; rewrite Hn; run;
      same_world.
  - destruct (Z.eqb_spec bi 0) as [|_]; [contradiction|].
    destruct POWERSAVE; run; rewrite Hn; run;
      same_world.
Qed.

Lemma beacon_world_twice i1 t1 e1 i2 t2 e2 w :
  beacon_world i2 t2 e2 (beacon_world i1 t1 e1 w)
  = beacon_world i2 t2 (e1 ++ e2) w.
Proof. unfold beacon_world. cbn. rewrite <- app_assoc. reflexivity. Qed.

Lemma concat_repeat_add {A : Type} (l : list A) a b :
  concat (repeat l (a + b)) = concat (repeat l a) ++ concat (repeat l b).
Proof. rewrite repeat_app, concat_app. reflexivity. Qed.

Lemma beacon_ticks_add a : forall b w ka wa kb wb,
  beacon_ticks a w = Some (ka, wa) -> beacon_ticks b wa = Some (kb, wb) ->
  beacon_ticks (a + b) w = Some ((ka + kb)%nat, wb).
Proof.
  induction a as [|a IH]; intros b w ka wa kb wb Ha Hb.
  - cbn in Ha. injection Ha as <- <-. exact Hb.
  - cbn [Nat.add beacon_ticks] in *. unfold bind in *.
    destruct (beacon 0 PLAY w) as [[[] w1]|]; [|discriminate].
    destruct (beacon_ticks a w1) as [[k1 w2]|] eqn:Ha1; [|discriminate].
    rewrite (IH b w1 k1 w2 kb wb Ha1).
    + unfold ret in *. injection Ha as <- <-.
      destruct (tick_expires w); reflexivity.
    + unfold ret in Ha. injection Ha as _ <-. exact Hb.
Qed.

Lemma beacon_ticks_one w w' :
  beacon 0 PLAY w = Some (tt, w') ->
  beacon_ticks 1 w = Some ((if tick_expires w then 1 else 0)%nat, w').
Proof.
  intros H. cbn [beacon_ticks]. unfold bind. rewrite H. unfold ret.
  destruct (tick_expires w); reflexivity.
Qed.

(** The one-second counter runs down without an expiration and without
    playback. *)
Lemma beacon_countdown n : forall w,
  beacon_interval w <> 65000 -> beacon_interval w <> 0 ->
  beacon_timer w = Z.of_nat n -> Z.of_nat n < 65536 ->
  beacon_ticks n w
  = Some (0%nat, beacon_world (beacon_interval w) 0
                   (concat (repeat power_events n)) w).
Proof.
  induction n as [|n IH]; intros w Hl Hz Ht Hn.
  - change (Z.of_nat 0) with 0 in Ht.
    cbn. unfold ret, beacon_world. rewrite app_nil_r, <- Ht.
    destruct w; reflexivity.
  - assert (Hli : loaded_interval w = beacon_interval w).
    { unfold loaded_interval.
      destruct (Z.eqb_spec (beacon_interval w) 65000); [contradiction|reflexivity]. }
    assert (Hle : load_events w = []).
    { unfold load_events.
      destruct (Z.eqb_spec (beacon_interval w) 65000); [contradiction|reflexivity]. }
    change (S n) with (1 + n)%nat.
    pose proof (beacon_play_counts 0 w) as Htick.
    rewrite Hli, Hle, Ht in Htick. cbn [app] in Htick.
    rewrite Nat2Z.inj_succ in Htick.
    replace (Z.succ (Z.of_nat n) - 1) with (Z.of_nat n) in Htick by lia.
    rewrite wrap16_small in Htick by lia.
    specialize (Htick Hz ltac:(lia)).
    rewrite (beacon_ticks_add 1 n w _ _ 0%nat _ (beacon_ticks_one _ _ Htick)
               (IH (beacon_world (beacon_interval w) (Z.of_nat n)
                      power_events w) Hl Hz eq_refl ltac:(lia))).
    f_equal. f_equal.
    + unfold tick_expires. rewrite Ht, Nat2Z.inj_succ.
      destruct (Z.eqb_spec (Z.succ (Z.of_nat n)) 0); [lia|].
      rewrite andb_false_r. reflexivity.
    + cbn [beacon_world beacon_interval]. rewrite beacon_world_twice.
      cbn [repeat concat Nat.add]. reflexivity.
Qed.

Lemma loaded_interval_plain w :
  beacon_interval w <> 65000 -> loaded_interval w = beacon_interval w.
Proof.
  intros H. unfold loaded_interval.
  destruct (Z.eqb_spec (beacon_interval w) 65000); [contradiction|reflexivity].
Qed.

Lemma load_events_plain w : beacon_interval w <> 65000 -> load_events w = [].
Proof.
  intros H. unfold load_events.
  destruct (Z.eqb_spec (beacon_interval w) 65000); [contradiction|reflexivity].
Qed.

(** With the interval at 1 and the one-second counter just restarted,
    the counter runs down to the next expiration. *)
Lemma beacon_last_second sn w :
  beacon_interval w = 1 -> beacon_timer w = Z.of_nat sn -> Z.of_nat sn < 65536 ->
  beacon_ticks sn w
  = Some (0%nat, beacon_world 1 0 (concat (repeat power_events sn)) w).
Proof.
  intros Hi Ht Hs. rewrite beacon_countdown; rewrite ?Hi; auto; lia.
Qed.

(** With the interval loaded as 2, the counter runs down, expires once
    and runs down again. *)
Lemma beacon_run_loaded tn sn w :
  beacon_interval w = 2 -> beacon_timer w = Z.of_nat tn -> Z.of_nat tn < 65536 ->
  wrap16 (YACKSECS 1) = Z.of_nat sn ->
  beacon_ticks (tn + (1 + sn)) w
  = Some (1%nat, beacon_world 1 0
                   (concat (repeat power_events (tn + (1 + sn)))) w).
Proof.
  intros Hi Ht Htn Hs.
  pose proof (wrap16_range (YACKSECS 1)) as Hsr.
  pose proof (beacon_countdown tn w ltac:(lia) ltac:(lia) Ht Htn) as Ha.
  rewrite Hi in Ha.
  set (wa := beacon_world 2 0 (concat (repeat power_events tn)) w) in *.
  pose proof (beacon_play_expires 0 wa) as Hb.
  rewrite (loaded_interval_plain wa), (load_events_plain wa) in Hb
    by (cbn; lia).
  cbn [wa beacon_world beacon_interval beacon_timer] in Hb.
  change (wrap16 (2 - 1)) with 1 in Hb.
  specialize (Hb ltac:(lia) eq_refl ltac:(lia)).
  fold (beacon_world 2 0 (concat (repeat power_events tn)) w) in Hb. fold wa in Hb.
  cbn [app] in Hb.
  set (wb := beacon_world 1 (wrap16 (YACKSECS 1)) power_events wa) in *.
  pose proof (beacon_last_second sn wb eq_refl Hs ltac:(lia)) as Hc.
  rewrite (beacon_ticks_add tn (1 + sn) w 0%nat wa 1%nat _ Ha
             (beacon_ticks_add 1 sn wa _ wb 0%nat _
                (beacon_ticks_one _ _ Hb) Hc)).
  - unfold wb, wa. rewrite !beacon_world_twice.
    rewrite !concat_repeat_add. cbn [repeat concat]. rewrite app_nil_r.
    reflexivity.
Qed.

(** From the stored interval 2, the ticks up to the second expiration:
    one expiration among them and no playback. *)
Lemma beacon_run_to_second_expiration w :
  user w 1 = 2 ->
  beacon_interval w = 65000 \/ beacon_interval w = 2 ->
  0 <= beacon_timer w < 65536 ->
  beacon_ticks (Z.to_nat (beacon_timer w + wrap16 (YACKSECS 1) + 1)) w
  = Some (1%nat,
          beacon_world 1 0
            (load_events w
             ++ concat (repeat power_events
                          (Z.to_nat (beacon_timer w + wrap16 (YACKSECS 1) + 1))))
            w).
Proof.
  intros Hu Hi Ht.
  pose proof (wrap16_range (YACKSECS 1)) as Hsr.
  set (sn := Z.to_nat (wrap16 (YACKSECS 1))).
  set (tn := Z.to_nat (beacon_timer w)).
  assert (Hs : wrap16 (YACKSECS 1) = Z.of_nat sn) by (unfold sn; lia).
  assert (Htn : beacon_timer w = Z.of_nat tn) by (unfold tn; lia).
  replace (Z.to_nat (beacon_timer w + wrap16 (YACKSECS 1) + 1))
    with (tn + (1 + sn))%nat by lia.
  destruct Hi as [Hi|Hi].
  - assert (Hli : loaded_interval w = 2).
    { unfold loaded_interval. rewrite Hi, Hu. reflexivity. }
    assert (Hle : load_events w = [EvUser READ 1 0]).
    { unfold load_events. rewrite Hi. reflexivity. }
    rewrite Hle.
    destruct tn as [|tn'] eqn:Etn.
    + pose proof (beacon_play_expires 0 w) as Hb.
      rewrite Hli, Hle in Hb. change (wrap16 (2 - 1)) with 1 in Hb.
      specialize (Hb ltac:(lia) ltac:(lia) ltac:(lia)).
      set (wb := beacon_world 1 (wrap16 (YACKSECS 1))
                   ([EvUser READ 1 0] ++ power_events) w) in *.
      pose proof (beacon_last_second sn wb eq_refl Hs ltac:(lia)) as Hc.
      change (0 + (1 + sn))%nat with (1 + sn)%nat.
      rewrite (beacon_ticks_add 1 sn w _ wb 0%nat _ (beacon_ticks_one _ _ Hb) Hc).
      unfold tick_expires. rewrite Hli, Htn. cbn [Z.of_nat Z.eqb negb andb].
      unfold wb. rewrite beacon_world_twice.
      rewrite concat_repeat_add.
      cbn [repeat concat]. rewrite app_nil_r, <- !app_assoc. reflexivity.
    + pose proof (beacon_play_counts 0 w) as Hb.
      rewrite Hli, Hle, Htn in Hb.
      rewrite Nat2Z.inj_succ in Hb.
      replace (Z.succ (Z.of_nat tn') - 1) with (Z.of_nat tn') in Hb by lia.
      rewrite wrap16_small in Hb by lia.
      specialize (Hb ltac:(lia) ltac:(lia)).
      set (wb := beacon_world 2 (Z.of_nat tn')
                   ([EvUser READ 1 0] ++ power_events) w) in *.
      pose proof (beacon_run_loaded tn' sn wb eq_refl eq_refl ltac:(lia) Hs)
        as Hc.
      change (S tn' + (1 + sn))%nat with (1 + (tn' + (1 + sn)))%nat.
      rewrite (beacon_ticks_add 1 _ w _ wb 1%nat _ (beacon_ticks_one _ _ Hb) Hc).
      unfold tick_expires. rewrite Htn, Nat2Z.inj_succ.
      destruct (Z.eqb_spec (Z.succ (Z.of_nat tn')) 0); [lia|].
      rewrite andb_false_r.
      unfold wb. rewrite beacon_world_twice.
      rewrite (concat_repeat_add _ 1). cbn [repeat concat].
      rewrite app_nil_r, <- !app_assoc. reflexivity.
  - rewrite load_events_plain by lia. cbn [app].
    apply beacon_run_loaded; auto. lia.
Qed.


(** ** Running the beacon record mode *)

Lemma recorded_twice i1 t1 r1 e1 i2 t2 r2 e2 w :
  recorded i2 t2 r2 e2 (recorded i1 t1 r1 e1 w)
  = recorded i2 t2 r2 (e1 ++ e2) w.
Proof. unfold recorded. cbn. rewrite <- app_assoc. reflexivity. Qed.

(** A pass of the record loop that decodes a digit. *)
Lemma record_digit_pass fuel w d rest :
  script_iambic w = d :: rest -> is_digit d = true ->
  wrap16 (beacon_timer w - 1) <> 0 ->
  beacon_record_loop (S fuel) w
  = beacon_record_loop fuel
      (recorded (wrap16 (wrap16 (beacon_interval w * 10) + (d - ch "0")))
         (wrap16 (YACKSECS DEFTIMEOUT)) rest [EvIambic FALSE; EvBeat] w).
Proof.
  intros Hs Hd Ht. destruct w as [r bi bt fl us sp ck si sb sk tr].
  cbn [script_iambic beacon_timer beacon_interval] in *. subst si.
  cbn [beacon_record_loop]. run.
  destruct (Z.eqb_spec (wrap16 (bt - 1)) 0) as [|_]; [contradiction|].
  run. unfold is_digit in Hd. rewrite Hd. run.
  unfold recorded. cbn [lfsr_reg flags user wpm cklatch script_button
                        script_keyinp trace].
  rewrite <- ?app_assoc. reflexivity.
Qed.

(** The record loop runs the timer out when nothing is keyed. *)
Lemma record_idle m : forall fuel w,
  script_iambic w = [] -> wrap16 (beacon_timer w - 1) = Z.of_nat m ->
  (m <= fuel)%nat ->
  beacon_record_loop fuel w
  = Some (tt, recorded (beacon_interval w) 0 [] (record_polls m) w).
Proof.
  induction m as [|m IH]; intros fuel w Hs Ht Hf;
    destruct w as [r bi bt fl us sp ck si sb sk tr];
    cbn [script_iambic beacon_timer beacon_interval] in *; subst si.
  - destruct fuel; cbn [beacon_record_loop]; run; rewrite Ht;
      cbn [Z.of_nat Z.eqb]; unfold ret, recorded, record_polls;
      cbn; rewrite app_nil_r; reflexivity.
  - destruct fuel as [|fuel]; [lia|].
    cbn [beacon_record_loop]. run. rewrite Ht.
    destruct (Z.eqb_spec (Z.of_nat (S m)) 0) as [|_]; [lia|].
    run. change (0 >=? ch "0") with false. cbn [andb]. run.
    pose proof (wrap16_range (bt - 1)) as Hr.
    rewrite IH; [|reflexivity| |lia].
    + unfold recorded, record_polls.
      cbn [lfsr_reg beacon_interval flags user wpm cklatch script_button
           script_keyinp trace repeat concat].
      rewrite <- ?app_assoc. reflexivity.
    + cbn [beacon_timer]. rewrite Nat2Z.inj_succ.
      replace (Z.succ (Z.of_nat m) - 1) with (Z.of_nat m) by lia.
      apply wrap16_small. lia.
Qed.

(** The record loop on a run of digits, one decoded at every pass. *)
Lemma record_digits ds : forall fuel w,
  Forall (fun d => is_digit d = true) ds ->
  script_iambic w = ds ->
  beacon_timer w = wrap16 (YACKSECS DEFTIMEOUT) ->
  wrap16 (wrap16 (YACKSECS DEFTIMEOUT) - 1) <> 0 ->
  beacon_record_loop (List.length ds + fuel) w
  = beacon_record_loop fuel
      (recorded
         (fold_left (fun acc d => wrap16 (wrap16 (acc * 10) + (d - ch "0")))
            ds (beacon_interval w))
         (wrap16 (YACKSECS DEFTIMEOUT)) []
         (record_polls (List.length ds)) w).
Proof.
  induction ds as [|d ds IH]; intros fuel w Hd Hs Ht HT.
  - cbn [List.length Nat.add fold_left]. f_equal.
    destruct w. cbn in *. subst. unfold recorded, record_polls. cbn.
    rewrite app_nil_r. reflexivity.
  - inversion Hd as [|? ? Hd1 Hd2]; subst.
    cbn [List.length Nat.add fold_left].
    rewrite (record_digit_pass _ w d ds Hs Hd1) by (rewrite Ht; exact HT).
    rewrite IH; [|exact Hd2|reflexivity|reflexivity|exact HT].
    rewrite recorded_twice. reflexivity.
Qed.

Lemma accumulate_range ds : 0 <= accumulate ds < 65536.
Proof.
  unfold accumulate. destruct ds as [|d ds _] using rev_ind; [cbn; lia|].
  rewrite fold_left_app. cbn [fold_left]. apply wrap16_range.
Qed.

(** The record loop on a run of digits followed by silence. *)
Lemma record_run ds fuel w :
  Forall (fun d => is_digit d = true) ds ->
  script_iambic w = ds -> beacon_interval w = 0 ->
  beacon_timer w = wrap16 (YACKSECS DEFTIMEOUT) ->
  wrap16 (wrap16 (YACKSECS DEFTIMEOUT) - 1) <> 0 ->
  (List.length ds + Z.to_nat (wrap16 (wrap16 (YACKSECS DEFTIMEOUT) - 1))
   <= fuel)%nat ->
  beacon_record_loop fuel w
  = Some (tt, recorded (accumulate ds) 0 []
                (record_polls
                   (List.length ds
                    + Z.to_nat (wrap16 (wrap16 (YACKSECS DEFTIMEOUT) - 1))))
                w).
Proof.
  intros Hd Hs Hi Ht HT Hfuel.
  pose proof (wrap16_range (wrap16 (YACKSECS DEFTIMEOUT) - 1)) as Hr.
  set (m := Z.to_nat (wrap16 (wrap16 (YACKSECS DEFTIMEOUT) - 1))) in *.
  replace fuel with (List.length ds + (fuel - List.length ds))%nat by lia.
  rewrite (record_digits ds _ w Hd Hs Ht HT).
  rewrite (record_idle m); [|reflexivity|cbn [recorded beacon_timer]; lia|lia].
  rewrite recorded_twice. unfold record_polls. rewrite concat_repeat_add.
  cbn [recorded beacon_interval]. rewrite Hi. reflexivity.
Qed.

(** The beacon record mode on a run of digits followed by silence: the
    accumulator holds the digits modulo 2^16, and that value decides
    between storing and the error indication. *)
Lemma beacon_record_digits ds fuel w :
  Forall (fun d => is_digit d = true) ds ->
  script_iambic w = ds ->
  wrap16 (wrap16 (YACKSECS DEFTIMEOUT) - 1) <> 0 ->
  (List.length ds + Z.to_nat (wrap16 (wrap16 (YACKSECS DEFTIMEOUT) - 1))
   <= fuel)%nat ->
  exists w',
    beacon fuel RECORD w = Some (tt, w')
    /\ beacon_interval w' = accumulate ds
    /\ trace w'
       = trace w ++ load_events w ++ [EvChar (ch "N")]
         ++ record_polls
              (List.length ds
               + Z.to_nat (wrap16 (wrap16 (YACKSECS DEFTIMEOUT) - 1)))
         ++ (if accumulate ds <=? 9999
             then [EvUser WRITE 1 (accumulate ds); EvNumber (accumulate ds)]
             else [EvError])
    /\ user w' 1 = (if accumulate ds <=? 9999 then accumulate ds else user w 1).
Proof.
  intros Hd Hs HT Hfuel.
  pose proof (accumulate_range ds) as Hacc.
  set (m := Z.to_nat (wrap16 (wrap16 (YACKSECS DEFTIMEOUT) - 1))) in *.
  destruct w as [r bi bt fl us sp ck si sb sk tr].
  cbn [script_iambic] in Hs. subst si.
  unfold beacon, load_events. cbn [beacon_interval trace user].
  run.
  assert (Hge : (accumulate ds >=? 0) = true)
    by (destruct (Z.geb_spec (accumulate ds) 0); [reflexivity|lia]).
  destruct (Z.eqb_spec bi 65000) as [Hbi|Hbi]; run;
    repeat (rewrite bind_bind; run);
    unfold bind at 1;
    (rewrite (record_run ds fuel); [|exact Hd|reflexivity..|exact HT|exact Hfuel]);
    fold m; unfold recorded; run; repeat (rewrite bind_bind; run);
    rewrite Hge; cbn [andb];
    destruct (Z.leb_spec (accumulate ds) 9999); run;
    repeat (rewrite bind_bind; run);
    eexists; (split; [same_world|]);
    cbn [beacon_interval trace user];
    rewrite ?Z.eqb_refl, <- ?app_assoc; cbn [app];
    repeat split; reflexivity.
Qed.

(** ** The claim about the beacon tick *)

(** C3: with the stored interval 2, whatever the one-second counter holds
    when the beacon starts, the calls [beacon(PLAY)] up to the second
    expiration of that counter see one expiration and play nothing; the
    call that finds the counter expired for the second time reads the
    interval back from storage and plays message 4, and leaves the
    interval at the stored value and the counter restarted. *)
Theorem beacon_fires_at_second_expiration (fuel : nat) (w : World)
    (Huser : user w 1 = 2)
    (Hinterval : beacon_interval w = 65000 \/ beacon_interval w = 2)
    (Htimer : 0 <= beacon_timer w < 65536) :
  let n := Z.to_nat (beacon_timer w + wrap16 (YACKSECS 1) + 1) in
  exists w1 w2,
    beacon_ticks n w = Some (1%nat, w1)
    /\ trace w1 = trace w ++ load_events w ++ concat (repeat power_events n)
    /\ tick_expires w1 = true
    /\ beacon fuel PLAY w1 = Some (tt, w2)
    /\ trace w2
       = trace w1 ++ power_events ++ [EvUser READ 1 0; EvMessage PLAY 4]
    /\ beacon_interval w2 = user w2 1
    /\ beacon_interval w2 = 2
    /\ beacon_timer w2 = wrap16 (YACKSECS 1).
Proof.
  intros n.
  set (w1 := beacon_world 1 0
               (load_events w ++ concat (repeat power_events n)) w).
  assert (Hfire :
    beacon fuel PLAY w1
    = Some (tt, beacon_world (wrap16 (user w1 1)) (wrap16 (YACKSECS 1))
                  (load_events w1 ++ power_events
                   ++ [EvUser READ 1 0; EvMessage PLAY 4]) w1)).
  { apply beacon_play_fires.
    - rewrite loaded_interval_plain by (cbn; lia). cbn. lia.
    - reflexivity.
    - rewrite loaded_interval_plain by (cbn; lia). reflexivity. }
  rewrite (load_events_plain w1) in Hfire by (cbn; lia). cbn [app] in Hfire.
  eexists w1, _.
  split; [apply beacon_run_to_second_expiration; assumption|].
  split; [reflexivity|].
  split; [reflexivity|].
  split; [exact Hfire|].
  cbn [beacon_world w1 trace beacon_interval beacon_timer user].
  rewrite Huser. repeat split; reflexivity.
Qed.

(** ** Running the callsign trainer *)

Lemma trained_twice r1 s1 e1 r2 s2 e2 w :
  trained r2 s2 e2 (trained r1 s1 e1 w) = trained r2 s2 (e1 ++ e2) w.
Proof. unfold trained. cbn. rewrite <- app_assoc. reflexivity. Qed.

Lemma trained_unpressed r s e w : unpressed (trained r s e w).
Proof. split; reflexivity. Qed.

Lemma trained_start w :
  unpressed w -> w = trained (lfsr_reg w) (script_iambic w) [] w.
Proof.
  intros [Hck Hb]. destruct w. cbn in *. subst. unfold trained. cbn.
  rewrite app_nil_r. reflexivity.
Qed.

(** One step of the presentation loop. *)
Lemma play_call_step k n call w :
  unpressed w -> 0 <= n < 5 ->
  play_call (S k) n call w
  = play_call k (n + 1) call
      (trained (lfsr_reg w) (script_iambic w)
         [EvChar (nth (Z.to_nat n) call 0); EvFarns; EvCtrlKey TRUE] w).
Proof.
  intros [Hck Hb] Hn. destruct w as [r bi bt fl us sp ck si sb sk tr].
  cbn in Hck, Hb. subst ck sb.
  cbn [play_call]. destruct (Z.ltb_spec n 5) as [_|]; [|lia].
  rewrite (wrap8_small (n + 1)) by lia.
  unfold trained. run. rewrite <- ?app_assoc. reflexivity.
Qed.

Lemma present_call c0 c1 c2 c3 c4 w :
  unpressed w ->
  (yackdelay (2 * IWGLEN);; play_call 6 0 [c0; c1; c2; c3; c4]) w
  = Some (false, trained (lfsr_reg w) (script_iambic w)
                   (present_events [c0; c1; c2; c3; c4]) w).
Proof.
  intros [Hck Hb]. destruct w as [r bi bt fl us sp ck si sb sk tr].
  cbn in Hck, Hb. subst ck sb.
  unfold bind, yackdelay, emit. cbn [set_trace trace].
  do 5 (rewrite play_call_step by (first [split; reflexivity | lia]);
        unfold trained;
        cbn [lfsr_reg beacon_interval beacon_timer flags user wpm
             script_iambic script_keyinp trace Z.add Pos.add Pos.succ
             nth Z.to_nat Pos.to_nat Pos.iter_op Nat.add]).
  cbn [play_call]. change (5 <? 5) with false. cbv iota.
  unfold ret, present_events. cbn [flat_map app].
  rewrite <- !app_assoc. reflexivity.
Qed.

(** The decoding loop returns at once when a character is ready. *)
Lemma await_char_ready fuel timer w c rest :
  unpressed w -> script_iambic w = c :: rest -> c <> 0 ->
  await_char (S fuel) timer w
  = Some ((c, wrap16 (timer - 1)),
          trained (lfsr_reg w) rest decode_events w).
Proof.
  intros [Hck Hb] Hs Hc. destruct w as [r bi bt fl us sp ck si sb sk tr].
  cbn in Hck, Hb, Hs. subst ck sb si.
  cbn [await_char]. run.
  destruct (Z.eqb_spec c 0) as [|_]; [contradiction|]. cbn [andb].
  unfold trained, decode_events. same_world.
Qed.

(** The decoding loop runs the timer out when nothing is keyed. *)
Lemma await_char_idle m : forall fuel timer w,
  unpressed w -> script_iambic w = [] ->
  wrap16 (timer - 1) = Z.of_nat m -> (m < fuel)%nat ->
  await_char fuel timer w
  = Some ((0, 0), trained (lfsr_reg w) [] (idle_events m) w).
Proof.
  induction m as [|m IH]; intros fuel timer w Hw Hs Ht Hf;
    (destruct fuel as [|fuel]; [lia|]);
    pose proof Hw as [Hck Hb];
    destruct w as [r bi bt fl us sp ck si sb sk tr];
    cbn in Hck, Hb, Hs; subst ck sb si;
    cbn [await_char]; run; rewrite Ht.
  - cbn [Z.of_nat Z.eqb negb andb]. unfold trained, idle_events. same_world.
  - rewrite Nat2Z.inj_succ.
    destruct (Z.eqb_spec (Z.succ (Z.of_nat m)) 0) as [|_]; [lia|].
    cbn [negb andb]. run. change (FALSE =? TRUE) with false. cbn [orb].
    pose proof (wrap16_range (timer - 1)) as Hr.
    rewrite (IH fuel (Z.succ (Z.of_nat m)));
      [|split; reflexivity|reflexivity| |lia].
    + unfold trained, idle_events. cbn [lfsr_reg trace beacon_interval
        beacon_timer flags user wpm script_keyinp repeat concat].
      rewrite <- ?app_assoc. reflexivity.
    + replace (Z.succ (Z.of_nat m) - 1) with (Z.of_nat m) by lia.
      apply wrap16_small. lia.
Qed.

(** The comparison of the decoded character with the expected one. *)
Lemma check_char_right call i c w :
  nth (Z.to_nat i) call 0 = c -> 0 <= i < 5 ->
  check_char call i c w = Some (i + 1, w).
Proof.
  intros H Hi. unfold check_char. rewrite H, Z.eqb_refl.
  rewrite wrap8_small by lia. reflexivity.
Qed.

Lemma check_char_wrong call i c w :
  nth (Z.to_nat i) call 0 <> c ->
  check_char call i c w = Some (0, set_trace (trace w ++ [EvError]) w).
Proof.
  intros H. unfold check_char.
  destruct (Z.eqb_spec (nth (Z.to_nat i) call 0) c); [contradiction|].
  reflexivity.
Qed.

Lemma trained_error r s e w :
  set_trace (trace (trained r s e w) ++ [EvError]) (trained r s e w)
  = trained r s (e ++ [EvError]) w.
Proof. unfold trained. cbn. rewrite <- app_assoc. reflexivity. Qed.

Lemma trained_emit r s e ev w :
  emit ev (trained r s e w) = Some (tt, trained r s (e ++ [ev]) w).
Proof. unfold emit, trained. cbn. rewrite <- app_assoc. reflexivity. Qed.

Lemma trained_set_lfsr_reg r s e v w :
  set_lfsr_reg v (trained r s e w) = trained v s e w.
Proof. reflexivity. Qed.

(** A pass of the round loop that starts a callsign afresh: present it,
    decode a character, look for the command button. *)
Lemma train_round_first fuel c0 c1 c2 c3 c4 w c rest :
  unpressed w -> script_iambic w = c :: rest -> c <> 0 ->
  wrap16 (wrap16 (YACKSECS TRAINTIMEOUT) - 1) <> 0 ->
  train_round (S (S fuel)) [c0; c1; c2; c3; c4] 0 w
  = (i <- check_char [c0; c1; c2; c3; c4] 0 c;;
     train_round (S fuel) [c0; c1; c2; c3; c4] i)
      (trained (lfsr_reg w) rest
         (present_events [c0; c1; c2; c3; c4] ++ decode_events
          ++ [EvCtrlKey TRUE]) w).
Proof.
  intros Hw Hs Hc HT.
  cbn [train_round]. change (0 <? 5) with true. change (0 =? 0) with true.
  cbv iota. unfold bind at 1. rewrite present_call by exact Hw.
  unfold bind at 1.
  rewrite (await_char_ready fuel _ _ c rest);
    [|apply trained_unpressed|exact Hs|exact Hc].
  destruct (Z.eqb_spec (wrap16 (wrap16 (YACKSECS TRAINTIMEOUT) - 1)) 0)
    as [|_]; [contradiction|].
  rewrite trained_twice. unfold trained at 1. run.
  unfold trained. cbn [lfsr_reg trace]. rewrite <- !app_assoc. reflexivity.
Qed.

(** A pass of the round loop in the middle of a callsign. *)
Lemma train_round_next fuel call i w c rest :
  unpressed w -> script_iambic w = c :: rest -> c <> 0 -> 0 < i < 5 ->
  wrap16 (wrap16 (YACKSECS TRAINTIMEOUT) - 1) <> 0 ->
  train_round (S (S fuel)) call i w
  = (i' <- check_char call i c;; train_round (S fuel) call i')
      (trained (lfsr_reg w) rest (decode_events ++ [EvCtrlKey TRUE]) w).
Proof.
  intros Hw Hs Hc Hi HT.
  cbn [train_round].
  destruct (Z.ltb_spec i 5) as [_|]; [|lia].
  destruct (Z.eqb_spec i 0) as [|_]; [lia|].
  unfold bind at 1, ret at 1. unfold bind at 1.
  rewrite (await_char_ready fuel _ _ c rest); [|exact Hw|exact Hs|exact Hc].
  destruct (Z.eqb_spec (wrap16 (wrap16 (YACKSECS TRAINTIMEOUT) - 1)) 0)
    as [|_]; [contradiction|].
  unfold trained at 1. run.
  unfold trained. cbn [lfsr_reg trace]. rewrite <- !app_assoc. reflexivity.
Qed.

(** The round loop is left when all five characters are matched. *)
Lemma train_round_done fuel call w : train_round fuel call 5 w = Some (true, w).
Proof. destruct fuel; reflexivity. Qed.

(** A round in which nothing is keyed: the callsign is presented and the
    timer runs out. *)
Lemma train_round_idle m fuel c0 c1 c2 c3 c4 w :
  unpressed w -> script_iambic w = [] ->
  wrap16 (wrap16 (YACKSECS TRAINTIMEOUT) - 1) = Z.of_nat m -> (m < fuel)%nat ->
  train_round (S fuel) [c0; c1; c2; c3; c4] 0 w
  = Some (false, trained (lfsr_reg w) []
                   (present_events [c0; c1; c2; c3; c4] ++ idle_events m) w).
Proof.
  intros Hw Hs HT Hf.
  cbn [train_round]. change (0 <? 5) with true. change (0 =? 0) with true.
  cbv iota. unfold bind at 1. rewrite present_call by exact Hw.
  unfold bind at 1. rewrite Hs.
  rewrite (await_char_idle m fuel);
    [|apply trained_unpressed|reflexivity|exact HT|exact Hf].
  change (0 =? 0) with true. cbv iota.
  rewrite trained_twice. reflexivity.
Qed.

Lemma call_rndcall_result call w :
  List.length call = 5%nat ->
  call_rndcall call w
  = Some (callsign_of (lfsr_reg w),
          set_lfsr_reg (Nat.iter 5 lfsr_next (lfsr_reg w)) w).
Proof.
  intros H. unfold call_rndcall. rewrite rndcall_result by exact H.
  reflexivity.
Qed.

Lemma callsign_of_length s : List.length (callsign_of s) = 5%nat.
Proof. reflexivity. Qed.

Lemma callsign_of_nonzero s : Forall (fun c => c <> 0) (callsign_of s).
Proof.
  unfold callsign_of.
  repeat (apply Forall_cons;
          [match goal with
           | |- ?x mod ?n + _ <> 0 =>
               pose proof (Z.mod_pos_bound x n ltac:(lia));
               change (ch "A") with 65; change (ch "0") with 48; lia
           end|]).
  apply Forall_nil.
Qed.

(** One pass of the round loop at the start of a callsign, and one in
    its middle, on the character [c] with [rst] still to come. *)
Ltac train_first c rst Hc HT :=
  rewrite (train_round_first _ _ _ _ _ _ _ c rst);
    [|first [assumption|apply trained_unpressed]
     |first [assumption|reflexivity]|exact Hc|exact HT];
  unfold bind at 1.

Ltac train_next c rst Hc HT :=
  rewrite (train_round_next _ _ _ _ c rst);
    [|apply trained_unpressed|reflexivity|exact Hc|lia|exact HT];
  unfold bind at 1.

(** The character matched, and the character did not. *)
Ltac train_right := rewrite check_char_right by (try reflexivity; lia).

Ltac train_wrong :=
  rewrite check_char_wrong by (cbv; congruence); rewrite trained_error.

(** A round in which the first [k] characters of the callsign are keyed
    correctly, then a wrong character, then the whole callsign. *)
Lemma train_round_one_error k fuel call x w :
  List.length call = 5%nat -> (k < 5)%nat ->
  unpressed w ->
  script_iambic w = firstn k call ++ x :: call ->
  x <> 0 -> x <> nth k call 0 -> Forall (fun c => c <> 0) call ->
  wrap16 (wrap16 (YACKSECS TRAINTIMEOUT) - 1) <> 0 ->
  train_round (k + 7 + fuel) call 0 w
  = Some (true,
          trained (lfsr_reg w) []
            (present_events call
             ++ concat (repeat (decode_events ++ [EvCtrlKey TRUE]) k)
             ++ decode_events ++ [EvCtrlKey TRUE; EvError]
             ++ present_events call
             ++ concat (repeat (decode_events ++ [EvCtrlKey TRUE]) 5)) w).
Proof.
  intros Hlen Hk Hw Hs Hx Hne Hnz HT.
  destruct call as [|c0 [|c1 [|c2 [|c3 [|c4 [|]]]]]]; try discriminate Hlen.
  inversion Hnz as [|? ? H0 Hnz1]; subst.
  inversion Hnz1 as [|? ? H1 Hnz2]; subst.
  inversion Hnz2 as [|? ? H2 Hnz3]; subst.
  inversion Hnz3 as [|? ? H3 Hnz4]; subst.
  inversion Hnz4 as [|? ? H4 _]; subst.
  destruct k as [|[|[|[|[|k]]]]]; [| | | | |lia];
    cbn [firstn app nth] in Hs, Hne; cbn [Nat.add].
  - train_first x [c0; c1; c2; c3; c4] Hx HT. train_wrong.
    train_first c0 [c1; c2; c3; c4] H0 HT. train_right.
    train_next c1 [c2; c3; c4] H1 HT. train_right.
    train_next c2 [c3; c4] H2 HT. train_right.
    train_next c3 [c4] H3 HT. train_right.
    train_next c4 (@nil Z) H4 HT. train_right.
    change (0 + 1 + 1 + 1 + 1 + 1) with 5. rewrite train_round_done.
    rewrite !trained_twice. cbn [repeat concat app].
    rewrite <- !app_assoc. cbn [app]. rewrite ?app_nil_r. reflexivity.
  - train_first c0 [x; c0; c1; c2; c3; c4] H0 HT. train_right.
    train_next x [c0; c1; c2; c3; c4] Hx HT. train_wrong.
    train_first c0 [c1; c2; c3; c4] H0 HT. train_right.
    train_next c1 [c2; c3; c4] H1 HT. train_right.
    train_next c2 [c3; c4] H2 HT. train_right.
    train_next c3 [c4] H3 HT. train_right.
    train_next c4 (@nil Z) H4 HT. train_right.
    change (0 + 1 + 1 + 1 + 1 + 1) with 5. rewrite train_round_done.
    rewrite !trained_twice. cbn [repeat concat app].
    rewrite <- !app_assoc. cbn [app]. rewrite ?app_nil_r. reflexivity.
  - train_first c0 [c1; x; c0; c1; c2; c3; c4] H0 HT. train_right.
    train_next c1 [x; c0; c1; c2; c3; c4] H1 HT. train_right.
    train_next x [c0; c1; c2; c3; c4] Hx HT. train_wrong.
    train_first c0 [c1; c2; c3; c4] H0 HT. train_right.
    train_next c1 [c2; c3; c4] H1 HT. train_right.
    train_next c2 [c3; c4] H2 HT. train_right.
    train_next c3 [c4] H3 HT. train_right.
    train_next c4 (@nil Z) H4 HT. train_right.
    change (0 + 1 + 1 + 1 + 1 + 1) with 5. rewrite train_round_done.
    rewrite !trained_twice. cbn [repeat concat app].
    rewrite <- !app_assoc. cbn [app]. rewrite ?app_nil_r. reflexivity.
  - train_first c0 [c1; c2; x; c0; c1; c2; c3; c4] H0 HT. train_right.
    train_next c1 [c2; x; c0; c1; c2; c3; c4] H1 HT. train_right.
    train_next c2 [x; c0; c1; c2; c3; c4] H2 HT. train_right.
    train_next x [c0; c1; c2; c3; c4] Hx HT. train_wrong.
    train_first c0 [c1; c2; c3; c4] H0 HT. train_right.
    train_next c1 [c2; c3; c4] H1 HT. train_right.
    train_next c2 [c3; c4] H2 HT. train_right.
    train_next c3 [c4] H3 HT. train_right.
    train_next c4 (@nil Z) H4 HT. train_right.
    change (0 + 1 + 1 + 1 + 1 + 1) with 5. rewrite train_round_done.
    rewrite !trained_twice. cbn [repeat concat app].
    rewrite <- !app_assoc. cbn [app]. rewrite ?app_nil_r. reflexivity.
  - train_first c0 [c1; c2; c3; x; c0; c1; c2; c3; c4] H0 HT. train_right.
    train_next c1 [c2; c3; x; c0; c1; c2; c3; c4] H1 HT. train_right.
    train_next c2 [c3; x; c0; c1; c2; c3; c4] H2 HT. train_right.
    train_next c3 [x; c0; c1; c2; c3; c4] H3 HT. train_right.
    train_next x [c0; c1; c2; c3; c4] Hx HT. train_wrong.
    train_first c0 [c1; c2; c3; c4] H0 HT. train_right.
    train_next c1 [c2; c3; c4] H1 HT. train_right.
    train_next c2 [c3; c4] H2 HT. train_right.
    train_next c3 [c4] H3 HT. train_right.
    train_next c4 (@nil Z) H4 HT. train_right.
    change (0 + 1 + 1 + 1 + 1 + 1) with 5. rewrite train_round_done.
    rewrite !trained_twice. cbn [repeat concat app].
    rewrite <- !app_assoc. cbn [app]. rewrite ?app_nil_r. reflexivity.
Qed.

Lemma error_count_app e1 e2 :
  error_count (e1 ++ e2) = (error_count e1 + error_count e2)%nat.
Proof. unfold error_count. rewrite filter_app, length_app. reflexivity. Qed.

Lemma error_count_idle m : error_count (idle_events m) = 0%nat.
Proof.
  unfold idle_events. rewrite error_count_app.
  induction m as [|m IH]; [reflexivity|].
  cbn [repeat concat]. rewrite error_count_app in *. exact IH.
Qed.

Lemma error_count_present c0 c1 c2 c3 c4 :
  error_count (present_events [c0; c1; c2; c3; c4]) = 0%nat.
Proof. reflexivity. Qed.

Lemma callsign_of_chars s :
  exists c0 c1 c2 c3 c4, callsign_of s = [c0; c1; c2; c3; c4].
Proof. unfold callsign_of. cbv zeta. repeat eexists. Qed.

Lemma error_count_decoded k :
  error_count (concat (repeat (decode_events ++ [EvCtrlKey TRUE]) k)) = 0%nat.
Proof.
  induction k as [|k IH]; [reflexivity|].
  cbn [repeat concat]. rewrite error_count_app, IH. reflexivity.
Qed.

(** The whole session: the first [k] characters of the callsign keyed
    correctly, a wrong character, the callsign keyed correctly, then
    silence until the timer runs out. *)
Lemma cstrain_session k fuel w x :
  (k < 5)%nat ->
  unpressed w ->
  script_iambic w
  = firstn k (callsign_of (lfsr_reg w)) ++ x :: callsign_of (lfsr_reg w) ->
  x <> 0 -> x <> nth k (callsign_of (lfsr_reg w)) 0 ->
  wrap16 (wrap16 (YACKSECS TRAINTIMEOUT) - 1) <> 0 ->
  (Z.to_nat (wrap16 (wrap16 (YACKSECS TRAINTIMEOUT) - 1)) + k + 10
   <= fuel)%nat ->
  cstrain fuel w
  = Some (tt,
          trained (Nat.iter 10 lfsr_next (lfsr_reg w)) []
            (present_events (callsign_of (lfsr_reg w))
             ++ concat (repeat (decode_events ++ [EvCtrlKey TRUE]) k)
             ++ decode_events ++ [EvCtrlKey TRUE; EvError]
             ++ present_events (callsign_of (lfsr_reg w))
             ++ concat (repeat (decode_events ++ [EvCtrlKey TRUE]) 5)
             ++ [EvChar (ch "R")]
             ++ present_events (callsign_of (Nat.iter 5 lfsr_next (lfsr_reg w)))
             ++ idle_events
                  (Z.to_nat (wrap16 (wrap16 (YACKSECS TRAINTIMEOUT) - 1))))
            w).
Proof.
  intros Hk Hw Hs Hx Hne HT Hfuel.
  pose proof (wrap16_range (wrap16 (YACKSECS TRAINTIMEOUT) - 1)) as Hr.
  set (m := Z.to_nat (wrap16 (wrap16 (YACKSECS TRAINTIMEOUT) - 1))) in *.
  assert (Hm : wrap16 (wrap16 (YACKSECS TRAINTIMEOUT) - 1) = Z.of_nat m)
    by (unfold m; lia).
  pose proof (callsign_of_nonzero (lfsr_reg w)) as Hnz.
  set (s1 := Nat.iter 5 lfsr_next (lfsr_reg w)).
  destruct Hw as [Hck Hb].
  destruct w as [r bi bt fl us sp ck si sb sk tr].
  cbn [lfsr_reg script_iambic cklatch script_button] in *. subst ck sb si.
  destruct fuel as [|f1]; [lia|].
  destruct f1 as [|f2]; [lia|].
  unfold cstrain. cbn [cstrain_loop].
  unfold bind at 1. rewrite call_rndcall_result by reflexivity.
  cbn [set_lfsr_reg lfsr_reg]. fold s1.
  unfold bind at 1.
  replace (train_round (S f2)) with (train_round (k + 7 + (f2 - k - 6)))
    by (f_equal; lia).
  rewrite (train_round_one_error k _ _ x);
    [|reflexivity|exact Hk|split; reflexivity|reflexivity|exact Hx|exact Hne
     |exact Hnz|exact HT].
  unfold bind at 1, yackchar. rewrite trained_emit.
  cbn [cstrain_loop]. unfold bind at 1.
  rewrite call_rndcall_result by reflexivity.
  rewrite trained_set_lfsr_reg. cbn [trained lfsr_reg].
  destruct f2 as [|f3]; [lia|].
  unfold bind at 1.
  destruct (callsign_of_chars s1) as (d0 & d1 & d2 & d3 & d4 & Hnext).
  rewrite Hnext.
  rewrite (train_round_idle m);
    [|apply trained_unpressed|reflexivity|exact Hm|lia].
  rewrite trained_twice.
  unfold ret, trained, s1.
  cbn [lfsr_reg beacon_interval beacon_timer flags user wpm script_keyinp
       trace Nat.iter nat_rect].
  rewrite <- !app_assoc. reflexivity.
Qed.

(** ** The claim about the callsign trainer *)


(** * Further properties *)

(** ** The generator as a permutation *)

Lemma lfsr_prev_next s : 0 <= s < 65536 -> lfsr_prev (lfsr_next s) = s.
Proof.
  intros Hs. rewrite lfsr_next_galois by exact Hs. rewrite shiftr_1.
  assert (Hhalf : 0 <= s / 2 < 32768).
  { split; [apply Z.div_pos; lia|]. apply Z.div_lt_upper_bound; lia. }
  assert (Hbit : Z.testbit (s / 2) 15 = false).
  { apply Z.testbit_false; [lia|].
    rewrite Z.div_small by (change (2 ^ 15) with 32768; lia). reflexivity. }
  pose proof (Z.div_mod s 2 ltac:(lia)) as Hdm. rewrite Zmod_odd in Hdm.
  unfold lfsr_prev. destruct (Z.odd s).
  - rewrite Z.lxor_spec, Hbit. change (Z.testbit 0xB400 15) with true.
    cbn [xorb]. rewrite Z.lxor_assoc, Z.lxor_nilpotent, Z.lxor_0_r. lia.
  - rewrite Z.lxor_0_r, Hbit. lia.
Qed.

Lemma lfsr_next_injective s t :
  0 <= s < 65536 -> 0 <= t < 65536 -> lfsr_next s = lfsr_next t -> s = t.
Proof.
  intros Hs Ht H.
  rewrite <- (lfsr_prev_next s Hs), <- (lfsr_prev_next t Ht), H. reflexivity.
Qed.

Lemma orbit_avoids_sound n : forall s target,
  orbit_avoids n s target = true ->
  forall k, (1 <= k <= n)%nat -> Nat.iter k lfsr_next s <> target.
Proof.
  induction n as [|n IH]; intros s target H k Hk; [lia|].
  cbn [orbit_avoids] in H. apply andb_true_iff in H as [H1 H2].
  destruct k as [|k]; [lia|]. rewrite Nat.iter_succ_r.
  destruct k as [|k].
  - cbn [Nat.iter nat_rect]. intros E. rewrite E, Z.eqb_refl in H1. discriminate.
  - apply (IH _ _ H2). lia.
Qed.

(** Equal registers after [i] and [j] calls mean a return after [j - i]. *)
Lemma iter_next_cancel i : forall j s,
  0 <= s < 65536 -> (i <= j)%nat ->
  Nat.iter i lfsr_next s = Nat.iter j lfsr_next s ->
  Nat.iter (j - i) lfsr_next s = s.
Proof.
  induction i as [|i IH]; intros j s Hs Hij H.
  - rewrite Nat.sub_0_r. symmetry. exact H.
  - destruct j as [|j]; [lia|]. cbn [Nat.sub].
    apply IH; [exact Hs|lia|].
    cbn [Nat.iter nat_rect] in H.
    apply lfsr_next_injective in H; [exact H| |]; apply iter_next_range;
      exact Hs.
Qed.

Lemma seed_avoided :
  orbit_avoids (Z.to_nat 65534) LFSR_SEED LFSR_SEED = true.
Proof. vm_compute. reflexivity. Qed.

Lemma seed_returns : Nat.iter (Z.to_nat 65535) lfsr_next LFSR_SEED = LFSR_SEED.
Proof. vm_compute. reflexivity. Qed.

(** X1: the update of the register is one-to-one on 16-bit values: two
    different registers never lead to the same register, so the sequence
    of registers has no tail that is left for good. *)
Theorem lfsr_update_one_to_one (s t : Z)
    (Hs : 0 <= s < 65536) (Ht : 0 <= t < 65536)
    (Heq : lfsr_next s = lfsr_next t) :
  s = t /\ lfsr_prev (lfsr_next s) = s.
Proof.
  split; [apply lfsr_next_injective; assumption|apply lfsr_prev_next; exact Hs].
Qed.

(** X2: from the seed 0xACE1 the register comes back to the seed after
    65535 calls of [lfsr] and not before, and on the way it takes every
    non-zero 16-bit value. *)
Theorem lfsr_full_period (k : nat) (s : Z)
    (Hk : (0 < k < Z.to_nat 65535)%nat) (Hs : 0 < s < 65536) :
  Nat.iter (Z.to_nat 65535) lfsr_next LFSR_SEED = LFSR_SEED
  /\ Nat.iter k lfsr_next LFSR_SEED <> LFSR_SEED
  /\ exists j, (j < Z.to_nat 65535)%nat /\ Nat.iter j lfsr_next LFSR_SEED = s.
Proof.
  assert (Hseed : 0 < LFSR_SEED < 65536) by (unfold LFSR_SEED; lia).
  assert (Hno : forall k', (0 < k' < Z.to_nat 65535)%nat ->
                           Nat.iter k' lfsr_next LFSR_SEED <> LFSR_SEED).
  { intros k' Hk'. apply (orbit_avoids_sound _ _ _ seed_avoided). lia. }
  split; [exact seed_returns|]. split; [apply Hno; exact Hk|].
  set (n := Z.to_nat 65535) in *.
  set (orbit := map (fun j => Nat.iter j lfsr_next LFSR_SEED) (seq 0 n)).
  set (all := map Z.of_nat (seq 1 n)).
  assert (Hnd : NoDup orbit).
  { unfold orbit. apply NoDup_map_NoDup_ForallPairs; [|apply seq_NoDup].
    intros i j Hi Hj E. apply in_seq in Hi, Hj.
    destruct (Nat.lt_trichotomy i j) as [Hlt|[Heq|Hgt]]; [|exact Heq|].
    - exfalso. apply (Hno (j - i)%nat); [lia|].
      apply iter_next_cancel; [lia|lia|exact E].
    - exfalso. apply (Hno (i - j)%nat); [lia|].
      apply iter_next_cancel; [lia|lia|symmetry; exact E]. }
  assert (Hincl : incl orbit all).
  { intros x Hx. unfold orbit in Hx. apply in_map_iff in Hx as (j & <- & Hj).
    pose proof (iter_next_nonzero j LFSR_SEED Hseed) as Hr.
    unfold all. apply in_map_iff.
    exists (Z.to_nat (Nat.iter j lfsr_next LFSR_SEED)).
    split; [lia|]. apply in_seq. unfold n. lia. }
  assert (Hlen : (List.length all <= List.length orbit)%nat).
  { unfold all, orbit. rewrite !length_map, !length_seq. lia. }
  pose proof (NoDup_length_incl Hnd Hlen Hincl) as Hall.
  assert (Hin : In s all).
  { unfold all. apply in_map_iff. exists (Z.to_nat s). split; [lia|].
    apply in_seq. unfold n. lia. }
  apply Hall in Hin. unfold orbit in Hin.
  apply in_map_iff in Hin as (j & Hj & Hjn). apply in_seq in Hjn.
  exists j. split; [lia|exact Hj].
Qed.

Lemma cheap_modulo_zero fuel : forall random,
  0 <= random -> cheap_modulo fuel random 0 = None.
Proof.
  induction fuel as [|fuel IH]; intros random Hr; cbn [cheap_modulo];
    (destruct (Z.geb_spec random 0) as [_|]; [|lia]); [reflexivity|].
  apply IH. apply wrap8_range.
Qed.

(** X3: [lfsr] returns for every bound from 1 to 255 and never returns for
    the bound 0, where the subtraction loop makes no progress, however
    long it is run. *)
Theorem lfsr_returns_unless_zero (n s : Z) (fuel : nat)
    (Hn : 0 <= n <= 255) :
  (lfsr n s = None <-> n = 0)
  /\ (n = 0 -> cheap_modulo fuel (wrap8 (Z.shiftr (lfsr_next s) 8)) n = None).
Proof.
  split.
  - split.
    + intros H. destruct (Z.eq_dec n 0) as [|Hne]; [assumption|].
      rewrite lfsr_result in H by lia. discriminate.
    + intros ->. unfold lfsr. rewrite cheap_modulo_zero; [reflexivity|].
      apply wrap8_range.
  - intros ->. apply cheap_modulo_zero. apply wrap8_range.
Qed.

(** ** What the program keeps, whatever is keyed *)

Lemma keeps_ret {A : Type} (R : World -> World -> Prop) (a : A) :
  (forall w, R w w) -> keeps R (ret a).
Proof. intros Hrefl w a' w' H. injection H as _ <-. apply Hrefl. Qed.

Lemma keeps_bind {A B : Type} (R : World -> World -> Prop) (m : M A)
    (f : A -> M B) :
  (forall a b c, R a b -> R b c -> R a c) ->
  keeps R m -> (forall a, keeps R (f a)) -> keeps R (bind m f).
Proof.
  intros Htrans Hm Hf w b w' H. unfold bind in H.
  destruct (m w) as [[a w1]|] eqn:E; [|discriminate].
  exact (Htrans _ _ _ (Hm _ _ _ E) (Hf _ _ _ _ H)).
Qed.

Lemma keeps_out_of_fuel {A : Type} (R : World -> World -> Prop) :
  keeps R (@out_of_fuel A).
Proof. intros w a w' H. discriminate H. Qed.

Lemma reg_kept_refl w : reg_kept w w.
Proof. intros H. exact H. Qed.

Lemma reg_kept_trans a b c : reg_kept a b -> reg_kept b c -> reg_kept a c.
Proof. unfold reg_kept. auto. Qed.

Lemma config_kept_refl w : config_kept w w.
Proof.
  repeat split. exists []. split; [symmetry; apply app_nil_r|constructor].
Qed.

Lemma config_kept_trans a b c :
  config_kept a b -> config_kept b c -> config_kept a c.
Proof.
  intros (F1 & U1 & e1 & T1 & H1) (F2 & U2 & e2 & T2 & H2).
  split; [congruence|]. split; [congruence|].
  exists (e1 ++ e2). split; [rewrite T2, T1, app_assoc; reflexivity|].
  apply Forall_app. split; assumption.
Qed.

Lemma keys_kept_refl w : keys_kept w w.
Proof. exists []. reflexivity. Qed.

Lemma keys_kept_trans a b c : keys_kept a b -> keys_kept b c -> keys_kept a c.
Proof.
  intros [g1 H1] [g2 H2]. exists (g1 ++ g2).
  rewrite H1, H2, app_assoc. reflexivity.
Qed.

Lemma lock_kept_refl w : lock_kept w w.
Proof. intros _ H. split; [apply config_kept_refl|exact H]. Qed.

Lemma lock_kept_trans a b c : lock_kept a b -> lock_kept b c -> lock_kept a c.
Proof.
  intros H1 H2 Hl Hk. destruct (H1 Hl Hk) as [C1 K1].
  assert (Hl' : flags b CONFLOCK = true)
    by (destruct C1 as (-> & _); exact Hl).
  destruct (H2 Hl' K1) as [C2 K2].
  split; [exact (config_kept_trans _ _ _ C1 C2)|exact K2].
Qed.

(** What keeps the configuration and only consumes characters keeps the
    lock. *)
Lemma lock_kept_of {A : Type} (m : M A) :
  keeps config_kept m -> keeps keys_kept m -> keeps lock_kept m.
Proof.
  intros Hc Hk w a w' H _ Hall. split; [exact (Hc _ _ _ H)|].
  destruct (Hk _ _ _ H) as [gone Hg]. rewrite Hg in Hall.
  apply Forall_app in Hall. apply Hall.
Qed.

(** The register a call of [lfsr] leaves is the successor. *)
Lemma lfsr_register n s r s' : lfsr n s = Some (r, s') -> s' = lfsr_next s.
Proof.
  unfold lfsr. destruct (cheap_modulo _ _ _); [|discriminate].
  intros H. injection H as _ <-. reflexivity.
Qed.

Lemma lfsr_next_kept s : 0 < s < 65536 -> 0 < lfsr_next s < 65536.
Proof.
  intros Hs. pose proof (lfsr_next_range s). pose proof (lfsr_next_nonzero s Hs).
  lia.
Qed.

Lemma rndcall_from_kept k : forall i call s call' s',
  rndcall_from k i call s = Some (call', s') ->
  0 < s < 65536 -> 0 < s' < 65536.
Proof.
  induction k as [|k IH]; intros i call s call' s' H Hs; cbn [rndcall_from] in H.
  - injection H as _ <-. exact Hs.
  - destruct (i <? 5).
    + destruct (if i =? 2 then lfsr 10 s else lfsr 26 s) as [[r s1]|] eqn:E;
        [|discriminate].
      apply (IH _ _ _ _ _ H).
      assert (s1 = lfsr_next s)
        by (destruct (i =? 2); exact (lfsr_register _ _ _ _ E)).
      subst s1. apply lfsr_next_kept. exact Hs.
    + injection H as _ <-. exact Hs.
Qed.

(** The calls into the library and the reads of the statics, one by one. *)
Ltac prim_kept :=
  let H := fresh "Hprim" in
  intros [? ? ? ? ? ? ? ? ? ? ?] ? ? H;
  cbv [yackinhibit yackchar yackstring yacknumber yackerror yackdelay
       yackfarns yackplay yackpitch yackspeed yackmode yacksave yacktune
       yackmessage yackpower yackbeat yacktoggle yackflag yackuser yackwpm
       yackiambic yackctrlkey yackreset KEYINP get_interval put_interval
       get_timer put_timer bind emit ret set_trace set_flags set_user
       set_wpm set_cklatch set_script_iambic set_script_button set_script_keyinp
       set_beacon_interval set_beacon_timer trace flags user] in H;
  injection H as _ <-.

Ltac reg_prim := prim_kept; let H := fresh in intros H; exact H.

Ltac config_prim :=
  prim_kept;
  split; [reflexivity|];
  split; [reflexivity|];
  cbn [trace];
  first [exists []; split; [symmetry; apply app_nil_r|constructor]
        |eexists; split; [reflexivity|repeat constructor]].

Ltac keys_prim :=
  prim_kept; unfold keys_kept; cbn [script_iambic];
  first [exists []; reflexivity
        |match goal with
         | |- exists _, ?l = _ ++ tl ?l =>
             destruct l as [|c l']; [exists []|exists [c]]; reflexivity
         end].

Lemma call_lfsr_reg_kept n : keeps reg_kept (call_lfsr n).
Proof.
  intros [r bi bt fl us sp ck si sb sk tr] a w' H. unfold call_lfsr in H.
  cbn [lfsr_reg] in H. destruct (lfsr n r) as [[x s']|] eqn:E; [|discriminate].
  injection H as _ <-. apply lfsr_register in E. subst s'.
  intros Hr. cbn [lfsr_reg] in Hr |- *. apply lfsr_next_kept. exact Hr.
Qed.

Lemma call_rndcall_reg_kept call : keeps reg_kept (call_rndcall call).
Proof.
  intros [r bi bt fl us sp ck si sb sk tr] a w' H. unfold call_rndcall in H.
  cbn [lfsr_reg] in H.
  destruct (rndcall call r) as [[x s']|] eqn:E; [|discriminate].
  injection H as _ <-. intros Hr. cbn [lfsr_reg] in Hr |- *.
  exact (rndcall_from_kept 6 0 call r x s' E Hr).
Qed.

Lemma call_lfsr_config_kept n : keeps config_kept (call_lfsr n).
Proof.
  intros [r bi bt fl us sp ck si sb sk tr] a w' H. unfold call_lfsr in H.
  cbn [lfsr_reg] in H. destruct (lfsr n r) as [[x s']|]; [|discriminate].
  injection H as _ <-. repeat split. exists [].
  split; [symmetry; apply app_nil_r|constructor].
Qed.

Lemma call_rndcall_config_kept call : keeps config_kept (call_rndcall call).
Proof.
  intros [r bi bt fl us sp ck si sb sk tr] a w' H. unfold call_rndcall in H.
  cbn [lfsr_reg] in H. destruct (rndcall call r) as [[x s']|]; [|discriminate].
  injection H as _ <-. repeat split. exists [].
  split; [symmetry; apply app_nil_r|constructor].
Qed.

Lemma call_lfsr_keys_kept n : keeps keys_kept (call_lfsr n).
Proof.
  intros [r bi bt fl us sp ck si sb sk tr] a w' H. unfold call_lfsr in H.
  cbn [lfsr_reg] in H. destruct (lfsr n r) as [[x s']|]; [|discriminate].
  injection H as _ <-. exists []. reflexivity.
Qed.

Lemma call_rndcall_keys_kept call : keeps keys_kept (call_rndcall call).
Proof.
  intros [r bi bt fl us sp ck si sb sk tr] a w' H. unfold call_rndcall in H.
  cbn [lfsr_reg] in H. destruct (rndcall call r) as [[x s']|]; [|discriminate].
  injection H as _ <-. exists []. reflexivity.
Qed.

Create HintDb reg_db.
Create HintDb config_db.
Create HintDb keys_db.

#[local] Hint Resolve call_lfsr_reg_kept call_rndcall_reg_kept : reg_db.
#[local] Hint Resolve call_lfsr_config_kept call_rndcall_config_kept : config_db.
#[local] Hint Resolve call_lfsr_keys_kept call_rndcall_keys_kept : keys_db.

(** Walk through a computation: binds by transitivity, branches by cases,
    loops by the induction hypothesis, calls by [prim] or the hints. *)
Ltac keeps_go refl trans known prim :=
  repeat match goal with
  | |- keeps _ (ret _) => apply keeps_ret; exact refl
  | |- keeps _ (bind _ _) => apply keeps_bind; [exact trans| |intros]
  | |- keeps _ out_of_fuel => apply keeps_out_of_fuel
  | |- keeps _ (if ?b then _ else _) => destruct b
  | |- keeps _ (match ?x with _ => _ end) => destruct x
  | H : _ |- keeps _ _ => solve [apply H]
  | |- keeps _ _ => solve [known]
  | |- keeps _ _ => solve [prim]
  end.

Ltac reg_go :=
  keeps_go reg_kept_refl reg_kept_trans ltac:(auto with reg_db) ltac:(reg_prim).
Ltac config_go :=
  keeps_go config_kept_refl config_kept_trans ltac:(auto with config_db)
    ltac:(config_prim).
Ltac keys_go :=
  keeps_go keys_kept_refl keys_kept_trans ltac:(auto with keys_db)
    ltac:(keys_prim).

Lemma pitch_loop_reg_kept fuel : forall timer, keeps reg_kept (pitch_loop fuel timer).
Proof. induction fuel; intros timer; cbn [pitch_loop]; reg_go. Qed.

Lemma pitch_loop_config_kept fuel :
  forall timer, keeps config_kept (pitch_loop fuel timer).
Proof. induction fuel; intros timer; cbn [pitch_loop]; config_go. Qed.

Lemma pitch_loop_keys_kept fuel :
  forall timer, keeps keys_kept (pitch_loop fuel timer).
Proof. induction fuel; intros timer; cbn [pitch_loop]; keys_go. Qed.

Lemma setfarns_loop_reg_kept fuel :
  forall timer, keeps reg_kept (setfarns_loop fuel timer).
Proof. induction fuel; intros timer; cbn [setfarns_loop]; reg_go. Qed.

Lemma play_call_reg_kept k : forall n call, keeps reg_kept (play_call k n call).
Proof. induction k; intros n call; cbn [play_call]; reg_go. Qed.

Lemma play_call_config_kept k :
  forall n call, keeps config_kept (play_call k n call).
Proof. induction k; intros n call; cbn [play_call]; config_go. Qed.

Lemma play_call_keys_kept k :
  forall n call, keeps keys_kept (play_call k n call).
Proof. induction k; intros n call; cbn [play_call]; keys_go. Qed.

Lemma await_char_reg_kept fuel :
  forall timer, keeps reg_kept (await_char fuel timer).
Proof. induction fuel; intros timer; cbn [await_char]; reg_go. Qed.

Lemma await_char_config_kept fuel :
  forall timer, keeps config_kept (await_char fuel timer).
Proof. induction fuel; intros timer; cbn [await_char]; config_go. Qed.

Lemma await_char_keys_kept fuel :
  forall timer, keeps keys_kept (await_char fuel timer).
Proof. induction fuel; intros timer; cbn [await_char]; keys_go. Qed.

Lemma check_char_reg_kept call i c : keeps reg_kept (check_char call i c).
Proof. unfold check_char. reg_go. Qed.

Lemma check_char_config_kept call i c : keeps config_kept (check_char call i c).
Proof. unfold check_char. config_go. Qed.

Lemma check_char_keys_kept call i c : keeps keys_kept (check_char call i c).
Proof. unfold check_char. keys_go. Qed.

#[local] Hint Resolve pitch_loop_reg_kept setfarns_loop_reg_kept
  play_call_reg_kept await_char_reg_kept check_char_reg_kept : reg_db.
#[local] Hint Resolve pitch_loop_config_kept play_call_config_kept
  await_char_config_kept check_char_config_kept : config_db.
#[local] Hint Resolve pitch_loop_keys_kept play_call_keys_kept
  await_char_keys_kept check_char_keys_kept : keys_db.

Lemma train_round_reg_kept fuel :
  forall call i, keeps reg_kept (train_round fuel call i).
Proof. induction fuel; intros call i; cbn [train_round]; reg_go. Qed.

Lemma train_round_config_kept fuel :
  forall call i, keeps config_kept (train_round fuel call i).
Proof. induction fuel; intros call i; cbn [train_round]; config_go. Qed.

Lemma train_round_keys_kept fuel :
  forall call i, keeps keys_kept (train_round fuel call i).
Proof. induction fuel; intros call i; cbn [train_round]; keys_go. Qed.

#[local] Hint Resolve train_round_reg_kept : reg_db.
#[local] Hint Resolve train_round_config_kept : config_db.
#[local] Hint Resolve train_round_keys_kept : keys_db.

Lemma cstrain_loop_reg_kept fuel :
  forall call, keeps reg_kept (cstrain_loop fuel call).
Proof. induction fuel; intros call; cbn [cstrain_loop]; reg_go. Qed.

Lemma cstrain_loop_config_kept fuel :
  forall call, keeps config_kept (cstrain_loop fuel call).
Proof. induction fuel; intros call; cbn [cstrain_loop]; config_go. Qed.

Lemma cstrain_loop_keys_kept fuel :
  forall call, keeps keys_kept (cstrain_loop fuel call).
Proof. induction fuel; intros call; cbn [cstrain_loop]; keys_go. Qed.

Lemma beacon_record_loop_reg_kept fuel : keeps reg_kept (beacon_record_loop fuel).
Proof. induction fuel; cbn [beacon_record_loop]; reg_go. Qed.

#[local] Hint Resolve cstrain_loop_reg_kept beacon_record_loop_reg_kept : reg_db.
#[local] Hint Resolve cstrain_loop_config_kept : config_db.
#[local] Hint Resolve cstrain_loop_keys_kept : keys_db.

Lemma beacon_reg_kept fuel mode : keeps reg_kept (beacon fuel mode).
Proof. unfold beacon. reg_go. Qed.

#[local] Hint Resolve beacon_reg_kept : reg_db.

Lemma lockable_commands_reg_kept fuel c :
  keeps reg_kept (lockable_commands fuel c).
Proof. unfold lockable_commands, setfarns. reg_go. Qed.

Lemma anytime_commands_reg_kept fuel c timer :
  keeps reg_kept (anytime_commands fuel c timer).
Proof. unfold anytime_commands, pitch, cstrain. reg_go. Qed.

Lemma anytime_commands_config_kept fuel c timer :
  c <> ch "0" -> keeps config_kept (anytime_commands fuel c timer).
Proof.
  intros Hc. unfold anytime_commands, pitch, cstrain.
  destruct (Z.eqb_spec c (ch "0")) as [|_]; [contradiction|].
  config_go.
Qed.

Lemma anytime_commands_keys_kept fuel c timer :
  keeps keys_kept (anytime_commands fuel c timer).
Proof. unfold anytime_commands, pitch, cstrain. keys_go. Qed.

#[local] Hint Resolve lockable_commands_reg_kept anytime_commands_reg_kept
  : reg_db.
#[local] Hint Resolve anytime_commands_config_kept : config_db.
#[local] Hint Resolve anytime_commands_keys_kept : keys_db.

Lemma command_body_reg_kept fuel timer : keeps reg_kept (command_body fuel timer).
Proof. unfold command_body. reg_go. Qed.

#[local] Hint Resolve command_body_reg_kept : reg_db.

Lemma command_loop_reg_kept fuel :
  forall timer, keeps reg_kept (command_loop fuel timer).
Proof. induction fuel; intros timer; cbn [command_loop]; reg_go. Qed.

#[local] Hint Resolve command_loop_reg_kept : reg_db.

Lemma commandmode_reg_kept fuel : keeps reg_kept (commandmode fuel).
Proof. unfold commandmode. reg_go. Qed.

#[local] Hint Resolve commandmode_reg_kept : reg_db.

Lemma main_pass_reg_kept fuel : keeps reg_kept (main_pass fuel).
Proof. unfold main_pass. reg_go. Qed.

#[local] Hint Resolve main_pass_reg_kept : reg_db.

Lemma main_loop_reg_kept fuel n : keeps reg_kept (main_loop fuel n).
Proof. induction n; cbn [main_loop]; reg_go. Qed.

(** X4: the generator never gets stuck: from a non-zero 16-bit register,
    as the one the program starts with, the register is still a non-zero
    16-bit value after any number of passes of the main loop, whatever is
    keyed and whichever commands, trainer sessions and beacon ticks these
    passes run; so the next update again gives a non-zero register. *)
Theorem register_never_stuck (fuel n : nat) (w w' : World)
    (Hreg : 0 < lfsr_reg w < 65536)
    (Hrun : main_loop fuel n w = Some (tt, w')) :
  0 < lfsr_reg w' < 65536 /\ lfsr_next (lfsr_reg w') <> 0.
Proof.
  assert (H : 0 < lfsr_reg w' < 65536)
    by exact (main_loop_reg_kept fuel n w tt w' Hrun Hreg).
  split; [exact H|]. apply lfsr_next_nonzero. exact H.
Qed.

(** The start of every pass through the loop of [commandmode], whatever
    the decoder has. *)
Lemma command_body_start fuel timer w :
  command_body fuel timer w
  = (c' <- (if negb (flags w CONFLOCK)
            then lockable_commands fuel (hd 0 (script_iambic w))
            else ret (hd 0 (script_iambic w)));;
     '(c'', timer') <- anytime_commands fuel c'
                         (if negb (hd 0 (script_iambic w) =? 0)
                          then wrap16 (YACKSECS DEFTIMEOUT)
                          else timer);;
     (if c'' =? TRUE then
        yacksave;; yackdelay (DAHLEN * 3);; yackstring txok
      else if negb (c'' =? 0) then yackerror
      else ret tt);;
     ret timer')
      (polled (tl (script_iambic w)) [EvIambic OFF; EvBeat; EvFlag CONFLOCK] w).
Proof.
  destruct w as [r bi bt fl us sp ck si sb sk tr].
  unfold command_body.
  cbn [bind ret emit yackiambic yackbeat yackflag
       trace script_iambic set_trace set_script_iambic hd tl flags].
  rewrite call_lfsr_255_bind.
  cbn [bind ret emit yackiambic yackbeat yackflag
       trace script_iambic set_trace set_script_iambic hd tl flags
       lfsr_reg set_lfsr_reg].
  rewrite <- !app_assoc. reflexivity.
Qed.

Lemma bind_ret {A B : Type} (a : A) (f : A -> M B) w : bind (ret a) f w = f a w.
Proof. reflexivity. Qed.

Lemma command_body_lock_kept fuel timer :
  keeps lock_kept (command_body fuel timer).
Proof.
  intros w t w' H Hlock Hkeys.
  assert (Hc : hd 0 (script_iambic w) <> ch "0").
  { destruct (script_iambic w) as [|c rest]; [discriminate|].
    inversion Hkeys; assumption. }
  assert (Hrest : Forall (fun c => c <> ch "0") (tl (script_iambic w))).
  { destruct (script_iambic w) as [|c rest]; [constructor|].
    inversion Hkeys; assumption. }
  rewrite command_body_start, Hlock in H. cbn [negb] in H.
  rewrite bind_ret in H.
  set (w1 := polled (tl (script_iambic w))
               [EvIambic OFF; EvBeat; EvFlag CONFLOCK] w) in *.
  assert (Hw1 : config_kept w w1).
  { repeat split. eexists. split; [reflexivity|repeat constructor]. }
  match type of H with
  | ?m w1 = _ =>
      assert (Hcfg : keeps config_kept m) by config_go;
      assert (Hkey : keeps keys_kept m) by keys_go
  end.
  split.
  - exact (config_kept_trans _ _ _ Hw1 (Hcfg _ _ _ H)).
  - destruct (Hkey _ _ _ H) as [gone Hg]. cbn [w1 polled script_iambic] in Hg.
    rewrite Hg in Hrest. apply Forall_app in Hrest. apply Hrest.
Qed.

Lemma command_loop_lock_kept fuel :
  forall timer, keeps lock_kept (command_loop fuel timer).
Proof.
  induction fuel; intros timer; cbn [command_loop];
    keeps_go lock_kept_refl lock_kept_trans
      ltac:(apply command_body_lock_kept)
      ltac:(apply lock_kept_of; [config_prim|keys_prim]).
Qed.

Lemma commandmode_lock_kept fuel : keeps lock_kept (commandmode fuel).
Proof.
  unfold commandmode.
  keeps_go lock_kept_refl lock_kept_trans
    ltac:(apply command_loop_lock_kept)
    ltac:(apply lock_kept_of; [config_prim|keys_prim]).
Qed.

(** X5: the configuration lock holds for a whole stay in command mode:
    when [CONFLOCK] is set on entry and the character '0' is never keyed,
    then, whatever else is keyed and whichever of pitch change, trainer,
    playback, version, speed query or tuning is run, the flags and the
    user words are as before when command mode returns, and none of the
    calls made is a reset, a mode selection, a toggle, a speed or
    Farnsworth change, the recording of a message or the write of a user
    word.  The pitch change stays available under the lock. *)
Theorem locked_settings_untouched (fuel : nat) (w w' : World)
    (Hlock : flags w CONFLOCK = true)
    (Hkeys : Forall (fun c => c <> ch "0") (script_iambic w))
    (Hrun : commandmode fuel w = Some (tt, w')) :
  flags w' = flags w /\ user w' = user w
  /\ exists evs, trace w' = trace w ++ evs
                 /\ Forall (fun e => harmless e = true) evs.
Proof.
  destruct (commandmode_lock_kept fuel w tt w' Hrun Hlock Hkeys) as [H _].
  exact H.
Qed.

(** ** Leaving command mode *)

Lemma idled_twice a b e1 e2 w :
  idled b e2 (idled a e1 w) = idled (a + b) (e1 ++ e2) w.
Proof.
  unfold idled. cbn [lfsr_reg beacon_interval beacon_timer flags user wpm
                     script_button script_keyinp trace].
  rewrite skipn_skipn, <- app_assoc, (Nat.add_comm a b), Nat.iter_add.
  reflexivity.
Qed.

(** A pass through the loop in which nothing is decoded and the command
    button is found released. *)
Lemma command_loop_idle_pass fuel timer w :
  script_iambic w = [] -> cklatch w = false ->
  hd false (script_button w) = false -> 0 < timer < 65536 ->
  command_loop (S fuel) timer w
  = command_loop fuel (timer - 1) (idled 1 idle_pass w).
Proof.
  intros Hs Hck Hb Ht. destruct w as [r bi bt fl us sp ck si sb sk tr].
  cbn [script_iambic cklatch script_button] in Hs, Hck, Hb. subst si ck.
  cbn [command_loop]. run. rewrite Hb. run.
  destruct (Z.gtb_spec timer 0) as [_|]; [|lia].
  unfold bind at 1. rewrite command_body_start.
  rewrite (wrap16_small (timer - 1)) by lia.
  unfold polled, idled, idle_pass.
  cbn [lfsr_reg beacon_interval beacon_timer flags user wpm cklatch
       script_iambic script_button script_keyinp trace hd tl skipn
       Nat.iter nat_rect].
  destruct (fl CONFLOCK); cbn; rewrite <- ?app_assoc; reflexivity.
Qed.

(** [k] such passes in a row. *)
Lemma command_loop_idle k : forall fuel timer w,
  script_iambic w = [] -> cklatch w = false ->
  calm k (script_button w) -> Z.of_nat k <= timer < 65536 ->
  command_loop (k + fuel) timer w
  = command_loop fuel (timer - Z.of_nat k)
      (idled k (concat (repeat idle_pass k)) w).
Proof.
  induction k as [|k IH]; intros fuel timer w Hs Hck Hcalm Ht.
  - cbn [Nat.add repeat concat]. rewrite Z.sub_0_r. f_equal.
    destruct w. cbn in Hs, Hck. subst. unfold idled. cbn.
    rewrite app_nil_r. reflexivity.
  - cbn [Nat.add].
    rewrite command_loop_idle_pass;
      [|exact Hs|exact Hck|exact (calm_hd _ _ Hcalm)|lia].
    rewrite IH; [|reflexivity|reflexivity| |lia].
    + rewrite idled_twice. cbn [repeat concat Nat.add]. f_equal. lia.
    + cbn [idled script_button skipn].
      destruct (script_button w); [intros i _; destruct i; reflexivity|].
      exact (calm_tl _ _ Hcalm).
Qed.

(** The test of the command button that ends the loop. *)
Lemma command_loop_end fuel timer w :
  cklatch w = false ->
  timer = 0 \/ hd false (script_button w) = true ->
  0 <= timer ->
  command_loop (S fuel) timer w
  = Some (tt, mkWorld (lfsr_reg w) (beacon_interval w) (beacon_timer w)
                (flags w) (user w) (wpm w) false (script_iambic w)
                (tl (script_button w)) (script_keyinp w)
                (trace w ++ [EvCtrlKey TRUE])).
Proof.
  intros Hck Hend Ht. destruct w as [r bi bt fl us sp ck si sb sk tr].
  cbn [cklatch script_button] in Hck, Hend. subst ck.
  cbn [command_loop]. run.
  destruct (hd false sb) eqn:Hb; run; [reflexivity|].
  destruct Hend as [->|Hend]; [|discriminate]. reflexivity.
Qed.

(** X6: command mode ends by itself.  With nothing keyed, the loop makes
    one pass per heartbeat, each advancing the generator, until either the
    command button is found pressed or the exit timer, started at
    [YACKSECS(DEFTIMEOUT)], has run down; then the sign-off is sent and
    the keyer is released.  No save, acknowledgement or error indication
    is given, and the flags and the user words are as before. *)
Theorem commandmode_ends (fuel k : nat) (w : World)
    (Hidle : script_iambic w = [])
    (Hlatch : cklatch w = false)
    (Hcalm : calm k (script_button w))
    (Hend : Z.of_nat k = wrap16 (YACKSECS DEFTIMEOUT)
            \/ (Z.of_nat k < wrap16 (YACKSECS DEFTIMEOUT)
                /\ pressed_at k (script_button w)))
    (Hfuel : (k < fuel)%nat) :
  exists w',
    commandmode fuel w = Some (tt, w')
    /\ trace w'
       = trace w ++ [EvInhibit ON; EvChar (ch "?")]
         ++ concat (repeat idle_pass k)
         ++ [EvCtrlKey TRUE; EvString prgx; EvInhibit OFF]
    /\ lfsr_reg w' = Nat.iter k lfsr_next (lfsr_reg w)
    /\ script_button w' = skipn (S k) (script_button w)
    /\ cklatch w' = false
    /\ flags w' = flags w /\ user w' = user w.
Proof.
  pose proof (wrap16_range (YACKSECS DEFTIMEOUT)) as HT.
  destruct w as [r bi bt fl us sp ck si sb sk tr].
  cbn [script_iambic cklatch script_button] in Hidle, Hlatch, Hcalm, Hend.
  subst si ck.
  unfold commandmode. run.
  replace fuel with (k + S (fuel - S k))%nat by lia.
  repeat (rewrite bind_bind; run).
  unfold bind at 1.
  rewrite command_loop_idle; [|reflexivity|reflexivity|exact Hcalm|lia].
  rewrite command_loop_end;
    [|reflexivity
     |cbn [idled script_button];
      destruct Hend as [Hend|[_ Hend]];
      [left; lia|right; apply pressed_at_skipn; exact Hend]
     |lia].
  unfold idled. run.
  eexists. split; [reflexivity|].
  cbn [trace lfsr_reg script_button cklatch flags user].
  rewrite <- !app_assoc. cbn [app].
  repeat split; try reflexivity.
  destruct (skipn k sb) eqn:E.
  - cbn [tl]. symmetry. apply skipn_all2.
    assert (List.length sb <= k)%nat
      by (rewrite <- (firstn_skipn k sb), E, app_nil_r; apply firstn_le_length).
    lia.
  - cbn [tl]. change (S k) with (1 + k)%nat. rewrite <- skipn_skipn, E.
    reflexivity.
Qed.

(** A pass through the loop in which the command button is found
    released and the exit timer has not run down. *)
Lemma command_loop_pass fuel timer w t' w' :
  cklatch w = false -> hd false (script_button w) = false ->
  0 < timer < 65536 ->
  command_body fuel (timer - 1)
    (mkWorld (lfsr_reg w) (beacon_interval w) (beacon_timer w) (flags w)
       (user w) (wpm w) false (script_iambic w) (tl (script_button w))
       (script_keyinp w) (trace w ++ [EvCtrlKey TRUE]))
  = Some (t', w') ->
  command_loop (S fuel) timer w = command_loop fuel t' w'.
Proof.
  intros Hck Hb Ht Hbody. destruct w as [r bi bt fl us sp ck si sb sk tr].
  cbn [cklatch script_button lfsr_reg beacon_interval beacon_timer flags user
       wpm script_iambic script_keyinp trace] in *. subst ck.
  cbn [command_loop]. run. rewrite Hb. run.
  destruct (Z.gtb_spec timer 0) as [_|]; [|lia].
  rewrite (wrap16_small (timer - 1)) by lia.
  change (TRUE =? TRUE) with true. cbv iota.
  unfold bind at 1. rewrite Hbody. reflexivity.
Qed.

(** A pass that plays a message back. *)
Lemma command_body_playback fuel timer c n w rest :
  In (c, n) playback_chars -> script_iambic w = c :: rest ->
  command_body fuel timer w
  = Some (wrap16 (YACKSECS MACTIMEOUT),
          polled rest [EvIambic OFF; EvBeat; EvFlag CONFLOCK;
                       EvInhibit OFF; EvMessage PLAY n; EvInhibit ON] w).
Proof.
  intros Hc Hs. rewrite (command_body_prefix _ _ _ _ _ Hs).
  unfold playback_chars in Hc. cbn [In] in Hc.
  repeat (destruct Hc as [Hc|Hc];
          [injection Hc as <- <-;
           destruct (flags w CONFLOCK); cbn; unfold polled; flat_world;
           reflexivity|]).
  contradiction.
Qed.

(** X18: a playback sets the length of the stay in command mode.  When
    a playback character 'E', 'I', 'T' or 'M' is decoded at the first pass
    and nothing after it, and the command button is not pressed, command
    mode plays the message and then leaves after [YACKSECS(MACTIMEOUT)]
    idle passes, whatever [DEFTIMEOUT] is: the playback has replaced the
    exit timer. *)
Theorem playback_sets_exit_timer (fuel : nat) (c n : Z) (w : World)
    (Hc : In (c, n) playback_chars)
    (Hscript : script_iambic w = [c])
    (Hlatch : cklatch w = false)
    (Hcalm : calm (Z.to_nat (wrap16 (YACKSECS MACTIMEOUT)) + 2)
               (script_button w))
    (Htimeout : wrap16 (YACKSECS DEFTIMEOUT) <> 0)
    (Hfuel : (Z.to_nat (wrap16 (YACKSECS MACTIMEOUT)) + 1 < fuel)%nat) :
  exists w',
    commandmode fuel w = Some (tt, w')
    /\ trace w'
       = trace w ++ [EvInhibit ON; EvChar (ch "?")]
         ++ [EvCtrlKey TRUE; EvIambic OFF; EvBeat; EvFlag CONFLOCK;
             EvInhibit OFF; EvMessage PLAY n; EvInhibit ON]
         ++ concat (repeat idle_pass (Z.to_nat (wrap16 (YACKSECS MACTIMEOUT))))
         ++ [EvCtrlKey TRUE; EvString prgx; EvInhibit OFF]
    /\ lfsr_reg w'
       = Nat.iter (S (Z.to_nat (wrap16 (YACKSECS MACTIMEOUT)))) lfsr_next
           (lfsr_reg w)
    /\ flags w' = flags w /\ user w' = user w.
Proof.
  pose proof (wrap16_range (YACKSECS DEFTIMEOUT)) as HT.
  pose proof (wrap16_range (YACKSECS MACTIMEOUT)) as HM.
  set (m := Z.to_nat (wrap16 (YACKSECS MACTIMEOUT))) in *.
  destruct w as [r bi bt fl us sp ck si sb sk tr].
  cbn [script_iambic cklatch script_button trace lfsr_reg flags user] in *.
  subst si ck.
  assert (Hb0 : hd false sb = false).
  { apply (calm_hd (m + 1)). replace (S (m + 1)) with (m + 2)%nat by lia.
    exact Hcalm. }
  assert (Hcalm1 : calm (S m) (tl sb)).
  { destruct sb; [intros i _; destruct i; reflexivity|].
    apply calm_tl. replace (S (S m)) with (m + 2)%nat by lia. exact Hcalm. }
  unfold commandmode. run.
  destruct fuel as [|fuel]; [lia|].
  repeat (rewrite bind_bind; run).
  unfold bind at 1.
  erewrite command_loop_pass;
    [|reflexivity|exact Hb0|lia
     |cbn [lfsr_reg beacon_interval beacon_timer flags user wpm script_iambic
           script_button script_keyinp trace];
      apply (command_body_playback _ _ c n _ []); [exact Hc|reflexivity]].
  replace fuel with (m + S (fuel - S m))%nat by lia.
  rewrite command_loop_idle;
    [|reflexivity|reflexivity
     |cbn [polled script_button]; apply (calm_le (S m)); [lia|exact Hcalm1]
     |fold m; lia].
  rewrite command_loop_end;
    [|reflexivity
     |left; fold m; lia
     |fold m; lia].
  unfold idled, polled. run.
  eexists. split; [reflexivity|].
  cbn [trace lfsr_reg flags user].
  rewrite <- !app_assoc. cbn [app].
  repeat split; try reflexivity.
  rewrite Nat.iter_succ_r. reflexivity.
Qed.

(** ** The tables of the dispatcher *)

(** Decide the comparisons of the decoded character with the characters
    of the tables, given that it is none of [known]. *)
Ltac not_in_table H :=
  repeat match goal with
  | |- context [?c =? ?k] =>
      destruct (Z.eqb_spec c k) as [->|_];
      [exfalso; apply H; cbn; tauto|]
  end.

(** X7: a character that is in neither table, and is neither empty nor
    the value of [TRUE], is answered by the error indication and nothing
    else, with the configuration locked or unlocked; it still restarts the
    exit timer. *)
Theorem command_unknown_char (fuel : nat) (timer c : Z) (w : World)
    (rest : list Z)
    (Hlockable : ~ In c lockable_chars) (Hanytime : ~ In c anytime_chars)
    (Hchar : c <> 0) (Htrue : c <> TRUE)
    (Hs : script_iambic w = c :: rest) :
  command_body fuel timer w
  = Some (wrap16 (YACKSECS DEFTIMEOUT),
          polled rest [EvIambic OFF; EvBeat; EvFlag CONFLOCK; EvError] w).
Proof.
  assert (H : ~ In c (TRUE :: 0 :: lockable_chars ++ anytime_chars)).
  { intros [E|[E|E]]; [congruence|congruence|].
    apply in_app_or in E. tauto. }
  rewrite (command_body_prefix _ _ _ _ _ Hs).
  unfold lockable_commands, anytime_commands.
  destruct (flags w CONFLOCK); cbn [negb];
    repeat (progress (cbn; not_in_table H)); unfold polled; flat_world;
    reflexivity.
Qed.

(** X8: the character '0' flips the configuration lock in either state,
    so a locked keyer can always be unlocked; the other flags and the user
    words stay, and the change is saved and acknowledged. *)
Theorem command_lock_toggle (fuel : nat) (timer : Z) (w : World)
    (rest : list Z)
    (Hs : script_iambic w = ch "0" :: rest) :
  exists w',
    command_body fuel timer w = Some (wrap16 (YACKSECS DEFTIMEOUT), w')
    /\ trace w'
       = trace w ++ [EvIambic OFF; EvBeat; EvFlag CONFLOCK; EvToggle CONFLOCK;
                     EvSave; EvDelay (DAHLEN * 3); EvString txok]
    /\ flags w' CONFLOCK = negb (flags w CONFLOCK)
    /\ (forall f, f <> CONFLOCK -> flags w' f = flags w f)
    /\ user w' = user w
    /\ script_iambic w' = rest.
Proof.
  rewrite (command_body_prefix _ _ _ _ _ Hs).
  destruct w as [r bi bt fl us sp ck si sb sk tr].
  unfold polled.
  cbn [lfsr_reg beacon_interval beacon_timer flags user wpm cklatch
       script_iambic script_button script_keyinp trace].
  destruct (fl CONFLOCK) eqn:Hl; cbn; (eexists; split; [reflexivity|]);
    cbn [trace flags user script_iambic]; rewrite <- ?app_assoc;
    (split; [reflexivity|]); rewrite Hl;
    (split; [reflexivity|]);
    (split; [intros [] Hf; try reflexivity; contradiction|]);
    split; reflexivity.
Qed.

(** X9: with the configuration unlocked, each lockable command that runs
    no loop of its own makes its library calls and nothing else of its
    own; the always-available table then finds no match, and the pass
    ends with save, delay and the acknowledgement "R".  For every such
    command but the reset, a toggle flips its flag, the other flags and
    the user words stay.  For 'R' the calls are [yackreset], then save,
    delay and "R"; what the reset leaves in the library's storage is not
    main.c's to say and is not stated. *)
Theorem command_unlocked_acts (fuel : nat) (timer c : Z) (evs : list Event)
    (w : World) (rest : list Z)
    (Hunlocked : flags w CONFLOCK = false)
    (Hc : In (c, evs) lockable_calls)
    (Hs : script_iambic w = c :: rest) :
  exists w',
    command_body fuel timer w = Some (wrap16 (YACKSECS DEFTIMEOUT), w')
    /\ trace w'
       = trace w ++ [EvIambic OFF; EvBeat; EvFlag CONFLOCK] ++ evs
         ++ [EvSave; EvDelay (DAHLEN * 3); EvString txok]
    /\ lfsr_reg w' = lfsr_next (lfsr_reg w)
    /\ script_iambic w' = rest
    /\ (c <> ch "R"
        -> (forall f, flags w' f = fold_left flags_after evs (flags w) f)
           /\ user w' = user w).
Proof.
  rewrite (command_body_prefix _ _ _ _ _ Hs), Hunlocked.
  destruct w as [r bi bt fl us sp ck si sb sk tr].
  unfold polled.
  cbn [lfsr_reg beacon_interval beacon_timer flags user wpm cklatch
       script_iambic script_button script_keyinp trace].
  unfold lockable_calls in Hc. cbn [In] in Hc.
  repeat (destruct Hc as [Hc|Hc];
          [injection Hc as <- <-; cbn;
           (eexists; split; [reflexivity|]);
           cbn [trace flags user script_iambic lfsr_reg];
           rewrite <- ?app_assoc;
           do 3 (split; [reflexivity|]); intros Hr;
           solve [exfalso; apply Hr; reflexivity
                 | split; [intros f|]; reflexivity]|]).
  contradiction.
Qed.

Lemma pitch_cycles_world_config cycles w :
  flags (pitch_cycles_world cycles w) = flags w
  /\ user (pitch_cycles_world cycles w) = user w.
Proof.
  revert w. induction cycles as [|c cycles IH]; intros w; [split; reflexivity|].
  cbn [pitch_cycles_world fold_left].
  fold (pitch_cycles_world cycles (pitch_cycle_world c w)).
  destruct (IH (pitch_cycle_world c w)) as [-> ->]. split; reflexivity.
Qed.

(** X19: the pitch is changed and saved with the configuration locked as
    well as unlocked.  The character 'P' runs the pitch loop in either
    lock state: every contact of a paddle during the loop calls
    [yackpitch], and when the loop has seen ten cycles without a contact
    the pass ends with [yacksave], the delay and the acknowledgement "R".
    The flags and the user words stay. *)
Theorem pitch_saved_in_either_lock_state (bursts : list Burst)
    (quiet : list Cycle) (fuel : nat) (timer : Z) (w : World)
    (rest restk : list Z)
    (Hbursts : Forall (good_burst contact_free) bursts)
    (Hquiet : Forall (fun c => contact_free c = true) quiet)
    (Hten : List.length quiet = 10%nat)
    (Hlatch : cklatch w = false)
    (Hcalm : calm (List.length (burst_cycles bursts ++ quiet))
               (script_button w))
    (Hscript : script_iambic w = ch "P" :: rest)
    (Hkeys : script_keyinp w
             = pitch_reads (burst_cycles bursts ++ quiet) ++ restk)
    (Hfuel : (List.length (burst_cycles bursts ++ quiet) <= fuel)%nat) :
  exists w',
    command_body fuel timer w = Some (wrap16 (YACKSECS DEFTIMEOUT), w')
    /\ trace w'
       = trace w ++ [EvIambic OFF; EvBeat; EvFlag CONFLOCK]
         ++ flat_map pitch_cycle_events (burst_cycles bursts ++ quiet)
         ++ [EvSave; EvDelay (DAHLEN * 3); EvString txok]
    /\ flags w' = flags w /\ user w' = user w.
Proof.
  rewrite (command_body_prefix _ _ _ _ _ Hscript).
  assert (Hlk : (if negb (flags w CONFLOCK)
                 then lockable_commands fuel (ch "P") else ret (ch "P"))
                = ret (ch "P"))
    by (destruct (flags w CONFLOCK); reflexivity).
  rewrite Hlk, bind_ret.
  change (ch "P" =? 0) with false. cbn [negb].
  change (anytime_commands fuel (ch "P") (wrap16 (YACKSECS DEFTIMEOUT)))
    with (pitch fuel;; ret (TRUE, wrap16 (YACKSECS DEFTIMEOUT))).
  rewrite bind_bind. unfold bind at 1.
  set (w1 := polled rest [EvIambic OFF; EvBeat; EvFlag CONFLOCK] w).
  rewrite (pitch_returns_when_quiet bursts quiet fuel w1 restk);
    [|exact Hbursts|exact Hquiet|exact Hten|exact Hlatch|exact Hcalm
     |exact Hkeys|exact Hfuel].
  rewrite bind_ret. change (TRUE =? TRUE) with true. cbv iota.
  pose proof (pitch_cycles_world_trace (burst_cycles bursts ++ quiet) w1) as Htr.
  destruct (pitch_cycles_world_config (burst_cycles bursts ++ quiet) w1)
    as [Hfl Hus].
  revert Htr Hfl Hus.
  generalize (pitch_cycles_world (burst_cycles bursts ++ quiet) w1).
  intros [r2 bi2 bt2 fl2 us2 sp2 ck2 si2 sb2 sk2 tr2].
  cbn [trace flags user w1 polled]. intros -> -> ->.
  eexists. split; [reflexivity|].
  cbn [trace flags user set_trace]. rewrite <- ?app_assoc. cbn [app].
  rewrite <- ?app_assoc. cbn [app].
  repeat split; reflexivity.
Qed.

(** ** More on the beacon *)

(** A call with the interval zero does nothing but load it. *)
Lemma beacon_play_off fuel w :
  loaded_interval w = 0 ->
  beacon fuel PLAY w
  = Some (tt, beacon_world 0 (beacon_timer w) (load_events w) w).
Proof.
  intros Hz. unfold loaded_interval, load_events in *.
  destruct w as [r bi bt fl us sp ck si sb sk tr].
  cbn [beacon_interval beacon_timer user] in *.
  unfold beacon, beacon_world. run.
  destruct (Z.eqb_spec bi 65000) as [Hbi|Hbi]; run.
  - rewrite Hz. same_world.
  - subst bi. same_world.
Qed.

(** X10: a stored interval of zero switches the beacon off: however
    often the main loop calls [beacon(PLAY)], nothing is played, the
    sleep mode is never inhibited, the one-second counter does not move,
    and the only call made is the one read that loads the interval. *)
Theorem beacon_off_when_zero (n : nat) (w : World)
    (Hzero : loaded_interval w = 0) :
  beacon_ticks (S n) w
  = Some (0%nat, beacon_world 0 (beacon_timer w) (load_events w) w).
Proof.
  revert w Hzero. induction n as [|n IH]; intros w Hz.
  - rewrite (beacon_ticks_one w _ (beacon_play_off 0 w Hz)).
    unfold tick_expires. rewrite Hz. reflexivity.
  - change (S (S n)) with (1 + S n)%nat.
    rewrite (beacon_ticks_add 1 (S n) w _ _ 0%nat _
               (beacon_ticks_one w _ (beacon_play_off 0 w Hz))
               (IH (beacon_world 0 (beacon_timer w) (load_events w) w)
                  eq_refl)).
    unfold tick_expires. rewrite Hz. cbn [Z.eqb negb andb Nat.add].
    cbn [beacon_world beacon_timer load_events beacon_interval Z.eqb].
    rewrite beacon_world_twice, app_nil_r. reflexivity.
Qed.

(** The seconds of an interval: from the interval [j + 1] the counter
    runs down and expires [j] times without playback. *)
Lemma beacon_seconds j : forall tn sn w,
  beacon_interval w = Z.of_nat (S j) -> Z.of_nat (S j) < 65000 ->
  beacon_timer w = Z.of_nat tn -> Z.of_nat tn < 65536 ->
  wrap16 (YACKSECS 1) = Z.of_nat sn ->
  beacon_ticks (tn + j * (1 + sn)) w
  = Some (j, beacon_world 1 0
               (concat (repeat power_events (tn + j * (1 + sn)))) w).
Proof.
  induction j as [|j IH]; intros tn sn w Hi Hlt Ht Htn Hs.
  - rewrite Nat.mul_0_l, Nat.add_0_r.
    rewrite beacon_countdown; rewrite ?Hi; auto; lia.
  - pose proof (wrap16_range (YACKSECS 1)) as Hsr.
    pose proof (beacon_countdown tn w ltac:(lia) ltac:(lia) Ht Htn) as Ha.
    rewrite Hi in Ha.
    set (wa := beacon_world (Z.of_nat (S (S j))) 0
                 (concat (repeat power_events tn)) w) in *.
    pose proof (beacon_play_expires 0 wa) as Hb.
    rewrite (loaded_interval_plain wa), (load_events_plain wa) in Hb
      by (cbn [wa beacon_world beacon_interval]; lia).
    cbn [wa beacon_world beacon_interval beacon_timer] in Hb.
    replace (Z.of_nat (S (S j)) - 1) with (Z.of_nat (S j)) in Hb by lia.
    rewrite (wrap16_small (Z.of_nat (S j))) in Hb by lia.
    specialize (Hb ltac:(lia) eq_refl ltac:(lia)).
    fold (beacon_world (Z.of_nat (S (S j))) 0
            (concat (repeat power_events tn)) w) in Hb.
    fold wa in Hb. cbn [app] in Hb.
    set (wb := beacon_world (Z.of_nat (S j)) (wrap16 (YACKSECS 1))
                 power_events wa) in *.
    pose proof (IH sn sn wb eq_refl ltac:(lia) Hs ltac:(lia) Hs) as Hc.
    replace (tn + S j * (1 + sn))%nat
      with (tn + (1 + (sn + j * (1 + sn))))%nat by lia.
    assert (He : tick_expires wa = true).
    { unfold tick_expires.
      rewrite (loaded_interval_plain wa)
        by (cbn [wa beacon_world beacon_interval]; lia).
      cbn [wa beacon_world beacon_interval beacon_timer].
      destruct (Z.eqb_spec (Z.of_nat (S (S j))) 0); [lia|reflexivity]. }
    rewrite (beacon_ticks_add tn _ w 0%nat wa _ _ Ha
               (beacon_ticks_add 1 _ wa _ wb j _
                  (beacon_ticks_one _ _ Hb) Hc)).
    rewrite He. cbn [Nat.add]. f_equal. f_equal.
    unfold wb, wa. rewrite !beacon_world_twice.
    rewrite !concat_repeat_add. cbn [repeat concat]. rewrite ?app_nil_r.
    rewrite ?concat_repeat_add, <- ?app_assoc. reflexivity.
Qed.

(** X11: the timing of the beacon for any interval.  With the interval
    loaded as [N] seconds and the one-second counter at [t], the next
    [t + (N-1) * (YACKSECS(1)+1)] calls of [beacon(PLAY)] play nothing and
    see the counter expire [N-1] times, and the call after them reads the
    interval back and plays message 4.  After a playback the counter is at
    [YACKSECS(1)], so playbacks are [N * (YACKSECS(1)+1)] calls apart;
    after the recording of a new interval the counter is at zero, so the
    first playback comes one second early. *)
Theorem beacon_plays_every_interval (fuel : nat) (w : World)
    (Hinterval : 0 < beacon_interval w < 65000)
    (Htimer : 0 <= beacon_timer w < 65536) :
  let n := Z.to_nat (beacon_timer w
                     + (beacon_interval w - 1) * (wrap16 (YACKSECS 1) + 1)) in
  exists w1 w2,
    beacon_ticks n w = Some (Z.to_nat (beacon_interval w - 1), w1)
    /\ trace w1 = trace w ++ concat (repeat power_events n)
    /\ beacon fuel PLAY w1 = Some (tt, w2)
    /\ trace w2
       = trace w1 ++ power_events ++ [EvUser READ 1 0; EvMessage PLAY 4]
    /\ beacon_interval w2 = wrap16 (user w 1)
    /\ beacon_timer w2 = wrap16 (YACKSECS 1).
Proof.
  intros n.
  pose proof (wrap16_range (YACKSECS 1)) as Hsr.
  set (j := Z.to_nat (beacon_interval w - 1)).
  set (tn := Z.to_nat (beacon_timer w)).
  set (sn := Z.to_nat (wrap16 (YACKSECS 1))).
  assert (Hn : n = (tn + j * (1 + sn))%nat) by (unfold n, j, tn, sn; nia).
  set (w1 := beacon_world 1 0 (concat (repeat power_events n)) w).
  assert (Hfire :
    beacon fuel PLAY w1
    = Some (tt, beacon_world (wrap16 (user w1 1)) (wrap16 (YACKSECS 1))
                  (load_events w1 ++ power_events
                   ++ [EvUser READ 1 0; EvMessage PLAY 4]) w1)).
  { apply beacon_play_fires.
    - rewrite loaded_interval_plain by (cbn; lia). cbn. lia.
    - reflexivity.
    - rewrite loaded_interval_plain by (cbn; lia). reflexivity. }
  rewrite (load_events_plain w1) in Hfire by (cbn; lia). cbn [app] in Hfire.
  exists w1. eexists.
  split.
  { rewrite Hn. unfold w1. rewrite Hn.
    apply beacon_seconds; unfold j, tn, sn; lia. }
  split; [reflexivity|].
  split; [exact Hfire|].
  cbn [beacon_world w1 trace beacon_interval beacon_timer user].
  repeat split; reflexivity.
Qed.

(** A call with the loaded interval above the dummy value 65000. *)
Lemma beacon_play_above fuel w :
  65000 < loaded_interval w < 65536 ->
  exists interval timer,
    beacon fuel PLAY w
    = Some (tt, beacon_world interval timer (load_events w ++ power_events) w)
    /\ 65000 <= interval < 65536.
Proof.
  intros Hl. destruct (Z.eq_dec (beacon_timer w) 0) as [Ht|Ht].
  - exists (wrap16 (loaded_interval w - 1)), (wrap16 (YACKSECS 1)).
    rewrite (wrap16_small (loaded_interval w - 1)) by lia.
    split; [|lia].
    rewrite <- (wrap16_small (loaded_interval w - 1)) at 1 by lia.
    apply beacon_play_expires; [lia|exact Ht|].
    rewrite wrap16_small by lia. lia.
  - exists (loaded_interval w), (wrap16 (beacon_timer w - 1)).
    split; [|lia]. apply beacon_play_counts; [lia|exact Ht].
Qed.

Lemma waiting_load_power w :
  Forall (fun e => waiting_call e = true) (load_events w ++ power_events).
Proof.
  unfold load_events, power_events.
  destruct (beacon_interval w =? 65000), POWERSAVE; repeat constructor.
Qed.

(** X12: the dummy value 65000 of the interval can be reached, and it
    traps the beacon.  When the stored interval is above 65000, the
    countdown of the seconds comes to 65000, where the next call takes
    the interval for not yet loaded and reads the stored one again: the
    interval never comes to zero, and however many calls are made, message
    4 is never played. *)
Theorem beacon_trapped_above_dummy (n : nat) (w : World)
    (Hstored : 65000 < wrap16 (user w 1))
    (Hinterval : 65000 <= beacon_interval w < 65536) :
  exists k w' evs,
    beacon_ticks n w = Some (k, w')
    /\ trace w' = trace w ++ evs
    /\ Forall (fun e => waiting_call e = true) evs
    /\ 65000 <= beacon_interval w' < 65536.
Proof.
  revert w Hstored Hinterval. induction n as [|n IH]; intros w Hs Hi.
  - exists 0%nat, w, []. rewrite app_nil_r.
    repeat split; [constructor|lia|lia].
  - pose proof (wrap16_range (user w 1)) as Hu.
    assert (Hl : 65000 < loaded_interval w < 65536).
    { unfold loaded_interval.
      destruct (Z.eqb_spec (beacon_interval w) 65000); lia. }
    destruct (beacon_play_above 0 w Hl) as (i1 & t1 & H1 & Hi1).
    set (w1 := beacon_world i1 t1 (load_events w ++ power_events) w) in *.
    destruct (IH w1 Hs Hi1) as (k & w' & evs & Hrun & Htr & Hev & Hi').
    change (S n) with (1 + n)%nat.
    eexists _, w', ((load_events w ++ power_events) ++ evs).
    split; [exact (beacon_ticks_add 1 n w _ w1 k w'
                     (beacon_ticks_one w w1 H1) Hrun)|].
    split; [rewrite Htr; cbn [w1 beacon_world trace];
            rewrite <- !app_assoc; reflexivity|].
    split; [|exact Hi'].
    apply Forall_app. split; [apply waiting_load_power|exact Hev].
Qed.

(** Up to four digits do not overflow the 16-bit accumulator. *)
Lemma accumulate_small ds : forall acc n,
  Forall (fun d => is_digit d = true) ds ->
  0 <= acc < 10 ^ Z.of_nat n -> (n + List.length ds <= 4)%nat ->
  fold_left (fun acc d => wrap16 (wrap16 (acc * 10) + (d - ch "0"))) ds acc
  = fold_left (fun acc d => acc * 10 + (d - ch "0")) ds acc
  /\ 0 <= fold_left (fun acc d => acc * 10 + (d - ch "0")) ds acc
     < 10 ^ Z.of_nat (n + List.length ds).
Proof.
  induction ds as [|d ds IH]; intros acc n Hd Hacc Hlen.
  - cbn [fold_left List.length]. rewrite Nat.add_0_r. split; [reflexivity|lia].
  - inversion Hd as [|? ? Hd1 Hd2]; subst. cbn [fold_left List.length] in *.
    unfold is_digit in Hd1. apply andb_true_iff in Hd1 as [Hge Hle].
    apply Z.geb_le in Hge. apply Z.leb_le in Hle.
    change (ch "0") with 48 in *. change (ch "9") with 57 in *.
    assert (Hpow : 10 ^ Z.of_nat (S n) = 10 * 10 ^ Z.of_nat n)
      by (rewrite Nat2Z.inj_succ, Z.pow_succ_r by lia; reflexivity).
    assert (Hmax : 10 ^ Z.of_nat (S n) <= 10 ^ 4)
      by (apply Z.pow_le_mono_r; lia).
    change (10 ^ 4) with 10000 in Hmax.
    rewrite (wrap16_small (acc * 10)) by lia.
    rewrite (wrap16_small (acc * 10 + (d - 48))) by lia.
    replace (n + S (List.length ds))%nat with (S n + List.length ds)%nat by lia.
    apply IH; [exact Hd2|lia|lia].
Qed.

Lemma besides_polling_record m : besides_polling (record_polls m) = [].
Proof.
  unfold record_polls. induction m as [|m IH]; [reflexivity|].
  cbn [repeat concat app besides_polling filter]. exact IH.
Qed.

(** The record mode leaves no digit of the run undecoded. *)
Lemma beacon_record_consumes ds fuel w w' :
  Forall (fun d => is_digit d = true) ds ->
  script_iambic w = ds ->
  wrap16 (wrap16 (YACKSECS DEFTIMEOUT) - 1) <> 0 ->
  (List.length ds + Z.to_nat (wrap16 (wrap16 (YACKSECS DEFTIMEOUT) - 1))
   <= fuel)%nat ->
  beacon fuel RECORD w = Some (tt, w') ->
  script_iambic w' = [].
Proof.
  intros Hd Hs HT Hfuel.
  destruct w as [r bi bt fl us sp ck si sb sk tr].
  cbn [script_iambic] in Hs. subst si.
  unfold beacon. run.
  destruct (Z.eqb_spec bi 65000) as [Hbi|Hbi]; run;
    repeat (rewrite bind_bind; run);
    unfold bind at 1;
    (rewrite (record_run ds fuel); [|exact Hd|reflexivity..|exact HT|exact Hfuel]);
    unfold recorded; run; repeat (rewrite bind_bind; run);
    destruct ((accumulate ds >=? 0) && (accumulate ds <=? 9999)); run;
    repeat (rewrite bind_bind; run);
    intros H; injection H as <-; reflexivity.
Qed.

(** Up to four digits spell a number below 10000, and the accumulator
    holds it. *)
Lemma accumulate_decimal ds :
  Forall (fun d => is_digit d = true) ds -> (List.length ds <= 4)%nat ->
  accumulate ds = decimal ds /\ 0 <= decimal ds <= 9999.
Proof.
  intros Hd Hlen.
  destruct (accumulate_small ds 0 0 Hd ltac:(cbn; lia) ltac:(lia))
    as [Hacc Hrange].
  fold (accumulate ds) in Hacc. fold (decimal ds) in Hacc, Hrange.
  assert (Hmax : 10 ^ Z.of_nat (0 + List.length ds) <= 10 ^ 4)
    by (apply Z.pow_le_mono_r; lia).
  change (10 ^ 4) with 10000 in Hmax.
  split; [exact Hacc|lia].
Qed.

(** The record mode on up to four digits followed by silence. *)
Lemma beacon_record_short ds fuel w :
  Forall (fun d => is_digit d = true) ds -> (List.length ds <= 4)%nat ->
  script_iambic w = ds ->
  wrap16 (wrap16 (YACKSECS DEFTIMEOUT) - 1) <> 0 ->
  (List.length ds + Z.to_nat (wrap16 (wrap16 (YACKSECS DEFTIMEOUT) - 1))
   <= fuel)%nat ->
  exists w',
    beacon fuel RECORD w = Some (tt, w')
    /\ user w' 1 = decimal ds
    /\ beacon_interval w' = decimal ds
    /\ script_iambic w' = []
    /\ trace w'
       = trace w ++ load_events w ++ [EvChar (ch "N")]
         ++ record_polls
              (List.length ds
               + Z.to_nat (wrap16 (wrap16 (YACKSECS DEFTIMEOUT) - 1)))
         ++ [EvUser WRITE 1 (decimal ds); EvNumber (decimal ds)].
Proof.
  intros Hdigits Hfour Hscript Htimeout Hfuel.
  destruct (accumulate_decimal ds Hdigits Hfour) as [Hacc Hrange].
  destruct (beacon_record_digits ds fuel w Hdigits Hscript Htimeout Hfuel)
    as (w' & Hrun & Hi & Htr & Hu).
  pose proof (beacon_record_consumes ds fuel w w' Hdigits Hscript Htimeout
                Hfuel Hrun) as Hrest.
  rewrite Hacc in Hi, Htr, Hu.
  destruct (Z.leb_spec (decimal ds) 9999) as [_|]; [|lia].
  exists w'. repeat split; assumption.
Qed.

(** X13: up to four digits keyed after 'N' are stored as the number they
    spell: it is written to user word 1 and spoken, it is the interval
    the beacon works with from then on, and no error indication is given.
    No digit at all stores zero, which switches the beacon off.  All the
    digits are decoded. *)
Theorem beacon_record_stores (ds : list Z) (fuel : nat) (w : World)
    (Hdigits : Forall (fun d => is_digit d = true) ds)
    (Hfour : (List.length ds <= 4)%nat)
    (Hscript : script_iambic w = ds)
    (Htimeout : wrap16 (wrap16 (YACKSECS DEFTIMEOUT) - 1) <> 0)
    (Hfuel : (List.length ds
              + Z.to_nat (wrap16 (wrap16 (YACKSECS DEFTIMEOUT) - 1))
              <= fuel)%nat) :
  0 <= decimal ds <= 9999
  /\ exists w',
       beacon fuel RECORD w = Some (tt, w')
       /\ user w' 1 = decimal ds
       /\ beacon_interval w' = decimal ds
       /\ script_iambic w' = []
       /\ besides_polling (trace w')
          = besides_polling (trace w) ++ load_events w
            ++ [EvChar (ch "N"); EvUser WRITE 1 (decimal ds);
                EvNumber (decimal ds)].
Proof.
  split; [apply (accumulate_decimal ds Hdigits Hfour)|].
  destruct (beacon_record_short ds fuel w Hdigits Hfour Hscript Htimeout Hfuel)
    as (w' & Hrun & Hu & Hi & Hrest & Htr).
  exists w'. split; [exact Hrun|]. split; [exact Hu|]. split; [exact Hi|].
  split; [exact Hrest|].
  rewrite Htr. unfold besides_polling. rewrite !filter_app.
  fold (besides_polling (record_polls
          (List.length ds
           + Z.to_nat (wrap16 (wrap16 (YACKSECS DEFTIMEOUT) - 1))))).
  rewrite besides_polling_record. f_equal. f_equal.
  unfold load_events. destruct (beacon_interval w =? 65000); reflexivity.
Qed.

(** ** More on the callsign trainer *)

(** A round in which the callsign is keyed back without a mistake. *)
Lemma train_round_perfect fuel c0 c1 c2 c3 c4 rest w :
  unpressed w ->
  script_iambic w = [c0; c1; c2; c3; c4] ++ rest ->
  Forall (fun c => c <> 0) [c0; c1; c2; c3; c4] ->
  wrap16 (wrap16 (YACKSECS TRAINTIMEOUT) - 1) <> 0 ->
  train_round (6 + fuel) [c0; c1; c2; c3; c4] 0 w
  = Some (true,
          trained (lfsr_reg w) rest
            (present_events [c0; c1; c2; c3; c4]
             ++ concat (repeat (decode_events ++ [EvCtrlKey TRUE]) 5)) w).
Proof.
  intros Hw Hs Hnz HT.
  inversion Hnz as [|? ? H0 Hnz1]; subst.
  inversion Hnz1 as [|? ? H1 Hnz2]; subst.
  inversion Hnz2 as [|? ? H2 Hnz3]; subst.
  inversion Hnz3 as [|? ? H3 Hnz4]; subst.
  inversion Hnz4 as [|? ? H4 _]; subst.
  cbn [app] in Hs.
  change (6 + fuel)%nat with (S (S (4 + fuel))).
  rewrite (train_round_first _ _ _ _ _ _ _ c0 _ Hw Hs H0 HT).
  unfold bind at 1. rewrite check_char_right by (try reflexivity; lia).
  change (0 + 1) with 1.
  change (S (4 + fuel)) with (S (S (3 + fuel))).
  rewrite (train_round_next _ _ _ _ c1 (c2 :: c3 :: c4 :: rest));
    [|apply trained_unpressed|reflexivity|exact H1|lia|exact HT].
  unfold bind at 1. rewrite check_char_right by (try reflexivity; lia).
  change (1 + 1) with 2.
  change (S (3 + fuel)) with (S (S (2 + fuel))).
  rewrite (train_round_next _ _ _ _ c2 (c3 :: c4 :: rest));
    [|apply trained_unpressed|reflexivity|exact H2|lia|exact HT].
  unfold bind at 1. rewrite check_char_right by (try reflexivity; lia).
  change (2 + 1) with 3.
  change (S (2 + fuel)) with (S (S (1 + fuel))).
  rewrite (train_round_next _ _ _ _ c3 (c4 :: rest));
    [|apply trained_unpressed|reflexivity|exact H3|lia|exact HT].
  unfold bind at 1. rewrite check_char_right by (try reflexivity; lia).
  change (3 + 1) with 4.
  change (S (1 + fuel)) with (S (S fuel)).
  rewrite (train_round_next _ _ _ _ c4 rest);
    [|apply trained_unpressed|reflexivity|exact H4|lia|exact HT].
  unfold bind at 1. rewrite check_char_right by (try reflexivity; lia).
  change (4 + 1) with 5.
  rewrite train_round_done.
  rewrite !trained_twice.
  cbn [trained lfsr_reg repeat concat].
  rewrite <- !app_assoc. cbn [app]. rewrite <- ?app_assoc.
  rewrite ?app_nil_r. reflexivity.
Qed.

(** [k] rounds keyed back without a mistake. *)
Lemma cstrain_loop_perfect k : forall fuel call w rest,
  List.length call = 5%nat -> unpressed w ->
  script_iambic w = concat (callsigns k (lfsr_reg w)) ++ rest ->
  wrap16 (wrap16 (YACKSECS TRAINTIMEOUT) - 1) <> 0 ->
  (6 <= fuel)%nat ->
  exists call',
    List.length call' = 5%nat
    /\ cstrain_loop (k + fuel) call w
       = cstrain_loop fuel call'
           (trained (Nat.iter (5 * k) lfsr_next (lfsr_reg w)) rest
              (flat_map perfect_round (callsigns k (lfsr_reg w))) w).
Proof.
  induction k as [|k IH]; intros fuel call w rest Hlen Hw Hs HT Hfuel.
  - exists call. split; [exact Hlen|]. cbn [Nat.add Nat.mul callsigns flat_map].
    cbn [callsigns concat app] in Hs. f_equal.
    destruct Hw as [Hck Hb]. destruct w. cbn in *. subst.
    unfold trained. cbn. rewrite app_nil_r. reflexivity.
  - destruct Hw as [Hck Hb]. destruct w as [s bi bt fl us sp ck si sb sk tr].
    cbn [cklatch script_button script_iambic lfsr_reg] in Hck, Hb, Hs |- *.
    subst ck sb. cbn [callsigns concat flat_map] in Hs |- *.
    rewrite <- app_assoc in Hs. subst si.
    cbn [Nat.add cstrain_loop]. unfold bind at 1.
    rewrite call_rndcall_result by exact Hlen.
    cbn [lfsr_reg set_lfsr_reg].
    unfold bind at 1.
    pose proof (callsign_of_nonzero s) as Hnz.
    replace (train_round (k + fuel))
      with (train_round (6 + (k + fuel - 6))) by (f_equal; lia).
    unfold callsign_of in Hnz |- * at 1 2 3. cbv zeta in Hnz |- *.
    rewrite (train_round_perfect _ _ _ _ _ _
               (concat (callsigns k (Nat.iter 5 lfsr_next s)) ++ rest));
      [|split; reflexivity|reflexivity|exact Hnz|exact HT].
    unfold bind at 1, yackchar. rewrite trained_emit.
    match goal with
    | |- context [cstrain_loop (k + fuel) ?c ?w1] =>
        destruct (IH fuel c w1 rest eq_refl (trained_unpressed _ _ _ _))
          as (call' & Hl' & Hrun)
    end; [reflexivity|exact HT|exact Hfuel|].
    exists call'. split; [exact Hl'|].
    rewrite Hrun. f_equal.
    rewrite trained_twice.
    unfold trained, perfect_round, callsign_of.
    cbn [lfsr_reg beacon_interval beacon_timer flags user wpm script_keyinp
         trace].
    replace (5 * S k)%nat with (5 * k + 5)%nat by lia.
    rewrite Nat.iter_add. cbv zeta.
    rewrite <- !app_assoc. reflexivity.
Qed.

(** The round in which nothing is keyed ends the session. *)
Lemma cstrain_loop_idle fuel call w :
  List.length call = 5%nat -> unpressed w -> script_iambic w = [] ->
  (Z.to_nat (wrap16 (wrap16 (YACKSECS TRAINTIMEOUT) - 1)) + 3 <= fuel)%nat ->
  cstrain_loop fuel call w
  = Some (tt,
          trained (Nat.iter 5 lfsr_next (lfsr_reg w)) []
            (present_events (callsign_of (lfsr_reg w))
             ++ idle_events
                  (Z.to_nat (wrap16 (wrap16 (YACKSECS TRAINTIMEOUT) - 1))))
            w).
Proof.
  intros Hlen Hw Hs Hfuel.
  pose proof (wrap16_range (wrap16 (YACKSECS TRAINTIMEOUT) - 1)) as Hr.
  set (m := Z.to_nat (wrap16 (wrap16 (YACKSECS TRAINTIMEOUT) - 1))) in *.
  assert (Hm : wrap16 (wrap16 (YACKSECS TRAINTIMEOUT) - 1) = Z.of_nat m)
    by (unfold m; lia).
  destruct fuel as [|f1]; [lia|]. destruct f1 as [|f2]; [lia|].
  cbn [cstrain_loop]. unfold bind at 1.
  rewrite call_rndcall_result by exact Hlen.
  unfold bind at 1. unfold callsign_of at 1. cbv zeta.
  rewrite (train_round_idle m);
    [|destruct Hw, w; split; assumption|destruct w; exact Hs|exact Hm|lia].
  destruct Hw as [Hck Hb]. destruct w. cbn in Hck, Hb, Hs. subst.
  unfold ret, trained, callsign_of.
  cbn [lfsr_reg beacon_interval beacon_timer flags user wpm script_keyinp
       trace set_lfsr_reg].
  reflexivity.
Qed.


(** The presentation is cut short at the character after which the
    command button is found pressed. *)
Lemma play_call_pressed j : forall k n call w,
  cklatch w = false -> calm j (script_button w) ->
  pressed_at j (script_button w) -> (j < k)%nat ->
  0 <= n -> n + Z.of_nat j < 5 ->
  play_call k n call w
  = Some (true,
          mkWorld (lfsr_reg w) (beacon_interval w) (beacon_timer w) (flags w)
            (user w) (wpm w) false (script_iambic w)
            (skipn (S j) (script_button w)) (script_keyinp w)
            (trace w
             ++ flat_map (fun i => [EvChar (nth i call 0); EvFarns;
                                    EvCtrlKey TRUE])
                  (seq (Z.to_nat n) (S j)))).
Proof.
  induction j as [|j IH]; intros k n call w Hck Hcalm Hp Hk Hn Hn5;
    (destruct k as [|k]; [lia|]);
    destruct w as [r bi bt fl us sp ck si sb sk tr];
    cbn [cklatch script_button] in Hck, Hcalm, Hp; subst ck;
    cbn [play_call]; (destruct (Z.ltb_spec n 5) as [_|]; [|lia]); run;
    change (TRUE =? TRUE) with true; cbv iota.
  - unfold pressed_at in Hp. destruct sb as [|b sb]; [discriminate|].
    cbn [nth] in Hp. subst b. run. cbn [seq flat_map app skipn].
    unfold ret. rewrite <- !app_assoc. reflexivity.
  - rewrite (calm_hd _ _ Hcalm). run.
    rewrite (wrap8_small (n + 1)) by lia.
    rewrite IH; [|reflexivity| | |lia|lia|lia].
    + cbn [lfsr_reg beacon_interval beacon_timer flags user wpm script_iambic
           script_button script_keyinp trace].
      replace (Z.to_nat (n + 1)) with (S (Z.to_nat n)) by lia.
      cbn [seq flat_map]. rewrite <- !app_assoc. cbn [app].
      destruct sb; reflexivity.
    + cbn [script_button].
      destruct sb; [intros i _; destruct i; reflexivity|].
      exact (calm_tl _ _ Hcalm).
    + cbn [script_button]. unfold pressed_at in *.
      destruct sb; [discriminate|exact Hp].
Qed.

(** X15: the command button ends a trainer session during the
    presentation.  When it is found pressed after character number
    [j + 1] of the callsign, the presentation stops there and [cstrain]
    returns: the rest of the callsign is not sent, nothing is decoded, no
    error indication or acknowledgement is given.  The press is used up,
    so command mode goes on. *)
Theorem cstrain_aborts_presentation (j fuel : nat) (w : World)
    (Hlatch : cklatch w = false)
    (Hcalm : calm j (script_button w))
    (Hpress : pressed_at j (script_button w))
    (Hj : (j < 5)%nat) (Hfuel : (2 <= fuel)%nat) :
  exists w',
    cstrain fuel w = Some (tt, w')
    /\ trace w'
       = trace w
         ++ EvDelay (2 * IWGLEN)
            :: flat_map (fun c => [EvChar c; EvFarns; EvCtrlKey TRUE])
                 (firstn (S j) (callsign_of (lfsr_reg w)))
    /\ script_iambic w' = script_iambic w
    /\ script_button w' = skipn (S j) (script_button w)
    /\ cklatch w' = false
    /\ lfsr_reg w' = Nat.iter 5 lfsr_next (lfsr_reg w).
Proof.
  destruct fuel as [|f1]; [lia|]. destruct f1 as [|f2]; [lia|].
  destruct w as [r bi bt fl us sp ck si sb sk tr].
  cbn [cklatch script_button lfsr_reg trace script_iambic] in *. subst ck.
  unfold cstrain. cbn [cstrain_loop]. unfold bind at 1.
  rewrite call_rndcall_result by reflexivity.
  cbn [lfsr_reg set_lfsr_reg].
  unfold bind at 1. cbn [train_round].
  change (0 <? 5) with true. change (0 =? 0) with true. cbv iota.
  rewrite bind_bind. run. unfold bind at 1.
  rewrite (play_call_pressed j); [|reflexivity|exact Hcalm|exact Hpress|lia|lia|lia].
  run. eexists. split; [reflexivity|].
  cbn [trace script_iambic script_button cklatch lfsr_reg].
  repeat split.
  rewrite <- app_assoc. cbn [app]. do 2 f_equal.
  unfold callsign_of. cbv zeta.
  do 5 (destruct j as [|j]; [reflexivity|]). lia.
Qed.

(** X16: the beacon is programmed from command mode.  With the
    configuration unlocked, 'N' followed by up to four digits and silence
    makes one pass of the command loop: the record mode of the beacon
    takes the digits from the decoder, stores the number they spell in
    user word 1 and speaks it, and the pass ends with save, delay and the
    acknowledgement "R"; the exit timer is restarted. *)
Theorem command_programs_beacon (ds : list Z) (fuel : nat) (timer : Z)
    (w : World)
    (Hunlocked : flags w CONFLOCK = false)
    (Hscript : script_iambic w = ch "N" :: ds)
    (Hdigits : Forall (fun d => is_digit d = true) ds)
    (Hfour : (List.length ds <= 4)%nat)
    (Htimeout : wrap16 (wrap16 (YACKSECS DEFTIMEOUT) - 1) <> 0)
    (Hfuel : (List.length ds
              + Z.to_nat (wrap16 (wrap16 (YACKSECS DEFTIMEOUT) - 1))
              <= fuel)%nat) :
  exists w',
    command_body fuel timer w = Some (wrap16 (YACKSECS DEFTIMEOUT), w')
    /\ user w' 1 = decimal ds
    /\ beacon_interval w' = decimal ds
    /\ script_iambic w' = []
    /\ besides_polling (trace w')
       = besides_polling (trace w) ++ [EvFlag CONFLOCK] ++ load_events w
         ++ [EvChar (ch "N"); EvUser WRITE 1 (decimal ds);
             EvNumber (decimal ds);
             EvSave; EvDelay (DAHLEN * 3); EvString txok].
Proof.
  rewrite (command_body_prefix _ _ _ _ _ Hscript), Hunlocked. cbn [negb].
  change (lockable_commands fuel (ch "N")) with (beacon fuel RECORD;; ret TRUE).
  set (w1 := polled ds [EvIambic OFF; EvBeat; EvFlag CONFLOCK] w).
  destruct (beacon_record_short ds fuel w1 Hdigits Hfour eq_refl Htimeout Hfuel)
    as (w2 & Hrun & Hu & Hi & Hs2 & Htr).
  rewrite bind_bind. unfold bind at 1. rewrite Hrun.
  change (ch "N" =? 0) with false. cbn [negb].
  rewrite bind_ret.
  change (anytime_commands fuel TRUE (wrap16 (YACKSECS DEFTIMEOUT)))
    with (@ret (Z * Z) (TRUE, wrap16 (YACKSECS DEFTIMEOUT))).
  rewrite bind_ret. change (TRUE =? TRUE) with true. cbv iota.
  destruct w2 as [r bi bt fl us sp ck si sb sk tr].
  cbn [user beacon_interval trace script_iambic] in Hu, Hi, Htr, Hs2.
  eexists. split; [reflexivity|].
  cbn [user beacon_interval trace script_iambic set_trace].
  split; [exact Hu|]. split; [exact Hi|]. split; [exact Hs2|].
  unfold besides_polling. rewrite !filter_app, Htr.
  cbn [w1 polled trace]. rewrite !filter_app.
  fold (besides_polling (record_polls
          (List.length ds
           + Z.to_nat (wrap16 (wrap16 (YACKSECS DEFTIMEOUT) - 1))))).
  rewrite besides_polling_record.
  replace (filter _ (load_events w1)) with (load_events w)
    by (unfold load_events; cbn [w1 polled beacon_interval];
        destruct (beacon_interval w =? 65000); reflexivity).
  cbn [filter app]. rewrite <- !app_assoc. reflexivity.
Qed.

(** ** Every loop comes to its end *)

Lemma inputs_kept_refl w : inputs_kept w w.
Proof. split; apply Nat.le_refl. Qed.

Lemma inputs_kept_trans a b c :
  inputs_kept a b -> inputs_kept b c -> inputs_kept a c.
Proof. unfold inputs_kept. lia. Qed.

Lemma length_tl_le {A : Type} (l : list A) :
  (List.length (tl l) <= List.length l)%nat.
Proof. destruct l; cbn; lia. Qed.

Ltac inputs_prim :=
  prim_kept; unfold inputs_kept; cbn [script_iambic script_keyinp];
  split; first [apply Nat.le_refl|apply length_tl_le].

Lemma call_lfsr_inputs_kept n : keeps inputs_kept (call_lfsr n).
Proof.
  intros [r bi bt fl us sp ck si sb sk tr] a w' H. unfold call_lfsr in H.
  cbn [lfsr_reg] in H. destruct (lfsr n r) as [[x s']|]; [|discriminate].
  injection H as _ <-. split; apply Nat.le_refl.
Qed.

Lemma call_rndcall_inputs_kept call : keeps inputs_kept (call_rndcall call).
Proof.
  intros [r bi bt fl us sp ck si sb sk tr] a w' H. unfold call_rndcall in H.
  cbn [lfsr_reg] in H. destruct (rndcall call r) as [[x s']|]; [|discriminate].
  injection H as _ <-. split; apply Nat.le_refl.
Qed.

Create HintDb inputs_db.
#[local] Hint Resolve call_lfsr_inputs_kept call_rndcall_inputs_kept : inputs_db.

Ltac inputs_go :=
  keeps_go inputs_kept_refl inputs_kept_trans ltac:(auto with inputs_db)
    ltac:(inputs_prim).

Lemma pitch_loop_inputs_kept fuel :
  forall timer, keeps inputs_kept (pitch_loop fuel timer).
Proof. induction fuel; intros timer; cbn [pitch_loop]; inputs_go. Qed.

Lemma setfarns_loop_inputs_kept fuel :
  forall timer, keeps inputs_kept (setfarns_loop fuel timer).
Proof. induction fuel; intros timer; cbn [setfarns_loop]; inputs_go. Qed.

Lemma play_call_inputs_kept k :
  forall n call, keeps inputs_kept (play_call k n call).
Proof. induction k; intros n call; cbn [play_call]; inputs_go. Qed.

Lemma await_char_inputs_kept fuel :
  forall timer, keeps inputs_kept (await_char fuel timer).
Proof. induction fuel; intros timer; cbn [await_char]; inputs_go. Qed.

Lemma check_char_inputs_kept call i c : keeps inputs_kept (check_char call i c).
Proof. unfold check_char. inputs_go. Qed.

#[local] Hint Resolve pitch_loop_inputs_kept setfarns_loop_inputs_kept
  play_call_inputs_kept await_char_inputs_kept check_char_inputs_kept
  : inputs_db.

Lemma train_round_inputs_kept fuel :
  forall call i, keeps inputs_kept (train_round fuel call i).
Proof. induction fuel; intros call i; cbn [train_round]; inputs_go. Qed.

#[local] Hint Resolve train_round_inputs_kept : inputs_db.

Lemma cstrain_loop_inputs_kept fuel :
  forall call, keeps inputs_kept (cstrain_loop fuel call).
Proof. induction fuel; intros call; cbn [cstrain_loop]; inputs_go. Qed.

Lemma beacon_record_loop_inputs_kept fuel :
  keeps inputs_kept (beacon_record_loop fuel).
Proof. induction fuel; cbn [beacon_record_loop]; inputs_go. Qed.

#[local] Hint Resolve cstrain_loop_inputs_kept beacon_record_loop_inputs_kept
  : inputs_db.

Lemma beacon_inputs_kept fuel mode : keeps inputs_kept (beacon fuel mode).
Proof. unfold beacon. inputs_go. Qed.

#[local] Hint Resolve beacon_inputs_kept : inputs_db.

Lemma lockable_commands_inputs_kept fuel c :
  keeps inputs_kept (lockable_commands fuel c).
Proof. unfold lockable_commands, setfarns. inputs_go. Qed.

Lemma anytime_commands_inputs_kept fuel c timer :
  keeps inputs_kept (anytime_commands fuel c timer).
Proof. unfold anytime_commands, pitch, cstrain. inputs_go. Qed.

#[local] Hint Resolve lockable_commands_inputs_kept
  anytime_commands_inputs_kept : inputs_db.

Lemma command_body_inputs_kept fuel timer :
  keeps inputs_kept (command_body fuel timer).
Proof. unfold command_body. inputs_go. Qed.

#[local] Hint Resolve command_body_inputs_kept : inputs_db.

Lemma command_loop_inputs_kept fuel :
  forall timer, keeps inputs_kept (command_loop fuel timer).
Proof. induction fuel; intros timer; cbn [command_loop]; inputs_go. Qed.

#[local] Hint Resolve command_loop_inputs_kept : inputs_db.

Lemma commandmode_inputs_kept fuel : keeps inputs_kept (commandmode fuel).
Proof. unfold commandmode. inputs_go. Qed.

#[local] Hint Resolve commandmode_inputs_kept : inputs_db.

Lemma main_pass_inputs_kept fuel : keeps inputs_kept (main_pass fuel).
Proof. unfold main_pass. inputs_go. Qed.

Lemma returns_ret {A : Type} (a : A) w : returns (ret a) w.
Proof. eexists. reflexivity. Qed.

Lemma returns_bind {A B : Type} (m : M A) (f : A -> M B) w :
  returns m w ->
  (forall a w1, m w = Some (a, w1) -> returns (f a) w1) ->
  returns (bind m f) w.
Proof.
  intros [[a w1] E] Hf. unfold returns, bind. rewrite E.
  exact (Hf a w1 E).
Qed.

(** Take the first computation of a sequence that returned. *)
Ltac bind_inv H a w1 E :=
  unfold bind in H at 1;
  match type of H with
  | match ?x with _ => _ end = _ =>
      destruct x as [[a w1]|] eqn:E; [|discriminate H]
  end.

Section Quiet.

(** The idle value of the paddle register shows no contact on either
    line. *)
Hypothesis Hdit : keyed 255 DITPIN = false.
Hypothesis Hdah : keyed 255 DAHPIN = false.

Lemma pitch_loop_returns n : forall timer w,
  0 <= timer < 65536 ->
  (List.length (script_keyinp w) * Z.to_nat 65536 + Z.to_nat timer <= n)%nat ->
  returns (pitch_loop n timer) w.
Proof.
  induction n as [|n IH]; intros timer w Ht Hn; cbn [pitch_loop];
    destruct (Z.eqb_spec timer 0) as [|Hne]; try apply returns_ret; [lia|].
  destruct w as [r bi bt fl us sp ck si sb sk tr].
  cbn [script_keyinp] in Hn. unfold returns. run.
  destruct (ck || hd false sb); [apply returns_ret|].
  pose proof (wrap16_range (timer - 1)) as Hw.
  assert (Hw1 : wrap16 (timer - 1) = timer - 1) by (apply wrap16_small; lia).
  destruct sk as [|k1 sk]; cbn [List.length] in Hn; run.
  - rewrite Hdit. run. rewrite Hdah. run.
    apply IH; [lia|cbn [script_keyinp List.length]; lia].
  - destruct (keyed k1 DITPIN); run;
      (destruct sk as [|k2 sk]; cbn [List.length] in Hn; run;
       [rewrite ?Hdah|destruct (keyed k2 DAHPIN)]; run;
       (apply IH; [unfold PITCHREPEAT; lia
                  |cbn [script_keyinp List.length]; unfold PITCHREPEAT; lia])).
Qed.

Lemma setfarns_loop_returns n : forall timer w,
  0 <= timer < 256 ->
  (List.length (script_keyinp w) * Z.to_nat 256
   + Z.to_nat ((FARNSREPEAT - timer) mod 256) <= n)%nat ->
  returns (setfarns_loop n timer) w.
Proof.
  unfold FARNSREPEAT.
  induction n as [|n IH]; intros timer w Ht Hn; cbn [setfarns_loop];
    unfold FARNSREPEAT;
    destruct (Z.eqb_spec timer 10) as [|Hne]; cbn [negb];
    try apply returns_ret.
  - exfalso. destruct (Z.eq_dec ((10 - timer) mod 256) 0) as [E|E].
    + apply Z.mod_divide in E; [|lia]. destruct E as [q E]. lia.
    + pose proof (Z.mod_pos_bound (10 - timer) 256 ltac:(lia)). lia.
  - destruct w as [r bi bt fl us sp ck si sb sk tr].
    cbn [script_keyinp] in Hn. unfold returns. run.
    destruct (ck || hd false sb); [apply returns_ret|]. run.
    assert (Hstep : Z.to_nat ((10 - wrap8 (timer + 1)) mod 256)
                    = (Z.to_nat ((10 - timer) mod 256) - 1)%nat
                    /\ (0 < Z.to_nat ((10 - timer) mod 256))%nat).
    { unfold wrap8.
      destruct (Z_lt_le_dec timer 10) as [Hlt|Hge].
      - rewrite (Z.mod_small (timer + 1)), (Z.mod_small (10 - (timer + 1))),
          (Z.mod_small (10 - timer)) by lia. lia.
      - destruct (Z.eq_dec timer 255) as [->|Hn255].
        + split; vm_compute; [reflexivity|lia].
        + rewrite (Z.mod_small (timer + 1)) by lia.
          replace (10 - (timer + 1)) with (266 - (timer + 1) + -1 * 256) by lia.
          replace (10 - timer) with (266 - timer + -1 * 256) by lia.
          rewrite !Z.mod_add by lia.
          rewrite (Z.mod_small (266 - (timer + 1))),
            (Z.mod_small (266 - timer)) by lia. lia. }
    pose proof (wrap8_range (timer + 1)) as Hw.
    assert (H0 : Z.to_nat ((10 - 0) mod 256) = 10%nat) by reflexivity.
    assert (Hm : (Z.to_nat ((10 - timer) mod 256) <= 255)%nat).
    { pose proof (Z.mod_pos_bound (10 - timer) 256 ltac:(lia)). lia. }
    destruct sk as [|k1 sk]; cbn [List.length] in Hn; run.
    + rewrite Hdit. rewrite bind_bind. run. rewrite Hdah. run.
      apply IH; [lia|cbn [script_keyinp List.length]; lia].
    + destruct (keyed k1 DITPIN); run.
      * apply IH; [lia|cbn [script_keyinp List.length]; lia].
      * rewrite bind_bind.
        destruct sk as [|k2 sk]; cbn [List.length] in Hn; run;
          [rewrite ?Hdah|destruct (keyed k2 DAHPIN)]; run;
          (apply IH; [lia|cbn [script_keyinp List.length]; lia]).
Qed.

Lemma play_call_returns k : forall n call w, returns (play_call k n call) w.
Proof.
  induction k as [|k IH]; intros n call w; cbn [play_call];
    [apply returns_ret|].
  destruct (n <? 5); [|apply returns_ret].
  destruct w as [r bi bt fl us sp ck si sb sk tr]. unfold returns. run.
  destruct (ck || hd false sb); [apply returns_ret|apply IH].
Qed.

Lemma await_char_returns n : forall timer w,
  (Z.to_nat (wrap16 (timer - 1)) < n)%nat ->
  returns (await_char n timer) w.
Proof.
  induction n as [|n IH]; intros timer w Hn; [lia|].
  cbn [await_char]. destruct w as [r bi bt fl us sp ck si sb sk tr].
  unfold returns. run.
  pose proof (wrap16_range (timer - 1)) as Hw.
  destruct (hd 0 si =? 0); cbn [andb]; [|apply returns_ret].
  destruct (Z.eqb_spec (wrap16 (timer - 1)) 0) as [|Hne]; cbn [negb];
    [apply returns_ret|].
  run. destruct (ck || hd false sb); [apply returns_ret|].
  apply IH. rewrite (wrap16_small (wrap16 (timer - 1) - 1)) by lia. lia.
Qed.

(** What the decoding loop leaves: a character was taken from the
    script, or there was none and the loop ended on the timer or on the
    command button. *)
Lemma await_char_post n : forall timer w c t w',
  await_char n timer w = Some ((c, t), w') ->
  (List.length (script_iambic w') < List.length (script_iambic w))%nat
  \/ (script_iambic w = [] /\ script_iambic w' = []
      /\ (t = 0 \/ cklatch w' = true)).
Proof.
  induction n as [|n IH]; intros timer w c t w' H; [discriminate|].
  cbn [await_char] in H. destruct w as [r bi bt fl us sp ck si sb sk tr].
  revert H. run. cbn [script_iambic].
  destruct (hd 0 si =? 0) eqn:Hc; cbn [andb].
  - destruct (Z.eqb_spec (wrap16 (timer - 1)) 0) as [Hz|Hne]; cbn [negb].
    + unfold ret. intros H. injection H as <- <- <-. cbn [script_iambic cklatch].
      destruct si; [right; auto|left; cbn; lia].
    + run. change (FALSE =? TRUE) with false. cbv iota.
      destruct (ck || hd false sb) eqn:Hk.
      * unfold ret. intros H. injection H as <- <- <-.
        cbn [script_iambic cklatch].
        destruct si; [right; auto|left; cbn; lia].
      * intros H. apply IH in H. cbn [script_iambic] in H.
        destruct si as [|a si]; cbn [tl List.length] in *.
        -- destruct H as [H|H]; [lia|right; exact H].
        -- left. destruct H as [H|(-> & -> & _)]; cbn; lia.
  - unfold ret. intros H. injection H as <- <- <-. cbn [script_iambic].
    destruct si; [discriminate Hc|left; cbn; lia].
Qed.

(** A round that ends with the callsign matched has decoded a
    character. *)
Lemma train_round_post fuel : forall call i w w',
  train_round fuel call i w = Some (true, w') -> i < 5 ->
  (List.length (script_iambic w') < List.length (script_iambic w))%nat.
Proof.
  induction fuel as [|fuel IH]; intros call i w w' H Hi;
    cbn [train_round] in H;
    (destruct (Z.ltb_spec i 5) as [_|]; [|lia]); [discriminate|].
  bind_inv H stop w1 E1.
  assert (K1 : inputs_kept w w1).
  { revert E1. generalize w, stop, w1.
    change (keeps inputs_kept
              (if i =? 0 then yackdelay (2 * IWGLEN);; play_call 6 0 call
               else ret false)).
    inputs_go. }
  destruct stop; [discriminate|].
  bind_inv H ct w2 E2. destruct ct as [c t].
  pose proof (await_char_post _ _ _ _ _ _ E2) as P2.
  destruct (Z.eqb_spec t 0) as [|Ht]; [discriminate|].
  destruct w2 as [r bi bt fl us sp ck si sb sk tr].
  revert H. run. cbn [script_iambic cklatch] in P2.
  destruct (ck || hd false sb) eqn:Hk; [discriminate|].
  intros H. bind_inv H i' w4 E4.
  pose proof (check_char_inputs_kept _ _ _ _ _ _ E4) as [K4 _].
  pose proof (train_round_inputs_kept _ _ _ _ _ _ H) as [K5 _].
  cbn [script_iambic] in K4. destruct K1 as [K1 _].
  destruct P2 as [P2|(_ & _ & [P2|P2])]; [lia|contradiction|].
  subst ck. discriminate Hk.
Qed.

Lemma check_char_returns call i c w : returns (check_char call i c) w.
Proof.
  unfold check_char. destruct (_ =? _); [apply returns_ret|].
  eexists. reflexivity.
Qed.

Lemma train_round_returns k : forall fuel call i w,
  (List.length (script_iambic w) <= k)%nat ->
  (Z.to_nat 65537 + k <= fuel)%nat ->
  returns (train_round fuel call i) w.
Proof.
  induction k as [k IH] using lt_wf_ind. intros fuel call i w Hk Hfuel.
  destruct fuel as [|fuel]; [lia|]. cbn [train_round].
  destruct (i <? 5); [|apply returns_ret].
  apply returns_bind.
  { destruct (i =? 0); [|apply returns_ret].
    apply returns_bind; [eexists; reflexivity|].
    intros _ w1 _. apply play_call_returns. }
  intros stop w1 E1.
  assert (K1 : inputs_kept w w1).
  { revert E1. generalize w, stop, w1.
    change (keeps inputs_kept
              (if i =? 0 then yackdelay (2 * IWGLEN);; play_call 6 0 call
               else ret false)).
    inputs_go. }
  destruct K1 as [K1 _].
  destruct stop; [apply returns_ret|].
  apply returns_bind.
  { apply await_char_returns.
    pose proof (wrap16_range (wrap16 (YACKSECS TRAINTIMEOUT) - 1)). lia. }
  intros [c t] w2 E2.
  pose proof (await_char_post _ _ _ _ _ _ E2) as P2.
  destruct (Z.eqb_spec t 0) as [|Ht]; [apply returns_ret|].
  destruct w2 as [r bi bt fl us sp ck si sb sk tr].
  cbn [script_iambic cklatch] in P2.
  unfold returns. run.
  destruct (ck || hd false sb) eqn:Hlatch; [apply returns_ret|].
  apply returns_bind; [apply check_char_returns|].
  intros i' w4 E4.
  pose proof (check_char_inputs_kept _ _ _ _ _ _ E4) as [K4 _].
  cbn [script_iambic] in K4.
  destruct P2 as [P2|(_ & _ & [P2|P2])];
    [|contradiction|subst ck; discriminate Hlatch].
  apply (IH (k - 1)%nat); lia.
Qed.

Lemma rndcall_from_returns k : forall i call s,
  exists r, rndcall_from k i call s = Some r.
Proof.
  induction k as [|k IH]; intros i call s; cbn [rndcall_from];
    [eexists; reflexivity|].
  destruct (i <? 5); [|eexists; reflexivity].
  destruct (i =? 2); rewrite lfsr_result by lia; apply IH.
Qed.

Lemma call_rndcall_returns call w : returns (call_rndcall call) w.
Proof.
  unfold returns, call_rndcall, rndcall.
  destruct (rndcall_from_returns 6 0 call (lfsr_reg w)) as [[c s] E].
  rewrite E. eexists. reflexivity.
Qed.

Lemma cstrain_loop_returns k : forall fuel call w,
  (List.length (script_iambic w) <= k)%nat ->
  (Z.to_nat 65538 + k <= fuel)%nat ->
  returns (cstrain_loop fuel call) w.
Proof.
  induction k as [k IH] using lt_wf_ind. intros fuel call w Hk Hfuel.
  destruct fuel as [|fuel]; [lia|]. cbn [cstrain_loop].
  apply returns_bind; [apply call_rndcall_returns|].
  intros call1 w1 E1.
  pose proof (call_rndcall_inputs_kept _ _ _ _ E1) as [K1 _].
  apply returns_bind; [apply (train_round_returns k); lia|].
  intros matched w2 E2. destruct matched; [|apply returns_ret].
  pose proof (train_round_post _ _ _ _ _ E2 ltac:(lia)) as P2.
  apply returns_bind; [eexists; reflexivity|].
  intros u w3 E3.
  assert (K3 : keeps inputs_kept (yackchar (ch "R"))) by inputs_prim.
  destruct (K3 _ _ _ E3) as [K3' _].
  apply (IH (k - 1)%nat); lia.
Qed.

Lemma beacon_record_loop_returns n : forall w,
  (List.length (script_iambic w) * Z.to_nat 65536
   + Z.to_nat (wrap16 (beacon_timer w - 1)) <= n)%nat ->
  returns (beacon_record_loop n) w.
Proof.
  induction n as [|n IH]; intros w Hn;
    destruct w as [r bi bt fl us sp ck si sb sk tr];
    cbn [script_iambic beacon_timer] in Hn;
    pose proof (wrap16_range (bt - 1)) as Hw;
    cbn [beacon_record_loop]; unfold returns; run;
    destruct (Z.eqb_spec (wrap16 (bt - 1)) 0) as [|Hne];
    try apply returns_ret; [lia|].
  run.
  destruct si as [|c si]; cbn [hd tl List.length] in *.
  - change (0 >=? ch "0") with false. cbn [andb]. run.
    apply IH. cbn [script_iambic beacon_timer List.length].
    rewrite (wrap16_small (wrap16 (bt - 1) - 1)) by lia. lia.
  - pose proof (wrap16_range (wrap16 (YACKSECS DEFTIMEOUT) - 1)) as HT.
    pose proof (wrap16_range (wrap16 (bt - 1) - 1)) as Hw'.
    destruct ((c >=? ch "0") && (c <=? ch "9")); run;
      apply IH; cbn [script_iambic beacon_timer List.length]; lia.
Qed.

Lemma beacon_play_returns fuel w : returns (beacon fuel PLAY) w.
Proof.
  destruct w as [r bi bt fl us sp ck si sb sk tr].
  unfold beacon, returns. run.
  destruct (bi =? 65000); run;
    match goal with
    | |- context [negb (?x =? 0)] => destruct (x =? 0)
    end; cbn [negb]; run;
    try (eexists; reflexivity);
    destruct POWERSAVE; run;
    destruct (bt =? 0); cbn [negb]; run;
    try (eexists; reflexivity);
    match goal with
    | |- context [if ?x =? 0 then _ else _] => destruct (x =? 0)
    end; run; eexists; reflexivity.
Qed.

Lemma beacon_returns fuel mode w :
  ((List.length (script_iambic w) + 1) * Z.to_nat 65536 <= fuel)%nat ->
  returns (beacon fuel mode) w.
Proof.
  intros Hfuel. destruct mode; [|apply beacon_play_returns].
  destruct w as [r bi bt fl us sp ck si sb sk tr].
  cbn [script_iambic] in Hfuel.
  unfold beacon, returns. run.
  destruct (bi =? 65000); run; repeat (rewrite bind_bind; run);
    (apply returns_bind;
     [apply beacon_record_loop_returns;
      cbn [script_iambic beacon_timer];
      pose proof (wrap16_range (wrap16 (YACKSECS DEFTIMEOUT) - 1)); lia|]);
    intros u [r1 bi1 bt1 fl1 us1 sp1 ck1 si1 sb1 sk1 tr1] _;
    unfold returns; repeat (rewrite bind_bind; run);
    destruct ((bi1 >=? 0) && (bi1 <=? 9999)); run;
    repeat (rewrite bind_bind; run); eexists; reflexivity.
Qed.

(** Decide the tests of a dispatcher table one after the other. *)
Ltac table_cases :=
  repeat match goal with
  | |- context [if ?c =? ?k then _ else _] => destruct (c =? k)
  end.

Lemma lockable_commands_returns fuel c w :
  ((List.length (script_iambic w) + List.length (script_keyinp w) + 2)
   * Z.to_nat 65536 <= fuel)%nat ->
  returns (lockable_commands fuel c) w.
Proof.
  intros Hfuel. unfold lockable_commands. table_cases;
    try apply returns_ret; try (eexists; reflexivity).
  - apply returns_bind; [|intros; apply returns_ret].
    apply setfarns_loop_returns; [lia|].
    change (Z.to_nat ((FARNSREPEAT - 0) mod 256)) with 10%nat. lia.
  - apply returns_bind; [|intros; apply returns_ret].
    apply beacon_returns. lia.
Qed.

Lemma anytime_commands_returns fuel c timer w :
  ((List.length (script_iambic w) + List.length (script_keyinp w) + 2)
   * Z.to_nat 65536 <= fuel)%nat ->
  returns (anytime_commands fuel c timer) w.
Proof.
  intros Hfuel. unfold anytime_commands. table_cases;
    try apply returns_ret; try (eexists; reflexivity).
  - apply returns_bind; [|intros; apply returns_ret].
    apply pitch_loop_returns; [unfold PITCHREPEAT; lia|].
    unfold PITCHREPEAT. lia.
  - apply returns_bind; [|intros; apply returns_ret].
    apply (cstrain_loop_returns (List.length (script_iambic w))); lia.
Qed.

Lemma yields_ret {A : Type} (P : A -> Prop) (a : A) : P a -> yields P (ret a).
Proof. intros H w a' w' E. injection E as <- _. exact H. Qed.

Lemma yields_bind {A B : Type} (P : B -> Prop) (m : M A) (f : A -> M B) :
  (forall a, yields P (f a)) -> yields P (bind m f).
Proof.
  intros Hf w b w' E. unfold bind in E.
  destruct (m w) as [[a w1]|]; [|discriminate]. exact (Hf a _ _ _ E).
Qed.

Lemma yields_bind_with {A B : Type} (Q : A -> Prop) (P : B -> Prop)
    (m : M A) (f : A -> M B) :
  yields Q m -> (forall a, Q a -> yields P (f a)) -> yields P (bind m f).
Proof.
  intros Hm Hf w b w' E. unfold bind in E.
  destruct (m w) as [[a w1]|] eqn:E1; [|discriminate].
  exact (Hf a (Hm _ _ _ E1) _ _ _ E).
Qed.

(** The exit timer leaves the always-available table as it came or as a
    playback command sets it. *)
Lemma anytime_commands_timer fuel c timer :
  yields (fun r => snd r = timer \/ snd r = wrap16 (YACKSECS MACTIMEOUT))
    (anytime_commands fuel c timer).
Proof.
  unfold anytime_commands. table_cases;
    repeat (apply yields_bind; intros);
    apply yields_ret; cbn [snd]; auto.
Qed.

(** The exit timer stays a 16-bit value through a pass. *)
Lemma command_body_timer fuel timer :
  0 <= timer < 65536 ->
  yields (fun t => 0 <= t < 65536) (command_body fuel timer).
Proof.
  intros Ht. unfold command_body.
  pose proof (wrap16_range (YACKSECS DEFTIMEOUT)) as HT.
  pose proof (wrap16_range (YACKSECS MACTIMEOUT)) as HM.
  do 5 (apply yields_bind; intros).
  eapply yields_bind_with; [apply anytime_commands_timer|].
  intros [c' t'] Hq. cbn [snd] in Hq.
  apply yields_bind. intros _. apply yields_ret.
  destruct (negb (a =? 0)); destruct Hq as [->| ->]; assumption.
Qed.

(** A pass in which nothing is decoded. *)
Lemma command_body_idle fuel timer w :
  script_iambic w = [] ->
  command_body fuel timer w
  = Some (timer, polled [] [EvIambic OFF; EvBeat; EvFlag CONFLOCK] w).
Proof.
  intros Hs. rewrite command_body_start, Hs. cbn [hd tl].
  destruct (flags w CONFLOCK); cbn; reflexivity.
Qed.

Lemma command_body_returns fuel timer w :
  ((List.length (script_iambic w) + List.length (script_keyinp w) + 2)
   * Z.to_nat 65536 <= fuel)%nat ->
  returns (command_body fuel timer) w.
Proof.
  intros Hfuel. unfold returns. rewrite command_body_start.
  set (w1 := polled (tl (script_iambic w))
               [EvIambic OFF; EvBeat; EvFlag CONFLOCK] w).
  assert (K1 : inputs_kept w w1).
  { split; cbn [w1 polled script_iambic script_keyinp];
      [apply length_tl_le|apply Nat.le_refl]. }
  destruct K1 as [K1a K1b].
  apply returns_bind.
  { destruct (negb (flags w CONFLOCK)); [|apply returns_ret].
    apply lockable_commands_returns. lia. }
  intros c' w2 E2.
  assert (K2 : inputs_kept w1 w2).
  { revert E2. generalize w1, c', w2.
    change (keeps inputs_kept
              (if negb (flags w CONFLOCK)
               then lockable_commands fuel (hd 0 (script_iambic w))
               else ret (hd 0 (script_iambic w)))).
    inputs_go. }
  destruct K2 as [K2a K2b].
  apply returns_bind; [apply anytime_commands_returns; lia|].
  intros [c'' t'] w3 _.
  destruct (c'' =? TRUE); [eexists; reflexivity|].
  destruct (negb (c'' =? 0)); eexists; reflexivity.
Qed.

Lemma command_loop_returns n : forall fuel timer w E,
  0 <= timer < 65536 ->
  (List.length (script_iambic w) * Z.to_nat 65536 + Z.to_nat timer <= n)%nat ->
  ((List.length (script_iambic w) + List.length (script_keyinp w) + 2)
   * Z.to_nat 65536 <= E)%nat ->
  (n + E < fuel)%nat ->
  returns (command_loop fuel timer) w.
Proof.
  induction n as [n IH] using lt_wf_ind. intros fuel timer w E Ht Hn HE Hfuel.
  destruct fuel as [|fuel]; [lia|]. cbn [command_loop].
  apply returns_bind; [eexists; reflexivity|].
  intros k w1 E1.
  assert (K1 : keeps inputs_kept (yackctrlkey TRUE)) by inputs_prim.
  destruct (K1 _ _ _ E1) as [K1a K1b].
  destruct k; [apply returns_ret|].
  destruct (Z.gtb_spec timer 0) as [Hpos|]; [|apply returns_ret].
  rewrite (wrap16_small (timer - 1)) by lia.
  destruct (script_iambic w1) as [|c si] eqn:Hs.
  - unfold returns, bind. rewrite (command_body_idle _ _ _ Hs).
    apply (IH (n - 1)%nat) with (E := E);
      cbn [polled script_iambic script_keyinp List.length]; lia.
  - cbn [List.length] in K1a.
    apply returns_bind; [apply command_body_returns; rewrite Hs; cbn; lia|].
    intros t' w2 E2.
    pose proof (command_body_timer fuel (timer - 1) ltac:(lia) _ _ _ E2) as Ht'.
    cbv beta in Ht'.
    pose proof (command_body_inputs_kept _ _ _ _ _ E2) as [K2a K2b].
    assert (K2c : (List.length (script_iambic w2) <= List.length si)%nat).
    { rewrite command_body_start in E2. revert E2.
      match goal with
      | |- ?m ?w0 = _ -> _ =>
          assert (K : keeps inputs_kept m) by inputs_go;
          intros E2; destruct (K _ _ _ E2) as [K' _]
      end.
      cbn [polled script_iambic] in K'. rewrite Hs in K'. exact K'. }
    apply (IH (n - 1)%nat) with (E := E); lia.
Qed.

Lemma commandmode_returns fuel w :
  (enough_fuel w <= fuel)%nat -> returns (commandmode fuel) w.
Proof.
  unfold enough_fuel. intros Hfuel.
  destruct w as [r bi bt fl us sp ck si sb sk tr].
  cbn [script_iambic script_keyinp] in Hfuel.
  unfold commandmode, returns. run.
  pose proof (wrap16_range (YACKSECS DEFTIMEOUT)) as HT.
  apply returns_bind; [|intros; eexists; reflexivity].
  apply (command_loop_returns
           (List.length si * Z.to_nat 65536 + Z.to_nat 65535)%nat)
    with (E := ((List.length si + List.length sk + 2) * Z.to_nat 65536)%nat);
    cbn [script_iambic script_keyinp]; lia.
Qed.

Lemma main_pass_returns fuel w :
  (enough_fuel w <= fuel)%nat -> returns (main_pass fuel) w.
Proof.
  intros Hfuel. unfold main_pass.
  apply returns_bind; [eexists; reflexivity|].
  intros k w1 E1.
  assert (K1 : keeps inputs_kept (yackctrlkey TRUE)) by inputs_prim.
  destruct (K1 _ _ _ E1) as [K1a K1b].
  apply returns_bind.
  { destruct k; [|apply returns_ret]. apply commandmode_returns.
    unfold enough_fuel in *. lia. }
  intros u w2 _.
  apply returns_bind; [eexists; reflexivity|]. intros u1 w3 _.
  apply returns_bind; [apply beacon_play_returns|]. intros u2 w4 _.
  eexists. reflexivity.
Qed.

Lemma main_loop_returns n : forall fuel w,
  (enough_fuel w <= fuel)%nat -> returns (main_loop fuel n) w.
Proof.
  induction n as [|n IH]; intros fuel w Hfuel; cbn [main_loop];
    [apply returns_ret|].
  apply returns_bind; [apply main_pass_returns; exact Hfuel|].
  intros u w1 E1.
  destruct (main_pass_inputs_kept _ _ _ _ E1) as [Ka Kb].
  apply IH. unfold enough_fuel in *. lia.
Qed.

End Quiet.

(** X17: the keyer cannot be hung from the key.  Provided the idle value
    of the paddle register shows no contact, every loop of the program
    comes to its end on any input that stops at some time: whatever
    characters are decoded, whatever the paddle register reads and however
    the command button is pressed, command mode returns, and so does every
    pass of the main loop.  The fuel [enough_fuel] that suffices grows
    with the pending input only. *)
Theorem keyer_never_hangs (fuel n : nat) (w : World)
    (Hdit : keyed 255 DITPIN = false) (Hdah : keyed 255 DAHPIN = false)
    (Hfuel : (enough_fuel w <= fuel)%nat) :
  (exists w', commandmode fuel w = Some (tt, w'))
  /\ (exists w', main_loop fuel n w = Some (tt, w')).
Proof.
  split.
  - destruct (commandmode_returns Hdit Hdah fuel w Hfuel) as [[[] w'] E].
    exists w'. exact E.
  - destruct (main_loop_returns Hdit Hdah n fuel w Hfuel) as [[[] w'] E].
    exists w'. exact E.
Qed.

(** ** The lock, character by character *)

(** The pitch loop begins with a dit and a look at the command button,
    and leaves the configuration. *)
Lemma pitch_begins fuel w w' :
  pitch fuel w = Some (tt, w') ->
  flags w' = flags w /\ user w' = user w
  /\ exists more,
       trace w' = trace w ++ [EvChar (ch "E"); EvCtrlKey TRUE] ++ more.
Proof.
  destruct fuel as [|fuel]; [discriminate|].
  unfold pitch. cbn [pitch_loop]. change (PITCHREPEAT =? 0) with false.
  cbv iota. intros H.
  destruct w as [r bi bt fl us sp ck si sb sk tr].
  bind_inv H u w1 E1. unfold yackchar, emit in E1. injection E1 as _ <-.
  bind_inv H k w2 E2. unfold yackctrlkey, bind, emit in E2.
  injection E2 as _ <-.
  match type of H with
  | ?m _ = _ => assert (K : keeps config_kept m) by config_go
  end.
  destruct (K _ _ _ H) as (Hfl & Hus & evs & Htr & _).
  cbn in Hfl, Hus, Htr. cbn [flags user trace].
  split; [exact Hfl|]. split; [exact Hus|].
  exists evs. rewrite Htr, <- !app_assoc. reflexivity.
Qed.

(** The trainer begins with its delay, and leaves the configuration. *)
Lemma cstrain_begins fuel w w' :
  cstrain fuel w = Some (tt, w') ->
  flags w' = flags w /\ user w' = user w
  /\ exists more, trace w' = trace w ++ [EvDelay (2 * IWGLEN)] ++ more.
Proof.
  intros H.
  destruct (cstrain_loop_config_kept _ _ _ _ _ H) as (Hfl & Hus & _).
  split; [exact Hfl|]. split; [exact Hus|].
  destruct fuel as [|fuel]; [discriminate|].
  unfold cstrain in H. cbn [cstrain_loop] in H.
  destruct w as [r bi bt fl us sp ck si sb sk tr].
  bind_inv H call w1 E1. unfold call_rndcall in E1.
  destruct (rndcall [0; 0; 0; 0; 0] (lfsr_reg _)) as [[call1 s1]|];
    [|discriminate E1].
  injection E1 as <- <-.
  bind_inv H matched w2 E2.
  destruct fuel as [|fuel]; [discriminate E2|].
  cbn [train_round] in E2. change (0 <? 5) with true in E2.
  change (0 =? 0) with true in E2. cbv iota in E2.
  rewrite bind_bind in E2.
  bind_inv E2 u w3 E3. unfold yackdelay, emit in E3. injection E3 as _ <-.
  match type of E2 with
  | ?m _ = _ => assert (K2 : keeps config_kept m) by config_go
  end.
  destruct (K2 _ _ _ E2) as (_ & _ & evs2 & Htr2 & _).
  match type of H with
  | ?m _ = _ => assert (K : keeps config_kept m) by config_go
  end.
  destruct (K _ _ _ H) as (_ & _ & evs & Htr & _).
  cbn in Htr2. cbn [trace].
  exists (evs2 ++ evs). rewrite Htr, Htr2, <- !app_assoc. reflexivity.
Qed.


End Keyer.

(** ** Runs on the sample configuration *)





Lemma command_true_char_witness :
  script_iambic (demo_world false 0 [1] [] []) = [1]
  /\ command_body demo_YACKSECS demo_DEFTIMEOUT demo_MACTIMEOUT demo_IWGLEN
       demo_IEGLEN demo_ICGLEN demo_DAHLEN demo_DITPIN demo_DAHPIN
       (demo_flags false) (demo_user 0) demo_wpm demo_POWERSAVE 0 1000
       (demo_world false 0 [1] [] [])
     = Some (wrap16 (demo_YACKSECS demo_DEFTIMEOUT),
             polled [] [EvIambic OFF; EvBeat; EvFlag CONFLOCK;
                        EvSave; EvDelay (demo_DAHLEN * 3); EvString txok]
               (demo_world false 0 [1] [] [])).
Proof.
  split; [reflexivity|].
  apply (command_true_char_acknowledged demo_YACKSECS demo_DEFTIMEOUT
           demo_MACTIMEOUT demo_IWGLEN demo_IEGLEN demo_ICGLEN demo_DAHLEN
           demo_DITPIN demo_DAHPIN (demo_flags false) (demo_user 0) demo_wpm
           demo_POWERSAVE
           0 1000 (demo_world false 0 [1] [] []) []).
  reflexivity.
Defined.

Lemma lfsr_bounded_witness :
  2 <= 26 <= 255 /\ 0 <= LFSR_SEED < 65536
  /\ (exists r, lfsr 26 LFSR_SEED = Some (r, lfsr_next LFSR_SEED)
                /\ r = Z.shiftr (lfsr_next LFSR_SEED) 8 mod 26
                /\ 0 <= r < 26)
  /\ lfsr_calls [26; 10] LFSR_SEED
     = Some (lfsr_outputs [26; 10] LFSR_SEED,
             Nat.iter 2 lfsr_next LFSR_SEED).
Proof.
  split; [lia|]. split; [unfold LFSR_SEED; lia|].
  apply (lfsr_bounded_deterministic 26 LFSR_SEED [26; 10] 3).
  - lia.
  - unfold LFSR_SEED. lia.
  - repeat constructor; lia.
Defined.

Lemma rndcall_witness :
  List.length [0; 0; 0; 0; 0] = 5%nat
  /\ exists r0 r1 r2 r3 r4 s5,
       rndcall [0; 0; 0; 0; 0] LFSR_SEED
       = Some ([r0 + ch "A"; r1 + ch "A"; r2 + ch "0"; r3 + ch "A";
                r4 + ch "A"], s5).
Proof.
  split; [reflexivity|].
  destruct (rndcall_pattern [0; 0; 0; 0; 0] LFSR_SEED eq_refl)
    as (r0 & r1 & r2 & r3 & r4 & s1 & s2 & s3 & s4 & s5 & H).
  exists r0, r1, r2, r3, r4, s5. apply H.
Defined.

Lemma lfsr_never_zero_witness :
  0 < LFSR_SEED < 65536
  /\ lfsr_next LFSR_SEED <> 0
  /\ exists rs s', lfsr_calls [255; 26; 10] LFSR_SEED = Some (rs, s') /\ s' <> 0.
Proof.
  split; [unfold LFSR_SEED; lia|].
  apply (lfsr_never_zero LFSR_SEED [255; 26; 10]).
  - unfold LFSR_SEED. lia.
  - repeat constructor; lia.
Defined.

(** C7, as stated, fails for the Farnsworth loop: both contacts are closed
    at every read of the paddle register (231 has bits 3 and 4 clear), and
    the loop calls the increase at each such cycle but never the
    decrease. *)
Lemma setfarns_squeeze_no_decrease :
  keyed 231 demo_DITPIN = true /\ keyed 231 demo_DAHPIN = true
  /\ option_map
       (fun r => filter (fun e => match e with EvSpeed _ _ => true | _ => false end)
                   (trace (snd r)))
       (setfarns demo_IEGLEN demo_ICGLEN demo_DITPIN demo_DAHPIN 30
          (demo_world false 0 [] [] [231; 231]))
     = Some [EvSpeed DOWN FARNSWORTH; EvSpeed DOWN FARNSWORTH].
Proof. vm_compute. repeat split; reflexivity. Qed.

Lemma adjustment_loops_witness :
  (exists w',
      pitch demo_DITPIN demo_DAHPIN 30
        (demo_world false 0 [] []
           (pitch_reads (burst_cycles demo_bursts ++ demo_quiet)))
      = Some (tt, w')
      /\ besides_polling (trace w')
         = flat_map (pitch_cycle_events demo_DITPIN demo_DAHPIN)
             (burst_cycles demo_bursts ++ demo_quiet))
  /\ (exists w',
         setfarns demo_IEGLEN demo_ICGLEN demo_DITPIN demo_DAHPIN 30
           (demo_world false 0 [] demo_press
              (farns_reads demo_DITPIN (burst_cycles demo_bursts ++ demo_short)))
         = Some (tt, w')
         /\ trace w'
            = flat_map (farns_cycle_events demo_IEGLEN demo_ICGLEN
                          demo_DITPIN demo_DAHPIN)
                (burst_cycles demo_bursts ++ demo_short)
              ++ [EvCtrlKey TRUE]).
Proof.
  assert (Hcalm : forall n, calm n []).
  { intros n i _. destruct i; reflexivity. }
  assert (Hcalm5 : calm 5 demo_press).
  { intros i Hi. do 5 (destruct i as [|i]; [reflexivity|]). lia. }
  destruct (adjustment_loops_run demo_IEGLEN demo_ICGLEN demo_DITPIN demo_DAHPIN
              demo_bursts demo_quiet demo_short 30
              (demo_world false 0 [] []
                 (pitch_reads (burst_cycles demo_bursts ++ demo_quiet)))
              (demo_world false 0 [] []
                 (farns_reads demo_DITPIN (burst_cycles demo_bursts ++ demo_quiet)))
              (demo_world false 0 [] demo_press
                 (pitch_reads (burst_cycles demo_bursts ++ demo_short)))
              (demo_world false 0 [] demo_press
                 (farns_reads demo_DITPIN (burst_cycles demo_bursts ++ demo_short)))
              [] [] [] [])
    as (_ & Hp & _ & _ & Hf).
  - repeat constructor.
  - repeat constructor.
  - reflexivity.
  - repeat constructor.
  - cbn. lia.
  - cbn. lia.
  - reflexivity.
  - apply Hcalm.
  - cbn [demo_world power_on script_keyinp]. rewrite app_nil_r. reflexivity.
  - reflexivity.
  - apply Hcalm.
  - cbn [demo_world power_on script_keyinp]. rewrite app_nil_r. reflexivity.
  - reflexivity.
  - exact Hcalm5.
  - reflexivity.
  - cbn [demo_world power_on script_keyinp]. rewrite app_nil_r. reflexivity.
  - reflexivity.
  - exact Hcalm5.
  - reflexivity.
  - cbn [demo_world power_on script_keyinp]. rewrite app_nil_r. reflexivity.
  - split.
    + destruct Hp as (w' & Hrun & Htr & _). exists w'. split; [exact Hrun|].
      rewrite Htr. vm_compute. reflexivity.
    + destruct Hf as (w' & Hrun & Htr & _). exists w'. split; [exact Hrun|].
      exact Htr.
Defined.

(** The beacon just switched on with the interval 2 in storage. *)
Lemma beacon_fires_witness :
  user (demo_world false 2 [] [] []) 1 = 2
  /\ beacon_interval (demo_world false 2 [] [] []) = 65000
  /\ exists w1 w2,
       beacon_ticks demo_YACKSECS demo_DEFTIMEOUT demo_POWERSAVE 101
         (demo_world false 2 [] [] [])
       = Some (1%nat, w1)
       /\ beacon demo_YACKSECS demo_DEFTIMEOUT demo_POWERSAVE 0 PLAY w1
          = Some (tt, w2)
       /\ trace w2
          = trace w1 ++ [EvPower FALSE; EvUser READ 1 0; EvMessage PLAY 4]
       /\ beacon_interval w2 = 2.
Proof.
  split; [reflexivity|]. split; [reflexivity|].
  destruct (beacon_fires_at_second_expiration demo_YACKSECS demo_DEFTIMEOUT
              demo_POWERSAVE 0 (demo_world false 2 [] [] []))
    as (w1 & w2 & H1 & _ & _ & H2 & H3 & _ & H4 & _).
  - reflexivity.
  - left. reflexivity.
  - cbn. lia.
  - exists w1, w2. repeat split; assumption.
Defined.


(** C2 fails on the digits "70000": the 16-bit accumulator wraps to 4464,
    which passes the range test, is written over the stored interval 30
    and is spoken; no error indication is given. *)
Lemma beacon_record_overflow :
  option_map
    (fun r => (user (snd r) 1, beacon_interval (snd r),
               besides_polling (trace (snd r))))
    (beacon demo_YACKSECS demo_DEFTIMEOUT demo_POWERSAVE 2000 RECORD
       (demo_world false 30 [ch "7"; ch "0"; ch "0"; ch "0"; ch "0"] [] []))
  = Some (4464, 4464,
          [EvUser READ 1 0; EvChar (ch "N"); EvUser WRITE 1 4464;
           EvNumber 4464]).
Proof. vm_compute. reflexivity. Qed.

(** The two runs the specification names: "1234" is stored and spoken,
    "99999" draws the error indication and leaves the stored interval. *)
Lemma beacon_record_examples :
  option_map
    (fun r => (user (snd r) 1, besides_polling (trace (snd r))))
    (beacon demo_YACKSECS demo_DEFTIMEOUT demo_POWERSAVE 2000 RECORD
       (demo_world false 30 [ch "1"; ch "2"; ch "3"; ch "4"] [] []))
  = Some (1234,
          [EvUser READ 1 0; EvChar (ch "N"); EvUser WRITE 1 1234;
           EvNumber 1234])
  /\ option_map
       (fun r => (user (snd r) 1, besides_polling (trace (snd r))))
       (beacon demo_YACKSECS demo_DEFTIMEOUT demo_POWERSAVE 2000 RECORD
          (demo_world false 30 [ch "9"; ch "9"; ch "9"; ch "9"; ch "9"] [] []))
     = Some (30, [EvUser READ 1 0; EvChar (ch "N"); EvError]).
Proof. vm_compute. split; reflexivity. Qed.

(** ** Further runs on the sample configuration *)

Lemma lfsr_update_one_to_one_witness :
  0 <= LFSR_SEED < 65536
  /\ LFSR_SEED = LFSR_SEED
  /\ lfsr_prev (lfsr_next LFSR_SEED) = LFSR_SEED.
Proof.
  split; [unfold LFSR_SEED; lia|].
  apply (lfsr_update_one_to_one LFSR_SEED LFSR_SEED).
  - unfold LFSR_SEED. lia.
  - unfold LFSR_SEED. lia.
  - reflexivity.
Defined.

(** The register is not back at the seed after one call, and it takes the
    value 1 on the way round. *)
Lemma lfsr_full_period_witness :
  Nat.iter (Z.to_nat 65535) lfsr_next LFSR_SEED = LFSR_SEED
  /\ Nat.iter 1 lfsr_next LFSR_SEED <> LFSR_SEED
  /\ exists j, (j < Z.to_nat 65535)%nat /\ Nat.iter j lfsr_next LFSR_SEED = 1.
Proof.
  apply (lfsr_full_period 1 1).
  - lia.
  - lia.
Defined.

Lemma lfsr_returns_unless_zero_witness :
  (lfsr 0 LFSR_SEED = None <-> 0 = 0)
  /\ (0 = 0 ->
      cheap_modulo 1000 (wrap8 (Z.shiftr (lfsr_next LFSR_SEED) 8)) 0 = None).
Proof.
  apply (lfsr_returns_unless_zero 0 LFSR_SEED 1000). lia.
Defined.

(** Two passes of the main loop: the command button is pressed, the
    trainer is started with 'C' and left alone until it and then command
    mode time out. *)
Lemma register_never_stuck_witness :
  exists w',
    main_loop demo_YACKSECS demo_DEFTIMEOUT demo_MACTIMEOUT demo_IWGLEN
      demo_IEGLEN demo_ICGLEN demo_DAHLEN demo_DITPIN demo_DAHPIN
      (demo_flags false) (demo_user 0) demo_wpm demo_POWERSAVE 3000 2
      (demo_world false 0 [ch "C"] [true] [])
    = Some (tt, w')
    /\ 0 < lfsr_reg w' < 65536
    /\ lfsr_next (lfsr_reg w') <> 0.
Proof.
  assert (Hret : option_map (fun _ => tt)
                   (main_loop demo_YACKSECS demo_DEFTIMEOUT demo_MACTIMEOUT
                      demo_IWGLEN demo_IEGLEN demo_ICGLEN demo_DAHLEN
                      demo_DITPIN demo_DAHPIN (demo_flags false)
                      (demo_user 0) demo_wpm demo_POWERSAVE 3000 2
                      (demo_world false 0 [ch "C"] [true] []))
                 = Some tt)
    by (vm_compute; reflexivity).
  revert Hret.
  destruct (main_loop demo_YACKSECS demo_DEFTIMEOUT demo_MACTIMEOUT demo_IWGLEN
              demo_IEGLEN demo_ICGLEN demo_DAHLEN demo_DITPIN demo_DAHPIN
              (demo_flags false) (demo_user 0) demo_wpm demo_POWERSAVE 3000 2
              (demo_world false 0 [ch "C"] [true] []))
    as [[[] w']|] eqn:E; intros Hret.
  - exists w'. split; [reflexivity|].
    apply (register_never_stuck demo_YACKSECS demo_DEFTIMEOUT demo_MACTIMEOUT
             demo_IWGLEN demo_IEGLEN demo_ICGLEN demo_DAHLEN demo_DITPIN
             demo_DAHPIN (demo_flags false) (demo_user 0) demo_wpm
             demo_POWERSAVE 3000 2
             (demo_world false 0 [ch "C"] [true] []) w').
    + cbn. unfold LFSR_SEED. lia.
    + exact E.
  - discriminate Hret.
Defined.

(** A stay in command mode under the lock: a mode selection is refused,
    the version is played, the pitch loop runs, command mode times out. *)
Lemma locked_settings_untouched_witness :
  flags (demo_world true 0 [ch "A"; ch "V"; ch "P"] [] []) CONFLOCK = true
  /\ exists w',
       commandmode demo_YACKSECS demo_DEFTIMEOUT demo_MACTIMEOUT demo_IWGLEN
         demo_IEGLEN demo_ICGLEN demo_DAHLEN demo_DITPIN demo_DAHPIN
         (demo_flags false) (demo_user 0) demo_wpm demo_POWERSAVE 3000
         (demo_world true 0 [ch "A"; ch "V"; ch "P"] [] [])
       = Some (tt, w')
       /\ flags w' = demo_flags true
       /\ user w' = demo_user 0
       /\ exists evs, trace w' = evs
                      /\ Forall (fun e => harmless e = true) evs.
Proof.
  split; [reflexivity|].
  assert (Hret : option_map (fun _ => tt)
                   (commandmode demo_YACKSECS demo_DEFTIMEOUT demo_MACTIMEOUT
                      demo_IWGLEN demo_IEGLEN demo_ICGLEN demo_DAHLEN
                      demo_DITPIN demo_DAHPIN (demo_flags false)
                      (demo_user 0) demo_wpm demo_POWERSAVE 3000
                      (demo_world true 0 [ch "A"; ch "V"; ch "P"] [] []))
                 = Some tt)
    by (vm_compute; reflexivity).
  revert Hret.
  destruct (commandmode demo_YACKSECS demo_DEFTIMEOUT demo_MACTIMEOUT
              demo_IWGLEN demo_IEGLEN demo_ICGLEN demo_DAHLEN demo_DITPIN
              demo_DAHPIN (demo_flags false) (demo_user 0) demo_wpm
              demo_POWERSAVE 3000
              (demo_world true 0 [ch "A"; ch "V"; ch "P"] [] []))
    as [[[] w']|] eqn:E; intros Hret.
  - exists w'. split; [reflexivity|].
    apply (locked_settings_untouched demo_YACKSECS demo_DEFTIMEOUT
             demo_MACTIMEOUT demo_IWGLEN demo_IEGLEN demo_ICGLEN demo_DAHLEN
             demo_DITPIN demo_DAHPIN (demo_flags false) (demo_user 0) demo_wpm
             demo_POWERSAVE 3000
             (demo_world true 0 [ch "A"; ch "V"; ch "P"] [] []) w').
    + reflexivity.
    + repeat (apply Forall_cons;
              [intros H; vm_compute in H; discriminate H|]).
      apply Forall_nil.
    + exact E.
  - discriminate Hret.
Defined.

(** Command mode left by a press of the command button at the third
    test. *)
Lemma commandmode_ends_witness :
  exists w',
    commandmode demo_YACKSECS demo_DEFTIMEOUT demo_MACTIMEOUT demo_IWGLEN
      demo_IEGLEN demo_ICGLEN demo_DAHLEN demo_DITPIN demo_DAHPIN
      (demo_flags false) (demo_user 0) demo_wpm demo_POWERSAVE 10
      (demo_world false 0 [] [false; false; true] [])
    = Some (tt, w')
    /\ trace w'
       = [EvInhibit ON; EvChar (ch "?")] ++ idle_pass ++ idle_pass
         ++ [EvCtrlKey TRUE; EvString prgx; EvInhibit OFF]
    /\ lfsr_reg w' = Nat.iter 2 lfsr_next LFSR_SEED.
Proof.
  destruct (commandmode_ends demo_YACKSECS demo_DEFTIMEOUT demo_MACTIMEOUT
              demo_IWGLEN demo_IEGLEN demo_ICGLEN demo_DAHLEN demo_DITPIN
              demo_DAHPIN (demo_flags false) (demo_user 0) demo_wpm
              demo_POWERSAVE 10 2
              (demo_world false 0 [] [false; false; true] []))
    as (w' & Hrun & Htr & Hreg & _).
  - reflexivity.
  - reflexivity.
  - intros i Hi. destruct i as [|[|i]]; [reflexivity|reflexivity|lia].
  - right. split; [vm_compute; reflexivity|reflexivity].
  - lia.
  - exists w'. split; [exact Hrun|]. split; [|exact Hreg].
    rewrite Htr. cbn [repeat concat app]. rewrite app_nil_r. reflexivity.
Defined.

(** The character 'Q' is in neither table. *)
Lemma command_unknown_char_witness :
  command_body demo_YACKSECS demo_DEFTIMEOUT demo_MACTIMEOUT demo_IWGLEN
    demo_IEGLEN demo_ICGLEN demo_DAHLEN demo_DITPIN demo_DAHPIN
    (demo_flags false) (demo_user 0) demo_wpm demo_POWERSAVE 0 77
    (demo_world false 0 [ch "Q"] [] [])
  = Some (wrap16 (demo_YACKSECS demo_DEFTIMEOUT),
          polled [] [EvIambic OFF; EvBeat; EvFlag CONFLOCK; EvError]
            (demo_world false 0 [ch "Q"] [] [])).
Proof.
  apply (command_unknown_char demo_YACKSECS demo_DEFTIMEOUT demo_MACTIMEOUT
           demo_IWGLEN demo_IEGLEN demo_ICGLEN demo_DAHLEN demo_DITPIN
           demo_DAHPIN (demo_flags false) (demo_user 0) demo_wpm
           demo_POWERSAVE 0 77 (ch "Q")
           (demo_world false 0 [ch "Q"] [] []) []).
  - intros H. vm_compute in H. intuition discriminate.
  - intros H. vm_compute in H. intuition discriminate.
  - intros H. vm_compute in H. discriminate H.
  - intros H. vm_compute in H. discriminate H.
  - reflexivity.
Defined.

(** The lock is lifted by '0' on a locked keyer. *)
Lemma command_lock_toggle_witness :
  exists w',
    command_body demo_YACKSECS demo_DEFTIMEOUT demo_MACTIMEOUT demo_IWGLEN
      demo_IEGLEN demo_ICGLEN demo_DAHLEN demo_DITPIN demo_DAHPIN
      (demo_flags false) (demo_user 0) demo_wpm demo_POWERSAVE 0 77
      (demo_world true 0 [ch "0"] [] [])
    = Some (wrap16 (demo_YACKSECS demo_DEFTIMEOUT), w')
    /\ flags w' CONFLOCK = false.
Proof.
  destruct (command_lock_toggle demo_YACKSECS demo_DEFTIMEOUT demo_MACTIMEOUT
              demo_IWGLEN demo_IEGLEN demo_ICGLEN demo_DAHLEN demo_DITPIN
              demo_DAHPIN (demo_flags false) (demo_user 0) demo_wpm
              demo_POWERSAVE 0 77
              (demo_world true 0 [ch "0"] [] []) [])
    as (w' & Hrun & _ & Hlock & _).
  - reflexivity.
  - exists w'. split; [exact Hrun|exact Hlock].
Defined.

(** The paddles are swapped by 'X' on an unlocked keyer. *)
Lemma command_unlocked_acts_witness :
  exists w',
    command_body demo_YACKSECS demo_DEFTIMEOUT demo_MACTIMEOUT demo_IWGLEN
      demo_IEGLEN demo_ICGLEN demo_DAHLEN demo_DITPIN demo_DAHPIN
      (demo_flags false) (demo_user 0) demo_wpm demo_POWERSAVE 0 77
      (demo_world false 0 [ch "X"] [] [])
    = Some (wrap16 (demo_YACKSECS demo_DEFTIMEOUT), w')
    /\ trace w'
       = [EvIambic OFF; EvBeat; EvFlag CONFLOCK; EvToggle PDLSWAP;
          EvSave; EvDelay (demo_DAHLEN * 3); EvString txok]
    /\ flags w' PDLSWAP = true.
Proof.
  destruct (command_unlocked_acts demo_YACKSECS demo_DEFTIMEOUT demo_MACTIMEOUT
              demo_IWGLEN demo_IEGLEN demo_ICGLEN demo_DAHLEN demo_DITPIN
              demo_DAHPIN (demo_flags false) (demo_user 0) demo_wpm
              demo_POWERSAVE 0 77 (ch "X")
              [EvToggle PDLSWAP] (demo_world false 0 [ch "X"] [] []) [])
    as (w' & Hrun & Htr & _ & _ & Hstate).
  - reflexivity.
  - unfold lockable_calls. do 5 right. left. reflexivity.
  - reflexivity.
  - exists w'. split; [exact Hrun|]. split; [exact Htr|].
    destruct Hstate as [Hfl _]; [intros H; cbv in H; discriminate H|].
    rewrite Hfl. reflexivity.
Defined.

(** The keyer switched on with the interval 0 in storage. *)
Lemma beacon_off_when_zero_witness :
  loaded_interval (demo_world false 0 [] [] []) = 0
  /\ beacon_ticks demo_YACKSECS demo_DEFTIMEOUT demo_POWERSAVE 5
       (demo_world false 0 [] [] [])
     = Some (0%nat,
             beacon_world 0 0 [EvUser READ 1 0] (demo_world false 0 [] [] [])).
Proof.
  split; [reflexivity|].
  apply (beacon_off_when_zero demo_YACKSECS demo_DEFTIMEOUT demo_POWERSAVE 4
           (demo_world false 0 [] [] [])).
  reflexivity.
Defined.

(** The interval 3 just recorded: the playback comes with call number
    203. *)
Lemma beacon_plays_every_interval_witness :
  exists w1 w2,
    beacon_ticks demo_YACKSECS demo_DEFTIMEOUT demo_POWERSAVE 202
      (set_beacon_interval 3 (demo_world false 3 [] [] []))
    = Some (2%nat, w1)
    /\ beacon demo_YACKSECS demo_DEFTIMEOUT demo_POWERSAVE 0 PLAY w1
       = Some (tt, w2)
    /\ trace w2
       = trace w1 ++ [EvPower FALSE; EvUser READ 1 0; EvMessage PLAY 4]
    /\ beacon_interval w2 = 3.
Proof.
  destruct (beacon_plays_every_interval demo_YACKSECS demo_DEFTIMEOUT
              demo_POWERSAVE 0
              (set_beacon_interval 3 (demo_world false 3 [] [] [])))
    as (w1 & w2 & H1 & _ & H2 & H3 & H4 & _).
  - cbn. lia.
  - cbn. lia.
  - exists w1, w2. repeat split; assumption.
Defined.

(** The keyer switched on with 65535 in storage, as an erased memory
    reads. *)
Lemma beacon_trapped_above_dummy_witness :
  exists k w' evs,
    beacon_ticks demo_YACKSECS demo_DEFTIMEOUT demo_POWERSAVE 300
      (demo_world false 65535 [] [] [])
    = Some (k, w')
    /\ trace w' = evs
    /\ Forall (fun e => waiting_call e = true) evs.
Proof.
  destruct (beacon_trapped_above_dummy demo_YACKSECS demo_DEFTIMEOUT
              demo_POWERSAVE 300 (demo_world false 65535 [] [] []))
    as (k & w' & evs & Hrun & Htr & Hev & _).
  - vm_compute. reflexivity.
  - cbn. lia.
  - exists k, w', evs. split; [exact Hrun|]. split; [exact Htr|exact Hev].
Defined.

Lemma beacon_record_stores_witness :
  exists w',
    beacon demo_YACKSECS demo_DEFTIMEOUT demo_POWERSAVE 2000 RECORD
      (demo_world false 30 [ch "1"; ch "2"] [] [])
    = Some (tt, w')
    /\ user w' 1 = decimal [ch "1"; ch "2"]
    /\ decimal [ch "1"; ch "2"] = 12.
Proof.
  destruct (beacon_record_stores demo_YACKSECS demo_DEFTIMEOUT demo_POWERSAVE
              [ch "1"; ch "2"] 2000
              (demo_world false 30 [ch "1"; ch "2"] [] []))
    as (_ & w' & Hrun & Hu & _).
  - repeat constructor.
  - cbn. lia.
  - reflexivity.
  - vm_compute. discriminate.
  - apply Nat.leb_le. vm_compute. reflexivity.
  - exists w'. split; [exact Hrun|]. split; [exact Hu|reflexivity].
Defined.


(** The command button found pressed after the second character. *)
Lemma cstrain_aborts_presentation_witness :
  exists w',
    cstrain demo_YACKSECS demo_IWGLEN 5
      (demo_world false 0 [] [false; true] [])
    = Some (tt, w')
    /\ trace w'
       = [EvDelay (2 * demo_IWGLEN);
          EvChar (ch "S"); EvFarns; EvCtrlKey TRUE;
          EvChar (ch "J"); EvFarns; EvCtrlKey TRUE].
Proof.
  destruct (cstrain_aborts_presentation demo_YACKSECS demo_IWGLEN 1 5
              (demo_world false 0 [] [false; true] []))
    as (w' & Hrun & Htr & _).
  - reflexivity.
  - intros i Hi. destruct i as [|i]; [reflexivity|lia].
  - reflexivity.
  - lia.
  - lia.
  - exists w'. split; [exact Hrun|]. rewrite Htr. vm_compute. reflexivity.
Defined.

(** 'N', '4', '2' keyed on an unlocked keyer. *)
Lemma command_programs_beacon_witness :
  exists w',
    command_body demo_YACKSECS demo_DEFTIMEOUT demo_MACTIMEOUT demo_IWGLEN
      demo_IEGLEN demo_ICGLEN demo_DAHLEN demo_DITPIN demo_DAHPIN
      (demo_flags false) (demo_user 0) demo_wpm demo_POWERSAVE 2000 77
      (demo_world false 0 [ch "N"; ch "4"; ch "2"] [] [])
    = Some (wrap16 (demo_YACKSECS demo_DEFTIMEOUT), w')
    /\ user w' 1 = decimal [ch "4"; ch "2"]
    /\ decimal [ch "4"; ch "2"] = 42.
Proof.
  destruct (command_programs_beacon demo_YACKSECS demo_DEFTIMEOUT
              demo_MACTIMEOUT demo_IWGLEN demo_IEGLEN demo_ICGLEN demo_DAHLEN
              demo_DITPIN demo_DAHPIN (demo_flags false) (demo_user 0) demo_wpm
              demo_POWERSAVE
              [ch "4"; ch "2"] 2000 77
              (demo_world false 0 [ch "N"; ch "4"; ch "2"] [] []))
    as (w' & Hrun & Hu & _).
  - reflexivity.
  - reflexivity.
  - repeat constructor.
  - cbn. lia.
  - vm_compute. discriminate.
  - apply Nat.leb_le. vm_compute. reflexivity.
  - exists w'. split; [exact Hrun|]. split; [exact Hu|reflexivity].
Defined.

(** The pitch command with a DIT contact at the first cycle, entered by
    a press of the command button. *)
Lemma keyer_never_hangs_witness :
  keyed 255 demo_DITPIN = false /\ keyed 255 demo_DAHPIN = false
  /\ (exists w',
         commandmode demo_YACKSECS demo_DEFTIMEOUT demo_MACTIMEOUT demo_IWGLEN
           demo_IEGLEN demo_ICGLEN demo_DAHLEN demo_DITPIN demo_DAHPIN
           (demo_flags false) (demo_user 0) demo_wpm demo_POWERSAVE
           (enough_fuel (demo_world false 0 [ch "P"] [true] [247; 255]))
           (demo_world false 0 [ch "P"] [true] [247; 255])
         = Some (tt, w'))
  /\ (exists w',
         main_loop demo_YACKSECS demo_DEFTIMEOUT demo_MACTIMEOUT demo_IWGLEN
           demo_IEGLEN demo_ICGLEN demo_DAHLEN demo_DITPIN demo_DAHPIN
           (demo_flags false) (demo_user 0) demo_wpm demo_POWERSAVE
           (enough_fuel (demo_world false 0 [ch "P"] [true] [247; 255])) 1
           (demo_world false 0 [ch "P"] [true] [247; 255])
         = Some (tt, w')).
Proof.
  split; [reflexivity|]. split; [reflexivity|].
  apply (keyer_never_hangs demo_YACKSECS demo_DEFTIMEOUT demo_MACTIMEOUT
           demo_IWGLEN demo_IEGLEN demo_ICGLEN demo_DAHLEN demo_DITPIN
           demo_DAHPIN (demo_flags false) (demo_user 0) demo_wpm demo_POWERSAVE
           (enough_fuel (demo_world false 0 [ch "P"] [true] [247; 255])) 1
           (demo_world false 0 [ch "P"] [true] [247; 255])).
  - reflexivity.
  - reflexivity.
  - apply Nat.le_refl.
Defined.

(** 'E' keyed on entering command mode: message 1, then 500 idle
    passes. *)
Lemma playback_sets_exit_timer_witness :
  exists w',
    commandmode demo_YACKSECS demo_DEFTIMEOUT demo_MACTIMEOUT demo_IWGLEN
      demo_IEGLEN demo_ICGLEN demo_DAHLEN demo_DITPIN demo_DAHPIN
      (demo_flags false) (demo_user 0) demo_wpm demo_POWERSAVE 600
      (demo_world false 0 [ch "E"] [] [])
    = Some (tt, w')
    /\ lfsr_reg w'
       = Nat.iter (S (Z.to_nat (wrap16 (demo_YACKSECS demo_MACTIMEOUT))))
           lfsr_next LFSR_SEED
    /\ Z.to_nat (wrap16 (demo_YACKSECS demo_MACTIMEOUT)) = Z.to_nat 500.
Proof.
  destruct (playback_sets_exit_timer demo_YACKSECS demo_DEFTIMEOUT
              demo_MACTIMEOUT demo_IWGLEN demo_IEGLEN demo_ICGLEN demo_DAHLEN
              demo_DITPIN demo_DAHPIN (demo_flags false) (demo_user 0) demo_wpm
              demo_POWERSAVE
              600 (ch "E") 1 (demo_world false 0 [ch "E"] [] []))
    as (w' & Hrun & _ & Hreg & _).
  - left. reflexivity.
  - reflexivity.
  - reflexivity.
  - intros i _. destruct i; reflexivity.
  - vm_compute. discriminate.
  - apply Nat.ltb_lt. vm_compute. reflexivity.
  - exists w'. split; [exact Hrun|]. split; [exact Hreg|reflexivity].
Defined.

(** 'P' keyed on a locked keyer, with one DIT contact during the loop. *)
Lemma pitch_saved_in_either_lock_state_witness :
  flags (demo_world true 0 [ch "P"] []
           (pitch_reads (burst_cycles demo_bursts ++ demo_quiet))) CONFLOCK
  = true
  /\ exists w',
       command_body demo_YACKSECS demo_DEFTIMEOUT demo_MACTIMEOUT demo_IWGLEN
         demo_IEGLEN demo_ICGLEN demo_DAHLEN demo_DITPIN demo_DAHPIN
         (demo_flags false) (demo_user 0) demo_wpm demo_POWERSAVE 30 77
         (demo_world true 0 [ch "P"] []
            (pitch_reads (burst_cycles demo_bursts ++ demo_quiet)))
       = Some (wrap16 (demo_YACKSECS demo_DEFTIMEOUT), w')
       /\ In (EvPitch DOWN) (trace w')
       /\ In EvSave (trace w').
Proof.
  split; [reflexivity|].
  destruct (pitch_saved_in_either_lock_state demo_YACKSECS demo_DEFTIMEOUT
              demo_MACTIMEOUT demo_IWGLEN demo_IEGLEN demo_ICGLEN demo_DAHLEN
              demo_DITPIN demo_DAHPIN (demo_flags false) (demo_user 0) demo_wpm
              demo_POWERSAVE
              demo_bursts demo_quiet 30 77
              (demo_world true 0 [ch "P"] []
                 (pitch_reads (burst_cycles demo_bursts ++ demo_quiet)))
              [] [])
    as (w' & Hrun & Htr & _).
  - repeat constructor.
  - repeat constructor.
  - reflexivity.
  - reflexivity.
  - intros i _. destruct i; reflexivity.
  - reflexivity.
  - cbn [demo_world power_on script_keyinp]. rewrite app_nil_r. reflexivity.
  - cbn. lia.
  - exists w'. split; [exact Hrun|]. rewrite Htr.
    split; vm_compute; tauto.
Defined.
